(** * qtable_v: the visualisation client of the Q-table grid world

    A shallow embedding of the TypeScript client (types.ts, api.ts,
    components/CanvasGrid.tsx and the App component) together with the
    properties of its message handling, grid editing and channel control.

    Conventions of the embedding
    - JS numbers that are used as array indices, counters or dimensions are
      [nat]; other integers are [Z]; measured quantities (rewards, action
      values, hyperparameters) are exact rationals [Q], compared with [==].
      Where the rounding of JS arithmetic decides the result (the cell
      under the pointer, the text of a large number) the numbers are
      binary64 values, see [Double].
    - A JS object used as a dictionary is a [gmap string _].
    - A JS array of strings that is written by index is a list of slots,
      a slot being [Some s] or [None] for a hole (reads as [undefined]).
    - An [async] handler is a computation in the monad [M]: it threads the
      component state, logs every HTTP request and its settlement, and may
      end in a thrown exception (rejected promise).
    - State updates are applied where the handler queues them; an updater
      that can throw is run in the render that follows, see [in_render]. *)

From Stdlib Require Import QArith Qminmax Qpower ZArith Lia.
From Stdlib Require Import Qabs SpecFloat.
From stdpp Require Import base option list strings gmap pretty.

Local Open Scope Z_scope.
Local Open Scope nat_scope.

(* ===================================================================== *)
(** ** types.ts                                                           *)
(* ===================================================================== *)

Inductive CellType := empty | wall | start | target | trap | bonus.

Global Instance CellType_eq_dec : EqDecision CellType.
Proof. solve_decision. Defined.

(** The string a [CellType] literal stands for. *)
Definition CellType_str (c : CellType) : string :=
  match c with
  | empty => "empty" | wall => "wall" | start => "start"
  | target => "target" | trap => "trap" | bonus => "bonus"
  end.

Inductive Action := UP | DOWN | LEFT | RIGHT.

Inductive Algorithm := Q_LEARNING | SARSA.

Inductive RewardStrategy := COLLECT_ALL_REWARDS | MINIMIZE_STEPS.

(** One slot of a row of [cells: string[][]]. *)
Abbreviation Slot := (option string).
Abbreviation Row := (list (option string)).
Abbreviation Cells := (list (list (option string))).

Module GridState.
Record t := mk { width : nat; height : nat; cells : Cells }.
End GridState.

(** [Record<Action, number>] *)
Module ActionValues.
Record t := mk { vUP : Q; vDOWN : Q; vLEFT : Q; vRIGHT : Q }.
Definition get (q : t) (a : Action) : Q :=
  match a with
  | UP => vUP q | DOWN => vDOWN q | LEFT => vLEFT q | RIGHT => vRIGHT q
  end.
End ActionValues.

(** [Record<string, Record<Action, number>>], keyed by the text x,y. *)
Abbreviation QTable := (gmap string ActionValues.t).

Module AgentPos.
Record t := mk { x : nat; y : nat }.
End AgentPos.

Module SimulationState.
Record t := mk {
  env : GridState.t;
  agent_pos : AgentPos.t;
  q_table : QTable;
  episode : Z;
  steps : Z;
  total_reward : Q;
  epsilon : Q;
  update_version : option Z
}.
End SimulationState.

Module SetupConfig.
Record t := mk {
  width : nat;
  height : nat;
  cells : option Cells;
  alpha : Q;
  gamma : Q;
  epsilon : Q;
  epsilon_decay : Q;
  min_epsilon : Q;
  algorithm : Algorithm;
  step_penalty : Q;
  strategy : RewardStrategy;
  allowed_actions : option (list Action)
}.
(** [{ ...config, cells: c }] *)
Definition with_cells (c : Cells) (g : t) : t :=
  mk (width g) (height g) (Some c) (alpha g) (gamma g) (epsilon g)
     (epsilon_decay g) (min_epsilon g) (algorithm g) (step_penalty g)
     (strategy g) (allowed_actions g).
(** [{ ...prev, cells: env.cells, width: env.width, height: env.height }] *)
Definition with_env (env : GridState.t) (g : t) : t :=
  mk (GridState.width env) (GridState.height env) (Some (GridState.cells env))
     (alpha g) (gamma g) (epsilon g) (epsilon_decay g) (min_epsilon g)
     (algorithm g) (step_penalty g) (strategy g) (allowed_actions g).
End SetupConfig.

Module LearningCurvePoint.
Record t := mk { episode : Z; reward : Q; steps : Z }.
End LearningCurvePoint.

(* ===================================================================== *)
(** ** JS array primitives used by the client                             *)
(* ===================================================================== *)

(** [row[x]]: a hole or an index past the end reads as [undefined]. *)
Definition js_read (row : Row) (x : nat) : Slot := mjoin (row !! x).

(** [row[x] = v]: in range the slot is overwritten; past the end the array
    grows, the slots in between being holes. *)
Definition js_write (row : Row) (x : nat) (v : string) : Row :=
  if decide (x < length row) then <[x := Some v]> row
  else row ++ replicate (x - length row) None ++ [Some v].

(** [arr.slice(-n)]: the last [n] elements (all of them when there are
    fewer). *)
Definition slice_last {A} (n : nat) (l : list A) : list A :=
  drop (length l - n) l.

(* ===================================================================== *)
(** ** JS numbers                                                         *)
(* ===================================================================== *)

Module Double.
Import Stdlib.Strings.Ascii.

(** A JS number is an IEEE 754 binary64 value. [spec_float] is the
    Standard Library's executable specification of binary floating point;
    with 53 bits of precision and exponents below 1024 its operations
    round to nearest, ties to even, as the arithmetic of JS does. *)
Definition prec : Z := 53.
Definition emax : Z := 1024.
Definition t := spec_float.

(** The number nearest to an integer; exact up to 2^53. *)
Definition of_Z (n : Z) : t := binary_normalize prec emax n 0 false.
Definition of_nat (n : nat) : t := of_Z (Z.of_nat n).

(** [a - b] and [a / b] *)
Definition sub : t → t → t := SFsub prec emax.
Definition div : t → t → t := SFdiv prec emax.

(** [Math.floor(x)] of a finite number, as an integer (both zeros give
    0); [None] for an infinity or NaN. *)
Definition floor (x : t) : option Z :=
  match x with
  | S754_zero _ => Some 0%Z
  | S754_finite s m e => Some (Z.shiftl (cond_Zopp s (Zpos m)) e)
  | S754_infinity _ | S754_nan => None
  end.

(** [Number.MAX_SAFE_INTEGER] *)
Definition MAX_SAFE_INTEGER : Z := 2 ^ 53 - 1.

(** The text of an integer-valued number, as a template literal prints
    it. JS prints the decimal number with the fewest significant digits
    that still reads back as the same number (the closest such, with an
    even last digit on a tie), padded with zeros below 10^21 and in
    exponent form from there on. [candidate a n k] is that number when
    [k] digits suffice for the [n]-digit integer [a]. *)
Definition candidate (a : Z) (n k : nat) : option Z :=
  let p := (10 ^ Z.of_nat (n - k))%Z in
  let lo := (a / p * p)%Z in
  let hi := (lo + p)%Z in
  let same c := SFeqb (of_Z c) (of_Z a) in
  match same lo, same hi with
  | true, true =>
      Some (if (a - lo <? hi - a)%Z then lo
            else if (hi - a <? a - lo)%Z then hi
            else if Z.even (lo / p) then lo else hi)
  | true, false => Some lo
  | false, true => Some hi
  | false, false => None
  end.

(** Seventeen digits always suffice. *)
Definition shortest (a : Z) : Z :=
  let n := String.length (pretty a) in
  foldr (λ k rest, default rest (candidate a n k)) a (seq 1 17).

Fixpoint strip_zeros (s : string) : string :=
  match s with
  | EmptyString => EmptyString
  | String c s' =>
      match strip_zeros s' with
      | EmptyString =>
          if Ascii.eqb c "0"%char then EmptyString else String c EmptyString
      | r => String c r
      end
  end.

(** The exponent form: the first digit, the other significant digits
    after a point if there are any, and the exponent. *)
Definition exponent_text (c : Z) : string :=
  let digits := pretty c in
  match strip_zeros digits with
  | EmptyString => "0"
  | String d EmptyString => String d ("e+" +:+ pretty (String.length digits - 1))
  | String d rest =>
      String d ("." +:+ rest +:+ "e+" +:+ pretty (String.length digits - 1))
  end.

(** Up to [MAX_SAFE_INTEGER] every integer is a number and is printed
    digit by digit. Beyond, the value stands for the number nearest to it
    and the shortest digits are printed. *)
Definition text (v : Z) : string :=
  if decide (Z.abs v ≤ MAX_SAFE_INTEGER)%Z then pretty v
  else
    let c := shortest (Z.abs v) in
    (if (v <? 0)%Z then "-" else "")
    +:+ (if (c <? 10 ^ 21)%Z then pretty c else exponent_text c).
End Double.

(* ===================================================================== *)
(** ** api.ts                                                             *)
(* ===================================================================== *)

(** [WebSocket.readyState] *)
Inductive ReadyState := CONNECTING | OPEN | CLOSING | CLOSED.

Global Instance ReadyState_eq_dec : EqDecision ReadyState.
Proof. solve_decision. Defined.

(** The control frames the client writes, [{action: ..., speed?}]. *)
Inductive WsCommand :=
| CmdPlay
| CmdPause
| CmdSetSpeed (speed : Z).

(** The socket object: its state and the frames handed to [send], oldest
    first. *)
Module WebSocket.
Record t := mk { readyState : ReadyState; outbox : list WsCommand }.
Definition send (f : WsCommand) (s : t) : t :=
  mk (readyState s) (outbox s ++ [f]).
End WebSocket.

Module WSClient.
(** [ws] is [null] before [connect]; [onMessageCb] is represented by
    whether a callback is registered. *)
Record t := mk { ws : option WebSocket.t; onMessageCb : bool }.

(** [this.ws?.readyState === WebSocket.OPEN] *)
Definition is_open (c : t) : bool :=
  match ws c with
  | Some s => bool_decide (WebSocket.readyState s = OPEN)
  | None => false
  end.

(** The body shared by the three control methods:
    [if (this.ws?.readyState === WebSocket.OPEN) this.ws.send(frame)]. *)
Definition send_if_open (f : WsCommand) (c : t) : t :=
  match ws c with
  | Some s =>
      if bool_decide (WebSocket.readyState s = OPEN)
      then mk (Some (WebSocket.send f s)) (onMessageCb c)
      else c
  | None => c
  end.

Definition play (c : t) : t := send_if_open CmdPlay c.
Definition pause (c : t) : t := send_if_open CmdPause c.
Definition setSpeed (speed : Z) (c : t) : t := send_if_open (CmdSetSpeed speed) c.

(** Frames written so far on the current socket. *)
Definition frames (c : t) : list WsCommand :=
  match ws c with Some s => WebSocket.outbox s | None => [] end.
End WSClient.

(** The HTTP operations of [APIClient]. *)
Inductive Req :=
| ReqSetup (config : SetupConfig.t)
| ReqUpdateConfig (config : SetupConfig.t)
| ReqGetState
| ReqStep
| ReqTurbo (episodes : Z)
| ReqGenerateMaze
| ReqClearMap
| ReqGetPath.

Module TurboResult.
Record t := mk {
  status : string;
  curve : list LearningCurvePoint.t;
  env : GridState.t
}.
End TurboResult.

Module EnvResult.
Record t := mk { status : string; env : GridState.t }.
End EnvResult.

Module StepResult.
Record t := mk { status : string; episode_reward : option Q }.
End StepResult.

(** The decoded body each operation resolves to. *)
Definition Resp (r : Req) : Type :=
  match r with
  | ReqSetup _ | ReqUpdateConfig _ => unit
  | ReqGetState => SimulationState.t
  | ReqStep => StepResult.t
  | ReqTurbo _ => TurboResult.t
  | ReqGenerateMaze | ReqClearMap => EnvResult.t
  | ReqGetPath => list AgentPos.t
  end.

(* ===================================================================== *)
(** ** components/CanvasGrid.tsx: the best-action arrow                   *)
(* ===================================================================== *)

Module CanvasGrid.
(** [v || 0] on a number: zero is falsy, every other number is kept. *)
Definition or0 (v : Q) : Q := if Qeq_bool v 0 then 0%Q else v.

(** [Math.max(q_u, q_d, q_l, q_r)] *)
Definition maxQ (qVals : ActionValues.t) : Q :=
  let q_u := or0 (ActionValues.vUP qVals) in
  let q_d := or0 (ActionValues.vDOWN qVals) in
  let q_l := or0 (ActionValues.vLEFT qVals) in
  let q_r := or0 (ActionValues.vRIGHT qVals) in
  Qmax (Qmax (Qmax q_u q_d) q_l) q_r.

(** The [if / else if] chain choosing the arrow; [None] is the empty
    string left in [best] when no branch fires. *)
Definition best (qVals : ActionValues.t) : option Action :=
  let m := maxQ qVals in
  if Qeq_bool (ActionValues.vUP qVals) m then Some UP
  else if Qeq_bool (ActionValues.vDOWN qVals) m then Some DOWN
  else if Qeq_bool (ActionValues.vLEFT qVals) m then Some LEFT
  else if Qeq_bool (ActionValues.vRIGHT qVals) m then Some RIGHT
  else None.

(** The priority order of the chain. *)
Definition priority : list Action := [UP; DOWN; LEFT; RIGHT].
End CanvasGrid.

(* ===================================================================== *)
(** ** The streaming channel: decoded server messages                     *)
(* ===================================================================== *)

Module UpdateMsg.
(** A message tagged [update]. An optional field is [None] (or [false])
    when it is absent or falsy. *)
Record t := mk {
  agent_pos : AgentPos.t;
  q_delta : option QTable;
  q_table : option QTable;
  episode : Z;
  steps : Z;
  total_reward : Q;
  epsilon : Q;
  grid_update : option AgentPos.t;
  respawn_bonuses : bool;
  full_grid : option Cells;
  episode_done : bool;
  episode_reward : Q
}.
End UpdateMsg.

Inductive Msg :=
| MsgUpdate (data : UpdateMsg.t)
| MsgError (message : string)
| MsgOther (type : string).

(* ===================================================================== *)
(** ** The App component: state                                           *)
(* ===================================================================== *)

Module AppState.
(** The hooks of [App] that carry simulation data. The view toggles and
    the theme are left out: no handler below reads or writes them.
    [qTableRef] and [wsClient] are the contents of the two refs. *)
Record t := mk {
  config : SetupConfig.t;
  state : option SimulationState.t;
  curve : list LearningCurvePoint.t;
  isRunning : bool;
  speed : Z;
  error : option string;
  drawMode : CellType;
  bonusValue : Z;
  optimalPath : list AgentPos.t;
  qTableRef : QTable;
  wsClient : WSClient.t
}.

Definition setConfig (v : SetupConfig.t) (s : t) : t :=
  mk v (state s) (curve s) (isRunning s) (speed s) (error s) (drawMode s)
     (bonusValue s) (optimalPath s) (qTableRef s) (wsClient s).
Definition setState (v : option SimulationState.t) (s : t) : t :=
  mk (config s) v (curve s) (isRunning s) (speed s) (error s) (drawMode s)
     (bonusValue s) (optimalPath s) (qTableRef s) (wsClient s).
Definition setCurve (v : list LearningCurvePoint.t) (s : t) : t :=
  mk (config s) (state s) v (isRunning s) (speed s) (error s) (drawMode s)
     (bonusValue s) (optimalPath s) (qTableRef s) (wsClient s).
Definition setIsRunning (v : bool) (s : t) : t :=
  mk (config s) (state s) (curve s) v (speed s) (error s) (drawMode s)
     (bonusValue s) (optimalPath s) (qTableRef s) (wsClient s).
Definition setSpeed (v : Z) (s : t) : t :=
  mk (config s) (state s) (curve s) (isRunning s) v (error s) (drawMode s)
     (bonusValue s) (optimalPath s) (qTableRef s) (wsClient s).
Definition setError (v : option string) (s : t) : t :=
  mk (config s) (state s) (curve s) (isRunning s) (speed s) v (drawMode s)
     (bonusValue s) (optimalPath s) (qTableRef s) (wsClient s).
Definition setOptimalPath (v : list AgentPos.t) (s : t) : t :=
  mk (config s) (state s) (curve s) (isRunning s) (speed s) (error s)
     (drawMode s) (bonusValue s) v (qTableRef s) (wsClient s).
Definition set_qTableRef (v : QTable) (s : t) : t :=
  mk (config s) (state s) (curve s) (isRunning s) (speed s) (error s)
     (drawMode s) (bonusValue s) (optimalPath s) v (wsClient s).
Definition set_wsClient (v : WSClient.t) (s : t) : t :=
  mk (config s) (state s) (curve s) (isRunning s) (speed s) (error s)
     (drawMode s) (bonusValue s) (optimalPath s) (qTableRef s) v.
End AppState.

(* ===================================================================== *)
(** ** The handler monad                                                  *)
(* ===================================================================== *)

(** What the HTTP layer observes, in order: a request leaving, and the
    promise of that request settling (fulfilled or rejected). *)
Inductive Event :=
| Requested (r : Req)
| Settled (r : Req) (fulfilled : bool).

(** The server as seen from the client: given everything observed so far
    (the last event being the request itself), the decoded response, or
    [None] when the promise rejects. *)
Definition Server := list Event → ∀ r : Req, option (Resp r).

Module World.
Record t := mk { app : AppState.t; log : list Event }.
End World.

Inductive Outcome (A : Type) :=
| Done (a : A)
| Thrown.
Arguments Done {A} a.
Arguments Thrown {A}.

Definition M (A : Type) : Type := Server → World.t → Outcome A * World.t.

Global Instance M_ret : MRet M := λ A a _ w, (Done a, w).

Global Instance M_bind : MBind M := λ A B f m srv w,
  match m srv w with
  | (Done a, w') => f a srv w'
  | (Thrown, w') => (Thrown, w')
  end.

(** Read the component state. *)
Definition get : M AppState.t := λ _ w, (Done (World.app w), w).

(** Apply a state update. *)
Definition modify (f : AppState.t → AppState.t) : M unit :=
  λ _ w, (Done tt, World.mk (f (World.app w)) (World.log w)).

(** An uncaught [TypeError]. *)
Definition throw {A} : M A := λ _ w, (Thrown, w).

(** [try { body } catch (e) { console.error(...) }] *)
Definition try_catch (body : M unit) : M unit := λ srv w,
  match body srv w with
  | (Done _, w') => (Done tt, w')
  | (Thrown, w') => (Done tt, w')
  end.

(** The state updaters a handler has queued, as React runs them in the
    render that follows the handler. [setState(updater)] only queues the
    updater: the handler goes on to its end whatever the updater will do.
    When the updaters return, applying them where they were queued gives
    the state React renders. When one of them throws, the render fails:
    none of the queued updates is committed and, there being no error
    boundary, React removes the App. The result tells whether the render
    went through. *)
Definition in_render (updaters : M unit) : M bool := λ srv w,
  match updaters srv w with
  | (Done _, w') => (Done true, w')
  | (Thrown, _) => (Done false, w)
  end.

(** [await APIClient.op(...)]: the request leaves, the server answers, the
    promise settles; a rejection is rethrown at the [await]. *)
Definition await (r : Req) : M (Resp r) := λ srv w,
  let sent := World.log w ++ [Requested r] in
  match srv sent r with
  | Some v => (Done v, World.mk (World.app w) (sent ++ [Settled r true]))
  | None => (Thrown, World.mk (World.app w) (sent ++ [Settled r false]))
  end.

(** A method call on [wsClient.current]. *)
Definition ws_call (f : WSClient.t → WSClient.t) : M unit :=
  modify (λ s, AppState.set_wsClient (f (AppState.wsClient s)) s).

(** Run a handler from a component state with an empty log. *)
Definition run {A} (m : M A) (srv : Server) (s : AppState.t) : Outcome A * World.t :=
  m srv (World.mk s []).

(* ===================================================================== *)
(** ** The App component: handlers                                        *)
(* ===================================================================== *)

(** A handler reads the hooks once, when it starts (the values its closure
    captured at the last render), and its state updates are applied in
    program order. A call to an [async] helper that is not awaited
    ([fetchPath()]) is run in place. *)
Module App.
Import AppState.

Definition fetchPath : M unit :=
  try_catch (
    res ← await ReqGetPath;
    modify (setOptimalPath res)).

(** [fetchPath()] called by a handler whose render then fails: the handler
    sends the request; by the time it settles the App is gone, and
    [setOptimalPath] has no component left to update. *)
Definition fetchPath_unmounted : M unit :=
  try_catch (
    _ ← await ReqGetPath;
    mret tt).

Definition loadState : M unit :=
  try_catch (
    st ← await ReqGetState;
    modify (setState (Some st));;
    fetchPath).

Definition handleSetup : M unit :=
  s ← get;
  let config := config s in
  modify (setIsRunning false);;
  ws_call WSClient.pause;;
  modify (setError None);;
  _ ← await (ReqSetup config);
  modify (setCurve []);;
  loadState.

Definition handleGenerateMaze : M unit :=
  modify (setIsRunning false);;
  ws_call WSClient.pause;;
  res ← await ReqGenerateMaze;
  if decide (EnvResult.status res = "ok") then
    modify (λ s, setConfig (SetupConfig.with_env (EnvResult.env res) (AppState.config s)) s);;
    modify (setCurve []);;
    loadState
  else mret tt.

Definition handleClearMap : M unit :=
  modify (setIsRunning false);;
  ws_call WSClient.pause;;
  res ← await ReqClearMap;
  if decide (EnvResult.status res = "ok") then
    modify (λ s, setConfig (SetupConfig.with_env (EnvResult.env res) (AppState.config s)) s);;
    modify (setCurve []);;
    loadState
  else mret tt.

Definition handlePlay : M unit :=
  modify (setIsRunning true);;
  ws_call WSClient.play.

Definition handlePause : M unit :=
  modify (setIsRunning false);;
  ws_call WSClient.pause;;
  fetchPath.

Definition handleSpeedChange (newSpeed : Z) : M unit :=
  modify (setSpeed newSpeed);;
  ws_call (WSClient.setSpeed newSpeed).

(** The updater passed to [setCurve] returns [prev] on both paths, so the
    curve is left as it is. *)
Definition handleStep : M unit :=
  res ← await ReqStep;
  (if decide (StepResult.status res = "terminal" ∨ StepResult.status res = "reset")
   then modify (λ s, setCurve (curve s) s);; fetchPath
   else mret tt);;
  loadState.

Definition handleSyncMap : M unit :=
  s ← get;
  match state s with
  | None => mret tt
  | Some _ => _ ← await (ReqSetup (config s)); loadState
  end.

(** [setCurve(prev => [...prev.slice(-100), ...res.curve])] *)
Definition curve_after_turbo (prev batch : list LearningCurvePoint.t)
  : list LearningCurvePoint.t :=
  slice_last 100 prev ++ batch.

Definition handleTurbo (count : Z) : M unit :=
  s ← get;
  let config := config s in
  modify (setIsRunning false);;
  ws_call WSClient.pause;;
  _ ← await (ReqUpdateConfig config);
  res ← await (ReqTurbo count);
  if decide (TurboResult.status res = "done") then
    modify (λ s, setCurve (curve_after_turbo (curve s) (TurboResult.curve res)) s);;
    loadState
  else mret tt.

(** *** onMessageRef.current *)

(** [Object.assign(qTableRef.current, data.q_delta)], or the wholesale
    replacement by [data.q_table]. [Object.assign] writes into the object
    the reference holds; the state installed right after reads the table
    through the same reference, so both see the merged table. An object,
    even an empty one, is truthy: a present [q_delta] always wins over
    [q_table]. *)
Definition merge_q (data : UpdateMsg.t) (old : QTable) : QTable :=
  match UpdateMsg.q_delta data with
  | Some delta => delta ∪ old
  | None =>
      match UpdateMsg.q_table data with
      | Some full => full
      | None => old
      end
  end.

(** [prev.update_version ? prev.update_version + 1 : 1] *)
Definition next_version (v : option Z) : Z :=
  match v with
  | Some n => if decide (n = 0%Z) then 1%Z else (n + 1)%Z
  | None => 1%Z
  end.

(** The first [setState] updater of the [update] branch. *)
Definition apply_tick (data : UpdateMsg.t) (q : QTable)
    (prev : SimulationState.t) : SimulationState.t :=
  SimulationState.mk
    (SimulationState.env prev)
    (UpdateMsg.agent_pos data)
    q
    (UpdateMsg.episode data)
    (UpdateMsg.steps data)
    (UpdateMsg.total_reward data)
    (UpdateMsg.epsilon data)
    (Some (next_version (SimulationState.update_version prev))).

(** [{ ...prev, env: { ...prev.env, cells: c } }] *)
Definition with_env_cells (c : Cells) (prev : SimulationState.t)
  : SimulationState.t :=
  SimulationState.mk
    (GridState.mk (GridState.width (SimulationState.env prev))
                  (GridState.height (SimulationState.env prev)) c)
    (SimulationState.agent_pos prev)
    (SimulationState.q_table prev)
    (SimulationState.episode prev)
    (SimulationState.steps prev)
    (SimulationState.total_reward prev)
    (SimulationState.epsilon prev)
    (SimulationState.update_version prev).

(** The [grid_update] updater: copy the outer array, copy row [y] (the
    spread throws when there is no such row), write [empty] at [x]. It
    runs in the render, see [in_render]. *)
Definition revert_cell (x y : nat) (cells : Cells) : option Cells :=
  row ← cells !! y;
  Some (<[y := js_write row x "empty"]> cells).

Definition apply_grid_update (pos : AgentPos.t) : M unit :=
  s ← get;
  match state s with
  | None => mret tt
  | Some prev =>
      match revert_cell (AgentPos.x pos) (AgentPos.y pos)
              (GridState.cells (SimulationState.env prev)) with
      | Some newCells => modify (setState (Some (with_env_cells newCells prev)))
      | None => throw
      end
  end.

(** [setState(prev => prev ? { ...prev, env: {...prev.env, cells: c} } : null)] *)
Definition override_cells (c : Cells) : M unit :=
  modify (λ s, setState (with_env_cells c <$> state s) s).

(** [setCurve(prev => [...prev, newPoint].slice(-200))] *)
Definition curve_after_episode (prev : list LearningCurvePoint.t)
    (newPoint : LearningCurvePoint.t) : list LearningCurvePoint.t :=
  slice_last 200 (prev ++ [newPoint]).

(** The handler, followed by the render of what it queued. In the
    [update] branch the handler itself only writes the table reference,
    queues the updaters and, when an episode ended, calls [fetchPath()];
    it always returns. The updaters then run in the render. When the
    [grid_update] updater throws there, the outcome is [Thrown]: React
    removes the App. The world returned in that case holds the hooks as
    they were last rendered, the reference as the handler wrote it and
    the request the handler made. (What unmounting does next, the cleanup
    of the effects, is not part of the handler.) *)
Definition onMessage (data : Msg) : M unit :=
  match data with
  | MsgUpdate data =>
      s0 ← get;
      let config := config s0 in
      modify (λ s, set_qTableRef (merge_q data (qTableRef s)) s);;
      rendered ← in_render (
        modify (λ s, setState (apply_tick data (qTableRef s) <$> state s) s);;
        match UpdateMsg.grid_update data with
        | Some pos => apply_grid_update pos
        | None => mret tt
        end;;
        match UpdateMsg.respawn_bonuses data, SetupConfig.cells config with
        | true, Some c => override_cells c
        | _, _ => mret tt
        end;;
        match UpdateMsg.full_grid data with
        | Some c => override_cells c
        | None => mret tt
        end;;
        if UpdateMsg.episode_done data then
          let newPoint :=
            LearningCurvePoint.mk (UpdateMsg.episode data)
              (UpdateMsg.episode_reward data) (UpdateMsg.steps data) in
          modify (λ s, setCurve (curve_after_episode (curve s) newPoint) s)
        else mret tt);
      if (rendered : bool) then
        if UpdateMsg.episode_done data then fetchPath else mret tt
      else
        (if UpdateMsg.episode_done data then fetchPath_unmounted else mret tt);;
        throw
  | MsgError message =>
      modify (setError (Some message));;
      modify (setIsRunning false)
  | MsgOther _ => mret tt
  end.

(** *** handleCellAction *)

(** [drawMode === 'bonus' ? `bonus:${bonusValue}` : drawMode]. The bonus
    value is an integer-valued number ([parseInt(...) || 0]); the template
    prints it as [Double.text] does. *)
Definition targetCellValue (drawMode : CellType) (bonusValue : Z) : string :=
  match drawMode with
  | bonus => "bonus:" +:+ Double.text bonusValue
  | _ => CellType_str drawMode
  end.

(** [a || b] on two numbers. *)
Definition or_num (a b : nat) : nat := if decide (a = 0) then b else a.

(** The inner loop, on one row:
    [for (rx = 0; rx < W; rx++) if (row[rx] === mode) row[rx] = 'empty']. *)
Definition clear_row (mode : string) (W : nat) (row : Row) : Row :=
  foldl (λ r rx, if decide (js_read r rx = Some mode)
                 then js_write r rx "empty" else r)
        row (seq 0 W).

(** The outer loop over [ry = 0 .. H-1]. Row [ry] is only touched when the
    inner loop runs at all ([W > 0]); touching a missing row throws. *)
Definition clear_mode (mode : string) (W H : nat) (cells : Cells) : option Cells :=
  foldl (λ acc ry,
           cs ← acc;
           if decide (W = 0) then Some cs
           else row ← cs !! ry; Some (<[ry := clear_row mode W row]> cs))
        (Some cells) (seq 0 H).

(** The grid computed by an edit that gets past the two early returns:
    [None] when an exception is thrown, [Some None] when the cell already
    holds the brush value (third early return), [Some (Some g)] for the
    new grid. *)
Definition painted (s : AppState.t) (st : SimulationState.t) (x y : nat)
  : option (option Cells) :=
  let newCells :=
    match SetupConfig.cells (config s) with
    | Some c => c
    | None => GridState.cells (SimulationState.env st)
    end in
  let v := targetCellValue (drawMode s) (bonusValue s) in
  row ← newCells !! y;
  if decide (js_read row x = Some v) then Some None
  else
    cleared ←
      match drawMode s with
      | start | target =>
          clear_mode (CellType_str (drawMode s))
            (or_num (SetupConfig.width (config s))
                    (GridState.width (SimulationState.env st)))
            (or_num (SetupConfig.height (config s))
                    (GridState.height (SimulationState.env st)))
            newCells
      | _ => Some newCells
      end;
    row' ← cleared !! y;
    Some (Some (<[y := js_write row' x v]> cleared)).

Definition handleCellAction (x y : nat) (isDrag : bool) : M unit :=
  s ← get;
  match state s with
  | None => mret tt
  | Some st =>
      if isRunning s then mret tt
      else
        match painted s st x y with
        | None => throw
        | Some None => mret tt
        | Some (Some newCells) =>
            let newConfig := SetupConfig.with_cells newCells (config s) in
            modify (setConfig newConfig);;
            if isDrag then mret tt
            else try_catch (_ ← await (ReqSetup newConfig); loadState)
        end
  end.
End App.

(* ===================================================================== *)
(** ** Exploration-rate decay (training engine)                           *)
(* ===================================================================== *)

Module Agent.
(** Modelled from the spec: the training engine (the tabular agent and
    its per-episode epsilon update) is not part of the client sources.
    The spec's rule is: after each completed episode,
    epsilon = max(min_epsilon, epsilon * epsilon_decay). *)
Definition decay_epsilon (min_epsilon epsilon_decay epsilon : Q) : Q :=
  Qmax min_epsilon (epsilon * epsilon_decay).


End Agent.

(* ===================================================================== *)
(** ** Concrete data used by the examples                                 *)
(* ===================================================================== *)

Module Examples.
(** [DEFAULT_CONFIG] of the App component. *)
Definition DEFAULT_CONFIG : SetupConfig.t :=
  SetupConfig.mk 15 15 None 0.1 0.9 0.2 0.995 0.01 Q_LEARNING (-1.0)
    MINIMIZE_STEPS None.

(** The hooks' initial values. *)
Definition initial : AppState.t :=
  AppState.mk DEFAULT_CONFIG None [] false 100 None wall 20 [] ∅
    (WSClient.mk None false).

Definition closed_socket : WSClient.t :=
  WSClient.mk (Some (WebSocket.mk CLOSED [])) true.
Definition connecting_socket : WSClient.t :=
  WSClient.mk (Some (WebSocket.mk CONNECTING [])) true.
Definition open_socket : WSClient.t :=
  WSClient.mk (Some (WebSocket.mk OPEN [])) true.

(** A server that rejects every request. *)
Definition offline : Server := λ _ _, None.

(** A 3 x 3 grid: start in the top-left corner, target in the
    bottom-right one, a wall in the middle. *)
Definition grid3 : Cells :=
  [ [Some "start"; Some "empty"; Some "empty"];
    [Some "empty"; Some "wall";  Some "empty"];
    [Some "empty"; Some "empty"; Some "target"] ].

Definition sim3 : SimulationState.t :=
  SimulationState.mk (GridState.mk 3 3 grid3) (AgentPos.mk 0 0) ∅ 0 0 0 0.2 None.

Definition config3 : SetupConfig.t :=
  SetupConfig.mk 3 3 None 0.1 0.9 0.2 0.995 0.01 Q_LEARNING (-1.0)
    MINIMIZE_STEPS None.

(** The client after the 3 x 3 world was set up and loaded. *)
Definition loaded3 : AppState.t :=
  AppState.mk config3 (Some sim3) [] false 100 None wall 20 [] ∅ open_socket.

(** The same client while auto-play is on. *)
Definition running3 : AppState.t := AppState.setIsRunning true loaded3.

(** The same world with a bonus of 20 in the middle instead of the
    wall. *)
Definition gridB : Cells :=
  [ [Some "start"; Some "empty"; Some "empty"];
    [Some "empty"; Some "bonus:20"; Some "empty"];
    [Some "empty"; Some "empty"; Some "target"] ].

Definition simB : SimulationState.t :=
  SimulationState.mk (GridState.mk 3 3 gridB) (AgentPos.mk 1 0) ∅ 0 3 (-3) 0.2 None.

Definition loadedB : AppState.t :=
  AppState.mk config3 (Some simB) [] true 100 None wall 20 [] ∅ open_socket.

(** A tick on which the agent collected the bonus at (1,1). *)
Definition tick_collect : UpdateMsg.t :=
  UpdateMsg.mk (AgentPos.mk 1 1) None None 0 4 16 0.2
    (Some (AgentPos.mk 1 1)) false None false 0.

(** The same tick when the server also sends its whole grid, on which
    the bonuses have been put back. *)
Definition tick_collect_respawn : UpdateMsg.t :=
  UpdateMsg.mk (AgentPos.mk 1 1) None None 0 4 16 0.2
    (Some (AgentPos.mk 1 1)) false (Some gridB) false 0.

Definition point (n : nat) : LearningCurvePoint.t :=
  LearningCurvePoint.mk (Z.of_nat n) 0 1.

(** A server that acknowledges a configuration push and answers a turbo
    request with the given batch; it rejects everything else. *)
Definition turbo_server (batch : list LearningCurvePoint.t) : Server :=
  λ _ r,
    match r return option (Resp r) with
    | ReqUpdateConfig _ => Some tt
    | ReqTurbo _ => Some (TurboResult.mk "done" batch (GridState.mk 3 3 grid3))
    | _ => None
    end.

(** The state the server holds after some training: its table has an
    entry for cell (0,0). *)
Definition trained_table : QTable :=
  {[ "0,0" := ActionValues.mk 0 0 0 (-0.5) ]}.

Definition sim_trained : SimulationState.t :=
  SimulationState.mk (GridState.mk 3 3 grid3) (AgentPos.mk 1 0) trained_table
    0 1 (-1) 0.2 None.

(** A server that answers the state poll with that state and rejects
    everything else. *)
Definition trained_server : Server :=
  λ _ r,
    match r return option (Resp r) with
    | ReqGetState => Some sim_trained
    | _ => None
    end.

(** The next tick of auto-play: a delta for cell (1,0) only. *)
Definition delta10 : QTable :=
  {[ "1,0" := ActionValues.mk 0 0 0 (-0.5) ]}.

Definition tick_delta : UpdateMsg.t :=
  UpdateMsg.mk (AgentPos.mk 2 0) (Some delta10) None 0 2 (-2) 0.2
    None false None false 0.
End Examples.

(* ===================================================================== *)
(** ** Vocabulary of the statements                                       *)
(* ===================================================================== *)

(** The socket is closed, closing, connecting or absent. *)
Definition not_open (c : WSClient.t) : Prop :=
  match WSClient.ws c with
  | Some s => WebSocket.readyState s ≠ OPEN
  | None => True
  end.

(** The longest curve the client retains: the 100 points a turbo run keeps
    plus the batch of the 1000 episodes it asks for, the only count the
    client passes to [handleTurbo]. *)
Definition curve_bound : nat := 100 + 1000.

(** The server returns at most one curve point per episode of a turbo
    request. *)
Definition batch_within (srv : Server) (count : Z) : Prop :=
  ∀ history res,
    srv history (ReqTurbo count) = Some res →
    length (TurboResult.curve res) ≤ Z.to_nat count.

(** The request an event is about. *)
Definition req_of (e : Event) : Req :=
  match e with Requested r | Settled r _ => r end.

(** A log that only reads from the server: state and path polls. *)
Definition is_poll (e : Event) : Prop :=
  req_of e = ReqGetState ∨ req_of e = ReqGetPath.
Definition polls_only (l : list Event) : Prop := Forall is_poll l.

(** Everything but the displayed path is the same in both states. *)
Definition keeps_all_but_path (s s' : AppState.t) : Prop :=
  AppState.config s' = AppState.config s
  ∧ AppState.state s' = AppState.state s
  ∧ AppState.curve s' = AppState.curve s
  ∧ AppState.isRunning s' = AppState.isRunning s
  ∧ AppState.speed s' = AppState.speed s
  ∧ AppState.error s' = AppState.error s
  ∧ AppState.drawMode s' = AppState.drawMode s
  ∧ AppState.bonusValue s' = AppState.bonusValue s
  ∧ AppState.qTableRef s' = AppState.qTableRef s
  ∧ AppState.wsClient s' = AppState.wsClient s.

(** Everything but the simulation state and the displayed path is the
    same in both states. *)
Definition keeps_all_but_view (s s' : AppState.t) : Prop :=
  AppState.config s' = AppState.config s
  ∧ AppState.curve s' = AppState.curve s
  ∧ AppState.isRunning s' = AppState.isRunning s
  ∧ AppState.speed s' = AppState.speed s
  ∧ AppState.error s' = AppState.error s
  ∧ AppState.drawMode s' = AppState.drawMode s
  ∧ AppState.bonusValue s' = AppState.bonusValue s
  ∧ AppState.qTableRef s' = AppState.qTableRef s
  ∧ AppState.wsClient s' = AppState.wsClient s.

(** The server's answer to request [r] issued after [history]. *)
Definition answer (srv : Server) (history : list Event) (r : Req) : option (Resp r) :=
  srv (history ++ [Requested r]) r.

(** The slot at column [x] of row [y], when the grid has one. *)
Definition cell_at (cells : Cells) (x y : nat) : option Slot :=
  row ← cells !! y; row !! x.

(** How many slots of a row, or of a grid, hold the string [v]. *)
Definition count_row (v : string) (row : Row) : nat :=
  length (filter (λ c, c = Some v) row).
Definition count_cell (v : string) (cells : Cells) : nat :=
  sum_list (count_row v <$> cells).
Global Arguments count_row : simpl never.
Global Arguments count_cell : simpl never.

(** [H] rows of [W] slots each. *)
Definition rectangular (W H : nat) (cells : Cells) : Prop :=
  length cells = H ∧ Forall (λ row : Row, length row = W) cells.

(** The grid a cell edit starts from, and the bounds of its clearing
    loops: the expressions [handleCellAction] evaluates. *)
Definition editor_grid (s : AppState.t) (st : SimulationState.t) : Cells :=
  match SetupConfig.cells (AppState.config s) with
  | Some c => c
  | None => GridState.cells (SimulationState.env st)
  end.
Definition editor_width (s : AppState.t) (st : SimulationState.t) : nat :=
  App.or_num (SetupConfig.width (AppState.config s))
    (GridState.width (SimulationState.env st)).
Definition editor_height (s : AppState.t) (st : SimulationState.t) : nat :=
  App.or_num (SetupConfig.height (AppState.config s))
    (GridState.height (SimulationState.env st)).

(** What the clearing loops do to one slot. *)
Definition unmark (mode : string) (c : Slot) : Slot :=
  if decide (c = Some mode) then Some "empty" else c.

(** 1 when the slot holds [v], else 0. *)
Definition holds (v : string) (c : Slot) : nat :=
  if decide (c = Some v) then 1 else 0.

(* ===================================================================== *)
(** ** components/ControlPanel.tsx: the allowed-actions checkboxes        *)
(* ===================================================================== *)

Global Instance Action_eq_dec : EqDecision Action.
Proof. solve_decision. Defined.

Module ControlPanel.
(** [Object.values(Action)] *)
Definition all_actions : list Action := [UP; DOWN; LEFT; RIGHT].

(** [!config.allowed_actions || config.allowed_actions.includes(action)]:
    an absent list allows everything; a present list, even an empty one,
    is truthy and is searched. *)
Definition isAllowed (config : SetupConfig.t) (action : Action) : bool :=
  match SetupConfig.allowed_actions config with
  | None => true
  | Some l => bool_decide (action ∈ l)
  end.

(** [handleChange('allowed_actions', next)], that is
    [onConfigChange({ ...config, allowed_actions: next })]. *)
Definition with_allowed_actions (next : list Action) (g : SetupConfig.t)
  : SetupConfig.t :=
  SetupConfig.mk (SetupConfig.width g) (SetupConfig.height g) (SetupConfig.cells g)
    (SetupConfig.alpha g) (SetupConfig.gamma g) (SetupConfig.epsilon g)
    (SetupConfig.epsilon_decay g) (SetupConfig.min_epsilon g)
    (SetupConfig.algorithm g) (SetupConfig.step_penalty g)
    (SetupConfig.strategy g) (Some next).

(** The [onChange] of the checkbox of [action]; [checked] is the new state
    of the box. The result is the configuration the parent holds
    afterwards: the one passed to [onConfigChange], or the old one when the
    handler does not call it. *)
Definition onToggle (config : SetupConfig.t) (action : Action) (checked : bool)
  : SetupConfig.t :=
  let current := default all_actions (SetupConfig.allowed_actions config) in
  let next :=
    if checked then current ++ [action]
    else filter (λ a, a ≠ action) current in
  if decide (0 < length next) then with_allowed_actions next config else config.
End ControlPanel.

(* ===================================================================== *)
(** ** components/CanvasGrid.tsx: cells, keys, overlay and pointer        *)
(* ===================================================================== *)

Module Canvas.
Import Stdlib.Strings.Ascii.

(** [cells[y]?.[x] || 'empty']: a missing row, a missing or empty slot all
    read as [empty]. *)
Definition cell_str (cells : Cells) (x y : nat) : string :=
  match cells !! y with
  | Some row =>
      match js_read row x with
      | Some s => if decide (s = "") then "empty" else s
      | None => "empty"
      end
  | None => "empty"
  end.

(** [cell_str.startsWith('bonus') ? 'bonus' : cell_str] *)
Definition cType (cell_str : string) : string :=
  if String.prefix "bonus" cell_str then "bonus" else cell_str.

(** [s.includes(':')] *)
Fixpoint includes_colon (s : string) : bool :=
  match s with
  | EmptyString => false
  | String c s' => if Ascii.eqb c ":"%char then true else includes_colon s'
  end.

(** The text of [s] up to its first colon (all of it when it has none). *)
Fixpoint upto_colon (s : string) : string :=
  match s with
  | EmptyString => EmptyString
  | String c s' => if Ascii.eqb c ":"%char then EmptyString else String c (upto_colon s')
  end.

(** The text of [s] after its first colon ([None] when it has none). *)
Fixpoint after_colon (s : string) : option string :=
  match s with
  | EmptyString => None
  | String c s' => if Ascii.eqb c ":"%char then Some s' else after_colon s'
  end.

(** [s.split(':')[1]]: the piece between the first colon and the next one;
    [None] is [undefined], when there is no colon. *)
Definition split_colon_1 (s : string) : option string :=
  upto_colon <$> after_colon s.

(** The value printed under a bonus cell:
    [cell_str.includes(':') ? cell_str.split(':')[1] : '20']. *)
Definition bonus_label (cell_str : string) : option string :=
  if includes_colon cell_str then split_colon_1 cell_str else Some "20".

(** [`${x},${y}`], the key of a cell in the action-value table. *)
Definition stateKey (x y : nat) : string :=
  pretty x +:+ "," +:+ pretty y.

(** [Math.min(q_u, q_d, q_l, q_r)] on the values after [|| 0]. *)
Definition minQ (qVals : ActionValues.t) : Q :=
  let q_u := CanvasGrid.or0 (ActionValues.vUP qVals) in
  let q_d := CanvasGrid.or0 (ActionValues.vDOWN qVals) in
  let q_l := CanvasGrid.or0 (ActionValues.vLEFT qVals) in
  let q_r := CanvasGrid.or0 (ActionValues.vRIGHT qVals) in
  Qmin (Qmin (Qmin q_u q_d) q_l) q_r.

(** [v !== 0] *)
Definition nonzero (v : Q) : bool := negb (Qeq_bool v 0).

(** [maxQ !== 0 || minQ !== 0 || Object.values(qVals).some(v => v !== 0)] *)
Definition active (qVals : ActionValues.t) : bool :=
  nonzero (CanvasGrid.maxQ qVals)
  || nonzero (minQ qVals)
  || existsb nonzero
       [ActionValues.vUP qVals; ActionValues.vDOWN qVals;
        ActionValues.vLEFT qVals; ActionValues.vRIGHT qVals].

(** What the value loop of [drawAll] looks up for a cell: nothing unless
    the cell is of type [empty] and the table has an entry under its key. *)
Definition drawn_values (cells : Cells) (qTable : QTable) (x y : nat)
  : option ActionValues.t :=
  if decide (cType (cell_str cells x y) = "empty") then qTable !! stateKey x y
  else None.

Inductive Tint := Green | Red.

(** [Math.min(a, b)] *)
Definition js_min (a b : Q) : Q := Qmin a b.

(** The rectangle painted over an active cell when the heat map is not
    the smooth one: its tint and its alpha; [None] when nothing is
    painted. *)
Definition overlay (showHeatmap smoothHeatmap showMinima : bool)
    (qVals : ActionValues.t) : option (Tint * Q) :=
  let maxQ := CanvasGrid.maxQ qVals in
  let minQ := minQ qVals in
  if showHeatmap && negb smoothHeatmap then
    let alpha := js_min (Qabs maxQ / 100) 0.8 in
    if Qlt_le_dec 0 maxQ then Some (Green, alpha)
    else if showMinima && (if Qlt_le_dec minQ 0 then true else false)
    then Some (Red, js_min (Qabs minQ / 100) 0.8)
    else Some (Red, alpha)
  else if showMinima && negb smoothHeatmap
          && (if Qlt_le_dec minQ (-5) then true else false)
  then Some (Red, js_min (Qabs minQ / 100) 0.4)
  else None.

(** [canvas.getBoundingClientRect()] *)
Record Rect := mkRect {
  left : Double.t; top : Double.t; rwidth : Double.t; rheight : Double.t
}.

(** One coordinate of [handleMouseEvent]:
    [Math.floor((client - origin) / (extent / n))] followed by the range
    test [x >= 0 && x < n], in the arithmetic of JS numbers. An infinity
    or NaN fails the range test. Because every operation rounds, a point
    close to the boundary of two cells can fall into the neighbouring
    cell. *)
Definition cell_index (client origin extent : Double.t) (n : nat) : option nat :=
  let size := Double.div extent (Double.of_nat n) in
  match Double.floor (Double.div (Double.sub client origin) size) with
  | Some i => if decide (0 ≤ i < Z.of_nat n)%Z then Some (Z.to_nat i) else None
  | None => None
  end.

Inductive MouseKind := click | drag.

Inductive Callback :=
| onCellClick (x y : nat)
| onCellDrag (x y : nat).

(** [handleMouseEvent(e, type)] for a mounted canvas: the callback it
    invokes, if any. *)
Definition handleMouseEvent (width height : nat) (rect : Rect) (isDragging : bool)
    (clientX clientY : Double.t) (type : MouseKind) : option Callback :=
  match cell_index clientX (left rect) (rwidth rect) width,
        cell_index clientY (top rect) (rheight rect) height with
  | Some x, Some y =>
      match type with
      | click => Some (onCellClick x y)
      | drag => if isDragging then Some (onCellDrag x y) else None
      end
  | _, _ => None
  end.
End Canvas.

(* ===================================================================== *)
(** ** api.ts: connecting, reconnecting and disconnecting                 *)
(* ===================================================================== *)

Module Link.
(** The client together with what [connect] installs around it: whether
    the current socket has its [onclose] handler, and how many reconnect
    timers ([setTimeout(() => this.connect(onMessage), 1000)]) are
    waiting. *)
Record t := mk { client : WSClient.t; onclose : bool; timers : nat }.

(** [new WSClient()] *)
Definition fresh : t := mk (WSClient.mk None false) false 0.

(** [connect(onMessage)]: the callback is stored and a new socket, still
    connecting, replaces the old one and gets the handlers. *)
Definition connect (l : t) : t :=
  mk (WSClient.mk (Some (WebSocket.mk CONNECTING [])) true) true (timers l).

(** [ws.close()]: a socket that is connecting or open starts closing; a
    closing or closed one is left alone. *)
Definition close (s : WebSocket.t) : WebSocket.t :=
  match WebSocket.readyState s with
  | CONNECTING | OPEN => WebSocket.mk CLOSING (WebSocket.outbox s)
  | CLOSING | CLOSED => s
  end.

(** [disconnect()]: [if (this.ws) { this.ws.onclose = null; this.ws.close(); }] *)
Definition disconnect (l : t) : t :=
  match WSClient.ws (client l) with
  | Some s => mk (WSClient.mk (Some (close s)) (WSClient.onMessageCb (client l)))
                false (timers l)
  | None => l
  end.

(** What can happen to the link: the browser opens the current socket,
    starts closing it (the closing handshake begun by the server, or a
    failure of the connection) or has closed it, a reconnect timer fires,
    or the application calls a method. *)
Inductive Ev :=
| SocketOpens
| SocketClosing
| SocketCloses
| TimerFires
| CallConnect
| CallDisconnect
| CallPlay
| CallPause
| CallSetSpeed (speed : Z).

Definition set_readyState (r : ReadyState) (l : t) : t :=
  match WSClient.ws (client l) with
  | Some s => mk (WSClient.mk (Some (WebSocket.mk r (WebSocket.outbox s)))
                    (WSClient.onMessageCb (client l)))
                (onclose l) (timers l)
  | None => l
  end.

Definition current_state (l : t) : option ReadyState :=
  WebSocket.readyState <$> WSClient.ws (client l).

Definition step (e : Ev) (l : t) : t :=
  match e with
  | SocketOpens =>
      if decide (current_state l = Some CONNECTING) then set_readyState OPEN l else l
  | SocketClosing =>
      (* [readyState] becomes CLOSING; no event is dispatched yet *)
      match current_state l with
      | Some CONNECTING | Some OPEN => set_readyState CLOSING l
      | _ => l
      end
  | SocketCloses =>
      (* the close event of a socket fires once; [onclose] schedules the
         reconnect *)
      match current_state l with
      | Some CLOSED | None => l
      | Some _ =>
          let l' := set_readyState CLOSED l in
          if onclose l then mk (client l') (onclose l') (S (timers l')) else l'
      end
  | TimerFires =>
      match timers l with
      | O => l
      | S n => connect (mk (client l) (onclose l) n)
      end
  | CallConnect => connect l
  | CallDisconnect => disconnect l
  | CallPlay => mk (WSClient.play (client l)) (onclose l) (timers l)
  | CallPause => mk (WSClient.pause (client l)) (onclose l) (timers l)
  | CallSetSpeed v => mk (WSClient.setSpeed v (client l)) (onclose l) (timers l)
  end.

(** The events in the order they happen. *)
Definition run (es : list Ev) (l : t) : t := foldl (λ l e, step e l) l es.
End Link.

(* ===================================================================== *)
(** ** The App component: keyboard and canvas wiring                      *)
(* ===================================================================== *)

(** A call to an [async] handler whose promise is dropped: the caller goes
    on whatever becomes of it. *)
Definition spawn (m : M unit) : M unit := λ srv w,
  match m srv w with
  | (_, w') => (Done tt, w')
  end.

Module KeyboardEvent.
(** The fields of the event the handlers read; [tagName] is that of
    [e.target]. *)
Record t := mk {
  key : string;
  ctrlKey : bool;
  shiftKey : bool;
  repeat : bool;
  tagName : string
}.
End KeyboardEvent.

Module Keys.
Import AppState.

(** [['INPUT', 'SELECT', 'TEXTAREA'].includes(e.target.tagName)] *)
Definition isInput (e : KeyboardEvent.t) : bool :=
  bool_decide (KeyboardEvent.tagName e ∈ ["INPUT"; "SELECT"; "TEXTAREA"]).

(** [handleKeyDown]. The F1 and F11 branches only touch the view state
    (hidden interface, full screen), which the component state here leaves
    out. [lastSpeed] is the content of the ref of that name; the result is
    its content afterwards. *)
Definition handleKeyDown (e : KeyboardEvent.t) (lastSpeed : Z) : M Z :=
  if isInput e then mret lastSpeed
  else
    (if decide (KeyboardEvent.key e = " ") then
       s ← get;
       if isRunning s then App.handlePause else App.handlePlay
     else mret tt);;
    (if decide (KeyboardEvent.key e = "ArrowRight") then
       s ← get;
       if isRunning s then mret tt else spawn App.handleStep
     else mret tt);;
    lastSpeed' ←
      (if decide (KeyboardEvent.key e = "Shift") then
         if KeyboardEvent.repeat e then mret lastSpeed
         else
           s ← get;
           App.handleSpeedChange 0;;
           mret (speed s)
       else mret lastSpeed);
    (if bool_decide (KeyboardEvent.key e = "Enter")
        && KeyboardEvent.ctrlKey e && KeyboardEvent.shiftKey e
     then spawn (App.handleTurbo 1000)
     else mret tt);;
    mret lastSpeed'.

(** [handleKeyUp] *)
Definition handleKeyUp (e : KeyboardEvent.t) (lastSpeed : Z) : M unit :=
  if decide (KeyboardEvent.key e = "Shift") then App.handleSpeedChange lastSpeed
  else mret tt.
End Keys.

Module Pointer.
Import AppState.

(** [onCellClick], [onCellDrag] as [App] passes them to the canvas. *)
Definition dispatch (cb : option Canvas.Callback) : M unit :=
  match cb with
  | Some (Canvas.onCellClick x y) => spawn (App.handleCellAction x y false)
  | Some (Canvas.onCellDrag x y) => spawn (App.handleCellAction x y true)
  | None => mret tt
  end.

(** The canvas is rendered with [width = state.env.width] and
    [height = state.env.height], and only once a state is loaded. *)
Definition mouseEvent (rect : Canvas.Rect) (isDragging : bool)
    (clientX clientY : Double.t) (type : Canvas.MouseKind) : M unit :=
  s ← get;
  match state s with
  | None => mret tt
  | Some st =>
      dispatch (Canvas.handleMouseEvent
                  (GridState.width (SimulationState.env st))
                  (GridState.height (SimulationState.env st))
                  rect isDragging clientX clientY type)
  end.

(** [onMouseDown]: [isDragging.current = true; handleMouseEvent(e, 'click')].
    The result is the content of [isDragging] afterwards. *)
Definition onMouseDown (rect : Canvas.Rect) (clientX clientY : Double.t) : M bool :=
  mouseEvent rect true clientX clientY Canvas.click;;
  mret true.

(** [onMouseMove]: [handleMouseEvent(e, 'drag')] *)
Definition onMouseMove (rect : Canvas.Rect) (isDragging : bool)
    (clientX clientY : Double.t) : M bool :=
  mouseEvent rect isDragging clientX clientY Canvas.drag;;
  mret isDragging.

(** [onMouseUp]: [isDragging.current = false; onDrawEnd?.()], where
    [onDrawEnd] is [handleSyncMap]. *)
Definition onMouseUp : M bool :=
  spawn App.handleSyncMap;;
  mret false.
End Pointer.

(* ===================================================================== *)
(** ** Vocabulary of the further statements                               *)
(* ===================================================================== *)

(** A decimal digit. *)
Definition is_digit (c : Ascii.ascii) : bool :=
  let n := Ascii.nat_of_ascii c in (48 <=? n) && (n <=? 57).

(** A string of decimal digits. *)
Fixpoint all_digits (s : string) : bool :=
  match s with
  | EmptyString => true
  | String c s' => is_digit c && all_digits s'
  end.

(** What an edit with the given brush does to a slot other than the one it
    paints: the start and target brushes turn earlier cells of their own
    kind into [empty]; the other brushes leave the rest alone. *)
Definition cleared_slot (mode : CellType) (c : Slot) : Slot :=
  match mode with
  | start | target => unmark (CellType_str mode) c
  | _ => c
  end.

(** The updaters of the [update] branch seen as a pipeline on the
    component state: the tick, the reverted cell, the grid overrides. The
    lemma [onMessage_update_stages] shows that a render that goes through
    shows exactly the result of this pipeline, and that the render fails
    exactly when the second stage does. *)
Definition tick_stage (data : UpdateMsg.t) (s : AppState.t) : AppState.t :=
  let q := App.merge_q data (AppState.qTableRef s) in
  AppState.setState (App.apply_tick data q <$> AppState.state s)
    (AppState.set_qTableRef q s).

Definition grid_stage (data : UpdateMsg.t) (s : AppState.t) : option AppState.t :=
  match UpdateMsg.grid_update data, AppState.state s with
  | Some pos, Some prev =>
      newCells ← App.revert_cell (AgentPos.x pos) (AgentPos.y pos)
                   (GridState.cells (SimulationState.env prev));
      Some (AppState.setState (Some (App.with_env_cells newCells prev)) s)
  | _, _ => Some s
  end.

Definition override_with (c : option Cells) (s : AppState.t) : AppState.t :=
  match c with
  | Some c => AppState.setState (App.with_env_cells c <$> AppState.state s) s
  | None => s
  end.

Definition override_stage (data : UpdateMsg.t) (config : SetupConfig.t)
    (s : AppState.t) : AppState.t :=
  override_with (UpdateMsg.full_grid data)
    (override_with (if UpdateMsg.respawn_bonuses data
                    then SetupConfig.cells config else None) s).

Definition newPoint (data : UpdateMsg.t) : LearningCurvePoint.t :=
  LearningCurvePoint.mk (UpdateMsg.episode data) (UpdateMsg.episode_reward data)
    (UpdateMsg.steps data).

(** The component state an [update] message leaves when its grid stage
    goes through, up to the path the handler may fetch afterwards. *)
Definition update_result (data : UpdateMsg.t) (s s2 : AppState.t) : AppState.t :=
  let s3 := override_stage data (AppState.config s) s2 in
  if UpdateMsg.episode_done data
  then AppState.setCurve (App.curve_after_episode (AppState.curve s3) (newPoint data)) s3
  else s3.

(** The controls of the client: everything a message from the server has
    no business changing. *)
Definition same_controls (s s' : AppState.t) : Prop :=
  AppState.config s' = AppState.config s
  ∧ AppState.isRunning s' = AppState.isRunning s
  ∧ AppState.speed s' = AppState.speed s
  ∧ AppState.error s' = AppState.error s
  ∧ AppState.drawMode s' = AppState.drawMode s
  ∧ AppState.bonusValue s' = AppState.bonusValue s
  ∧ AppState.wsClient s' = AppState.wsClient s.

(** What happens to the link while the application neither connects nor
    disconnects: the browser's socket events, the reconnect timer and the
    three commands. *)
Definition unattended (e : Link.Ev) : Prop :=
  e ≠ Link.CallConnect ∧ e ≠ Link.CallDisconnect.

(** The link is alive: the current socket has its [onclose] handler and is
    either connecting, open or closing with no reconnect pending, or
    closed with exactly one reconnect timer waiting. *)
Definition alive (l : Link.t) : Prop :=
  Link.onclose l = true
  ∧ match Link.current_state l with
    | Some CONNECTING | Some OPEN | Some CLOSING => Link.timers l = 0
    | Some CLOSED => Link.timers l = 1
    | None => False
    end.

(** The link is down for good: no socket that could open or carry a
    frame, no handler and no timer that could bring one back. *)
Definition shut (l : Link.t) : Prop :=
  Link.onclose l = false
  ∧ Link.timers l = 0
  ∧ Link.current_state l ≠ Some CONNECTING
  ∧ Link.current_state l ≠ Some OPEN.

(* ===================================================================== *)
(** * Properties                                                          *)
(* ===================================================================== *)

(* ===================================================================== *)
(** ** The embedding at work                                              *)
(* ===================================================================== *)

Example js_write_grows :
  js_write [Some "wall"] 3 "empty" = [Some "wall"; None; None; Some "empty"].
Proof. reflexivity. Qed.

Example js_read_hole : js_read [Some "wall"; None] 1 = None ∧ js_read [Some "wall"] 5 = None.
Proof. split; reflexivity. Qed.

Example slice_last_3 : slice_last 2 [1; 2; 3] = [2; 3] ∧ slice_last 5 [1; 2; 3] = [1; 2; 3].
Proof. split; reflexivity. Qed.

Example bonus_brush_value : App.targetCellValue bonus 20 = "bonus:20".
Proof. reflexivity. Qed.

(** Large amounts are printed the way JS prints large numbers. *)
Example bonus_brush_value_large :
  App.targetCellValue bonus (10 ^ 21) = "bonus:1e+21"
  ∧ App.targetCellValue bonus (2 ^ 60) = "bonus:1152921504606847000"
  ∧ App.targetCellValue bonus (2 ^ 70) = "bonus:1.1805916207174113e+21".
Proof. split; [|split]; by vm_compute. Qed.

(** On a canvas 352 pixels wide that shows 20 columns, the pointer at 264
    pixels lies on the left edge of column 15 (264 = 15 * 17.6); the
    rounded quotient is just below 15 and the canvas reports column 14.
    A point inside a column is reported as that column. *)
Example cell_index_at_a_boundary :
  Canvas.cell_index (Double.of_Z 264) (Double.of_Z 0) (Double.of_Z 352) 20 = Some 14
  ∧ Canvas.cell_index (Double.of_Z 130) (Double.of_Z 100) (Double.of_Z 300) 15
    = Some 1
  ∧ Canvas.cell_index (Double.of_Z 99) (Double.of_Z 100) (Double.of_Z 300) 15 = None
  ∧ Canvas.cell_index (Double.of_Z 130) (Double.of_Z 100) (Double.of_Z 300) 0 = None.
Proof. repeat split; by vm_compute. Qed.

(** A [grid_update] for a row the grid does not have: the handler still
    polls the path of the closed episode, the render fails, and nothing of
    the message is shown. *)
Example update_with_missing_row :
  App.onMessage
    (MsgUpdate (UpdateMsg.mk (AgentPos.mk 1 1) None None 1 7 0 0.2
                  (Some (AgentPos.mk 1 5)) false None true 93))
    Examples.offline (World.mk Examples.loaded3 [])
  = (Thrown,
     World.mk Examples.loaded3
       [Requested ReqGetPath; Settled ReqGetPath false]).
Proof. reflexivity. Qed.

(** DOWN and LEFT tie for the maximum: the arrow points down. *)
Example best_tie :
  CanvasGrid.best (ActionValues.mk 1 3 3 0) = Some DOWN.
Proof. reflexivity. Qed.

(** All four values are zero: the arrow points up. *)
Example best_all_zero :
  CanvasGrid.best (ActionValues.mk 0 0 0 0) = Some UP.
Proof. reflexivity. Qed.

(** The clearing loops run over the configured size: on a grid with fewer
    rows the access to the missing row throws. *)
Example clear_mode_missing_row :
  App.clear_mode "start" 3 4 Examples.grid3 = None.
Proof. reflexivity. Qed.

Example clear_mode_grid3 :
  App.clear_mode "start" 3 3 Examples.grid3
  = Some [ [Some "empty"; Some "empty"; Some "empty"];
           [Some "empty"; Some "wall";  Some "empty"];
           [Some "empty"; Some "empty"; Some "target"] ].
Proof. reflexivity. Qed.

(** Moving the start with the start brush: the old start is cleared. *)
Example move_start :
  App.painted (AppState.mk Examples.config3 (Some Examples.sim3) [] false 100
                 None start 20 [] ∅ Examples.open_socket) Examples.sim3 2 0
  = Some (Some [ [Some "empty"; Some "empty"; Some "start"];
                 [Some "empty"; Some "wall";  Some "empty"];
                 [Some "empty"; Some "empty"; Some "target"] ]).
Proof. reflexivity. Qed.

(** A turbo run against a server that is down: the configuration push is
    rejected and nothing else is sent. *)
Example turbo_offline :
  run (App.handleTurbo 1000) Examples.offline Examples.initial
  = (Thrown,
     World.mk (AppState.set_wsClient (WSClient.mk None false)
                 (AppState.setIsRunning false Examples.initial))
       [Requested (ReqUpdateConfig Examples.DEFAULT_CONFIG);
        Settled (ReqUpdateConfig Examples.DEFAULT_CONFIG) false]).
Proof. reflexivity. Qed.

(* ===================================================================== *)
(** ** The helpers [fetchPath] and [loadState]                            *)
(* ===================================================================== *)

Ltac unfold_M :=
  unfold try_catch, await, ws_call, modify, get, throw, mbind, M_bind, mret, M_ret.

Lemma run_bind {A B} (m : M A) (f : A → M B) srv w a w' :
  m srv w = (Done a, w') → (m ≫= f) srv w = f a srv w'.
Proof. intros H. unfold mbind, M_bind. by rewrite H. Qed.

Lemma run_bind_thrown {A B} (m : M A) (f : A → M B) srv w w' :
  m srv w = (Thrown, w') → (m ≫= f) srv w = (Thrown, w').
Proof. intros H. unfold mbind, M_bind. by rewrite H. Qed.

Ltac solve_polls :=
  unfold polls_only;
  repeat (apply List.Forall_cons; [first [by left | by right]|]);
  try apply List.Forall_nil.

Lemma fetchPath_run srv w :
  App.fetchPath srv w =
  (Done tt,
   match srv (World.log w ++ [Requested ReqGetPath]) ReqGetPath with
   | Some p => World.mk (AppState.setOptimalPath p (World.app w))
                 ((World.log w ++ [Requested ReqGetPath]) ++ [Settled ReqGetPath true])
   | None => World.mk (World.app w)
                 ((World.log w ++ [Requested ReqGetPath]) ++ [Settled ReqGetPath false])
   end).
Proof. unfold App.fetchPath. unfold_M. cbn. by destruct (srv _ ReqGetPath). Qed.

Lemma fetchPath_done srv w : (App.fetchPath srv w).1 = Done tt.
Proof. by rewrite fetchPath_run. Qed.

Lemma fetchPath_polls srv w :
  ∃ l, World.log (App.fetchPath srv w).2 = World.log w ++ l ∧ polls_only l.
Proof.
  rewrite fetchPath_run.
  destruct (srv _ ReqGetPath); cbn; rewrite <- app_assoc; eexists; (split; [done|]);
    solve_polls.
Qed.

Lemma fetchPath_keeps srv w :
  keeps_all_but_path (World.app w) (World.app (App.fetchPath srv w).2).
Proof. rewrite fetchPath_run. by destruct (srv _ ReqGetPath). Qed.

Lemma loadState_done srv w : (App.loadState srv w).1 = Done tt.
Proof.
  unfold App.loadState. unfold_M. cbn.
  destruct (srv _ ReqGetState); [|done].
  by rewrite (surjective_pairing (App.fetchPath _ _)), fetchPath_done.
Qed.

Lemma loadState_polls srv w :
  ∃ l, World.log (App.loadState srv w).2 = World.log w ++ l ∧ polls_only l.
Proof.
  unfold App.loadState. unfold_M. cbn.
  destruct (srv _ ReqGetState) as [st|]; cbn.
  - rewrite (surjective_pairing (App.fetchPath _ _)), fetchPath_done. cbn.
    match goal with |- context [App.fetchPath srv ?w1] =>
      destruct (fetchPath_polls srv w1) as (l & -> & Hl) end.
    cbn. rewrite <- !app_assoc. eexists; split; [done|].
    cbn. by solve_polls.
  - rewrite <- app_assoc. eexists; split; [done|]. solve_polls.
Qed.

Lemma loadState_keeps srv w :
  keeps_all_but_view (World.app w) (World.app (App.loadState srv w).2).
Proof.
  unfold App.loadState. unfold_M. cbn.
  destruct (srv _ ReqGetState) as [st|]; cbn; [|done].
  rewrite (surjective_pairing (App.fetchPath _ _)), fetchPath_done. cbn.
  match goal with |- context [App.fetchPath srv ?w1] =>
    destruct (fetchPath_keeps srv w1) as (?&?&?&?&?&?&?&?&?&?) end.
  by repeat split.
Qed.

(* ===================================================================== *)
(** ** Channel control (api.ts)                                           *)
(* ===================================================================== *)

Lemma send_if_open_not_open f c : not_open c → WSClient.send_if_open f c = c.
Proof.
  unfold not_open, WSClient.send_if_open.
  destruct (WSClient.ws c) as [s|]; [|done].
  intros Hne. by rewrite bool_decide_eq_false_2.
Qed.

Lemma send_if_open_open f c s :
  WSClient.ws c = Some s → WebSocket.readyState s = OPEN →
  WSClient.frames (WSClient.send_if_open f c) = WSClient.frames c ++ [f].
Proof.
  intros Hws Hop. unfold WSClient.send_if_open, WSClient.frames.
  rewrite Hws. by rewrite bool_decide_eq_true_2.
Qed.

(** C10. [play], [pause] and [setSpeed] called while the socket is not in
    the OPEN state (closed, closing, connecting, or no socket at all)
    return normally and leave the client exactly as it was: no frame is
    written and nothing is kept for later, so the command is lost. *)
Theorem control_dropped_when_not_open (c : WSClient.t) (speed : Z) :
  not_open c →
  WSClient.play c = c
  ∧ WSClient.pause c = c
  ∧ WSClient.setSpeed speed c = c
  ∧ WSClient.frames (WSClient.play c) = WSClient.frames c
  ∧ WSClient.frames (WSClient.pause c) = WSClient.frames c
  ∧ WSClient.frames (WSClient.setSpeed speed c) = WSClient.frames c.
Proof.
  intros Hc. unfold WSClient.play, WSClient.pause, WSClient.setSpeed.
  rewrite !send_if_open_not_open by done. done.
Qed.

Lemma control_dropped_when_not_open_witness :
  not_open Examples.closed_socket
  ∧ WSClient.play Examples.closed_socket = Examples.closed_socket
  ∧ WSClient.pause Examples.closed_socket = Examples.closed_socket
  ∧ WSClient.setSpeed 0 Examples.closed_socket = Examples.closed_socket.
Proof.
  assert (H : not_open Examples.closed_socket) by (simpl; discriminate).
  split; [exact H|].
  pose proof (control_dropped_when_not_open Examples.closed_socket 0 H) as P.
  split; [apply P|]. split; apply P.
Defined.

(* ===================================================================== *)
(** ** Message handling: errors                                           *)
(* ===================================================================== *)

(** C1. Handling a message tagged [error] always completes, leaves the
    client out of the running state, issues no HTTP request and writes no
    frame on the socket (so the client drives no step), and the running
    flag is the one [handlePause] leaves. *)
Theorem error_message_stops_running (srv : Server) (w : World.t) (message : string) :
  let r := App.onMessage (MsgError message) srv w in
  r.1 = Done tt
  ∧ AppState.isRunning (World.app r.2) = false
  ∧ AppState.error (World.app r.2) = Some message
  ∧ World.log r.2 = World.log w
  ∧ AppState.wsClient (World.app r.2) = AppState.wsClient (World.app w)
  ∧ AppState.isRunning (World.app r.2)
    = AppState.isRunning (World.app (App.handlePause srv w).2).
Proof.
  cbn. repeat split.
  unfold App.handlePause, App.fetchPath, try_catch, await, ws_call, modify,
    mbind, M_bind. cbn.
  by destruct (srv _ ReqGetPath).
Qed.

(* ===================================================================== *)
(** ** Update messages, stage by stage                                    *)
(* ===================================================================== *)

Lemma fetchPath_log srv w :
  ∃ ok, World.log (App.fetchPath srv w).2
        = World.log w ++ [Requested ReqGetPath; Settled ReqGetPath ok].
Proof.
  rewrite fetchPath_run.
  destruct (srv _ ReqGetPath); cbn; rewrite <- app_assoc; by eexists.
Qed.

Lemma fetchPath_unmounted_run srv w :
  ∃ ok, App.fetchPath_unmounted srv w
        = (Done tt,
           World.mk (World.app w)
             (World.log w ++ [Requested ReqGetPath; Settled ReqGetPath ok])).
Proof.
  unfold App.fetchPath_unmounted. unfold_M. cbn.
  destruct (srv _ ReqGetPath); cbn; rewrite <- app_assoc; by eexists.
Qed.

(** The world a failed render leaves: the hooks as they were, the table
    reference as the handler wrote it, and the path poll the handler made
    when the message closed an episode. *)
Lemma onMessage_update_stages srv w data :
  App.onMessage (MsgUpdate data) srv w
  = match grid_stage data (tick_stage data (World.app w)) with
    | None =>
        let w0 :=
          World.mk (AppState.set_qTableRef
                      (App.merge_q data (AppState.qTableRef (World.app w)))
                      (World.app w))
            (World.log w) in
        (Thrown,
         if UpdateMsg.episode_done data
         then (App.fetchPath_unmounted srv w0).2 else w0)
    | Some s2 =>
        let s3 := override_stage data (AppState.config (World.app w)) s2 in
        if UpdateMsg.episode_done data then
          App.fetchPath srv
            (World.mk (AppState.setCurve
                         (App.curve_after_episode (AppState.curve s3) (newPoint data)) s3)
               (World.log w))
        else (Done tt, World.mk s3 (World.log w))
    end.
Proof.
  unfold App.onMessage, grid_stage, override_stage, override_with, tick_stage,
    App.apply_grid_update, App.override_cells, newPoint, in_render.
  unfold mbind, M_bind, get, modify, throw, mret, M_ret.
  cbn -[App.revert_cell App.fetchPath App.fetchPath_unmounted App.merge_q
        App.apply_tick App.with_env_cells App.curve_after_episode].
  destruct (UpdateMsg.grid_update data) as [pos|];
    destruct (AppState.state (World.app w)) as [prev|];
    cbn -[App.revert_cell App.fetchPath App.fetchPath_unmounted App.merge_q
          App.apply_tick App.with_env_cells App.curve_after_episode];
    try destruct (App.revert_cell _ _ _) as [newCells|];
    cbn -[App.revert_cell App.fetchPath App.fetchPath_unmounted App.merge_q
          App.apply_tick App.with_env_cells App.curve_after_episode];
    destruct (UpdateMsg.respawn_bonuses data);
    try destruct (SetupConfig.cells (AppState.config (World.app w)));
    destruct (UpdateMsg.full_grid data);
    destruct (UpdateMsg.episode_done data);
    cbn -[App.revert_cell App.fetchPath App.fetchPath_unmounted App.merge_q
          App.apply_tick App.with_env_cells App.curve_after_episode];
    try reflexivity;
    try (by destruct (App.fetchPath_unmounted srv _) as [[[]|] ?]).
Qed.

(** The outcome of an [update] message in terms of the stages. *)
Lemma onMessage_update_outcome srv w data :
  let r := App.onMessage (MsgUpdate data) srv w in
  match grid_stage data (tick_stage data (World.app w)) with
  | None =>
      r.1 = Thrown
      ∧ World.app r.2
        = AppState.set_qTableRef
            (App.merge_q data (AppState.qTableRef (World.app w))) (World.app w)
      ∧ if UpdateMsg.episode_done data
        then ∃ ok, World.log r.2
                   = World.log w ++ [Requested ReqGetPath; Settled ReqGetPath ok]
        else World.log r.2 = World.log w
  | Some s2 =>
      r.1 = Done tt
      ∧ keeps_all_but_path (update_result data (World.app w) s2) (World.app r.2)
      ∧ if UpdateMsg.episode_done data
        then ∃ ok, World.log r.2
                   = World.log w ++ [Requested ReqGetPath; Settled ReqGetPath ok]
        else World.log r.2 = World.log w
             ∧ World.app r.2 = update_result data (World.app w) s2
  end.
Proof.
  cbn zeta. rewrite onMessage_update_stages. unfold update_result.
  destruct (grid_stage data (tick_stage data (World.app w))) as [s2|].
  - cbn zeta. destruct (UpdateMsg.episode_done data).
    + match goal with |- context [App.fetchPath srv ?w1] =>
        pose proof (fetchPath_done srv w1) as Hd;
        pose proof (fetchPath_keeps srv w1) as Hk;
        pose proof (fetchPath_log srv w1) as Hl end.
      split; [exact Hd|]. split; [exact Hk|exact Hl].
    + cbn. repeat split; done.
  - cbn zeta. destruct (UpdateMsg.episode_done data); [|done].
    match goal with |- context [App.fetchPath_unmounted srv ?w1] =>
      destruct (fetchPath_unmounted_run srv w1) as [ok ->] end.
    cbn. split; [done|]. split; [done|]. by exists ok.
Qed.

(** The outcome is [Thrown] exactly when the grid stage fails. *)
Lemma onMessage_update_done srv w data :
  (App.onMessage (MsgUpdate data) srv w).1 = Done tt
  ↔ is_Some (grid_stage data (tick_stage data (World.app w))).
Proof.
  pose proof (onMessage_update_outcome srv w data) as H. cbn zeta in H.
  destruct (grid_stage data (tick_stage data (World.app w))) as [s2|].
  - destruct H as [-> _]. split; [by eexists|done].
  - destruct H as [-> _]. split; [done|]. by intros [? ?].
Qed.

Lemma next_version_differs (v : option Z) : Some (App.next_version v) ≠ v.
Proof.
  unfold App.next_version. destruct v as [n|]; [|done].
  case_decide; intros [= E]; lia.
Qed.

(* ===================================================================== *)
(** ** Message handling: the action-value table                           *)
(* ===================================================================== *)

Lemma merge_q_lookup data old k :
  App.merge_q data old !! k =
  match UpdateMsg.q_delta data, UpdateMsg.q_table data with
  | Some delta, _ => match delta !! k with Some v => Some v | None => old !! k end
  | None, Some full => full !! k
  | None, None => old !! k
  end.
Proof.
  unfold App.merge_q.
  destruct (UpdateMsg.q_delta data) as [delta|]; [|by destruct (UpdateMsg.q_table data)].
  rewrite lookup_union. by destruct (delta !! k), (old !! k).
Qed.

(** Pure facts about the stages. *)
Lemma update_result_qTableRef data s s2 :
  grid_stage data (tick_stage data s) = Some s2 →
  AppState.qTableRef (update_result data s s2)
  = App.merge_q data (AppState.qTableRef s).
Proof.
  unfold update_result, override_stage, override_with, grid_stage, tick_stage. cbn.
  destruct (UpdateMsg.grid_update data), (AppState.state s); cbn;
    try destruct (App.revert_cell _ _ _); cbn; try done; intros [= <-];
    by destruct (UpdateMsg.episode_done data), (UpdateMsg.full_grid data),
      (UpdateMsg.respawn_bonuses data), (SetupConfig.cells (AppState.config s)).
Qed.

Lemma update_result_q_table data s s2 st' :
  grid_stage data (tick_stage data s) = Some s2 →
  AppState.state (update_result data s s2) = Some st' →
  SimulationState.q_table st' = App.merge_q data (AppState.qTableRef s).
Proof.
  unfold update_result, override_stage, override_with, grid_stage, tick_stage. cbn.
  destruct (UpdateMsg.grid_update data), (AppState.state s); cbn;
    try destruct (App.revert_cell _ _ _); cbn; try done; intros [= <-];
    destruct (UpdateMsg.episode_done data), (UpdateMsg.full_grid data),
      (UpdateMsg.respawn_bonuses data), (SetupConfig.cells (AppState.config s));
    cbn; try done; by intros [= <-].
Qed.

(** The table reference after the [update] branch: the handler writes it
    before anything is rendered, so this holds whatever becomes of the
    render. *)
Lemma onMessage_update_qTableRef srv w data :
  AppState.qTableRef (World.app (App.onMessage (MsgUpdate data) srv w).2)
  = App.merge_q data (AppState.qTableRef (World.app w)).
Proof.
  pose proof (onMessage_update_outcome srv w data) as H. cbn zeta in H.
  destruct (grid_stage data (tick_stage data (World.app w))) as [s2|] eqn:Hg.
  - destruct H as (_ & Hk & _). destruct Hk as (_&_&_&_&_&_&_&_&->&_).
    by apply update_result_qTableRef.
  - by destruct H as (_ & -> & _).
Qed.

(** The table shown to the renderer, when the render goes through, is the
    one the reference holds. *)
Lemma onMessage_update_state_q_table srv w data st' :
  (App.onMessage (MsgUpdate data) srv w).1 = Done tt →
  AppState.state (World.app (App.onMessage (MsgUpdate data) srv w).2) = Some st' →
  SimulationState.q_table st' = App.merge_q data (AppState.qTableRef (World.app w)).
Proof.
  pose proof (onMessage_update_outcome srv w data) as H. cbn zeta in H.
  destruct (grid_stage data (tick_stage data (World.app w))) as [s2|] eqn:Hg.
  - destruct H as (_ & Hk & _). destruct Hk as (_ & -> & _). intros _.
    by apply update_result_q_table.
  - destruct H as (-> & _). done.
Qed.

(** Reloading the state from the server does not touch the table
    reference: a later delta is merged into the reference, not into the
    table that was just loaded. *)
Lemma loadState_keeps_qTableRef srv w :
  AppState.qTableRef (World.app (App.loadState srv w).2)
  = AppState.qTableRef (World.app w).
Proof. by destruct (loadState_keeps srv w) as (_&_&_&_&_&_&_&->&_). Qed.

(** What the merge is, relative to the table reference: with a [q_delta],
    every key of the delta reads the delta's value afterwards and every
    other key reads what the reference held; without a delta but with a
    full [q_table], the table is that table; with neither, it is
    unchanged. When the render goes through, the table installed in the
    simulation state is that same table. So as long as the table shown is
    the reference's (which every [update] message re-establishes), the
    keys a delta does not mention keep their entries. *)
Lemma update_merges_into_reference
    (srv : Server) (w : World.t) (data : UpdateMsg.t) :
  let old := AppState.qTableRef (World.app w) in
  let r := App.onMessage (MsgUpdate data) srv w in
  let new := AppState.qTableRef (World.app r.2) in
  match UpdateMsg.q_delta data, UpdateMsg.q_table data with
  | Some delta, _ =>
      ∀ k, new !! k = match delta !! k with Some v => Some v | None => old !! k end
  | None, Some full => new = full
  | None, None => new = old
  end
  ∧ (r.1 = Done tt →
     ∀ st', AppState.state (World.app r.2) = Some st' →
            SimulationState.q_table st' = new).
Proof.
  cbn zeta. split.
  - rewrite onMessage_update_qTableRef.
    destruct (UpdateMsg.q_delta data) as [delta|] eqn:Hd.
    + intros k. by rewrite merge_q_lookup, Hd.
    + unfold App.merge_q. rewrite Hd. by destruct (UpdateMsg.q_table data).
  - intros Hdone st' Hst. rewrite onMessage_update_qTableRef.
    by apply onMessage_update_state_q_table in Hst.
Qed.

(** C2. A delta is not merged into a table that [loadState] installed.
    After [loadState] has installed the server's table, which has an entry
    for cell (0,0), the table reference still holds the empty table; the
    next [update] message, whose delta only mentions cell (1,0), installs
    the reference merged with the delta: the entry of cell (0,0), a key
    the delta does not mention, is gone from the table the client holds
    and draws. *)
Theorem update_after_reload_drops_loaded_keys :
  let w1 := (App.loadState Examples.trained_server
               (World.mk Examples.loaded3 [])).2 in
  let r := App.onMessage (MsgUpdate Examples.tick_delta)
             Examples.trained_server w1 in
  (∃ st, AppState.state (World.app w1) = Some st
         ∧ SimulationState.q_table st !! "0,0"
           = Some (ActionValues.mk 0 0 0 (-0.5)))
  ∧ UpdateMsg.q_delta Examples.tick_delta = Some Examples.delta10
  ∧ Examples.delta10 !! "0,0" = None
  ∧ r.1 = Done tt
  ∧ ∃ st', AppState.state (World.app r.2) = Some st'
           ∧ SimulationState.q_table st' !! "1,0"
             = Some (ActionValues.mk 0 0 0 (-0.5))
           ∧ SimulationState.q_table st' !! "0,0" = None.
Proof.
  cbn zeta. split; [|split; [|split; [|split]]].
  - eexists. split; [reflexivity|]. by vm_compute.
  - reflexivity.
  - by vm_compute.
  - reflexivity.
  - eexists. split; [reflexivity|]. split; by vm_compute.
Qed.

(* ===================================================================== *)
(** ** The best-action arrow (CanvasGrid.tsx)                             *)
(* ===================================================================== *)

Section BestArrow.
Local Open Scope Q_scope.
Import CanvasGrid.

Lemma or0_eq v : or0 v == v.
Proof.
  unfold or0. destruct (Qeq_bool v 0) eqn:E; [|reflexivity].
  apply Qeq_bool_eq in E. by symmetry.
Qed.

Lemma maxQ_eq q :
  maxQ q == Qmax (Qmax (Qmax (ActionValues.vUP q) (ActionValues.vDOWN q))
                       (ActionValues.vLEFT q)) (ActionValues.vRIGHT q).
Proof. unfold maxQ. cbn zeta. by rewrite !or0_eq. Qed.

Lemma maxQ_upper q a : ActionValues.get q a <= maxQ q.
Proof.
  rewrite maxQ_eq.
  destruct a; cbn.
  - do 2 (eapply Qle_trans; [|apply Q.le_max_l]). apply Q.le_max_l.
  - do 2 (eapply Qle_trans; [|apply Q.le_max_l]). apply Q.le_max_r.
  - eapply Qle_trans; [|apply Q.le_max_l]. apply Q.le_max_r.
  - apply Q.le_max_r.
Qed.

Lemma maxQ_attained q : ∃ a, ActionValues.get q a == maxQ q.
Proof.
  destruct (Q.max_dec (Qmax (Qmax (ActionValues.vUP q) (ActionValues.vDOWN q))
              (ActionValues.vLEFT q)) (ActionValues.vRIGHT q)) as [H3|H3];
    [|exists RIGHT; cbn; by rewrite maxQ_eq, H3].
  destruct (Q.max_dec (Qmax (ActionValues.vUP q) (ActionValues.vDOWN q))
              (ActionValues.vLEFT q)) as [H2|H2];
    [|exists LEFT; cbn; by rewrite maxQ_eq, H3, H2].
  destruct (Q.max_dec (ActionValues.vUP q) (ActionValues.vDOWN q)) as [H1|H1].
  - exists UP; cbn. by rewrite maxQ_eq, H3, H2, H1.
  - exists DOWN; cbn. by rewrite maxQ_eq, H3, H2, H1.
Qed.

Lemma below_max q a : Qeq_bool (ActionValues.get q a) (maxQ q) = false →
  ActionValues.get q a < maxQ q.
Proof.
  intros E. apply Qeq_bool_neq in E.
  destruct (Qle_lt_or_eq _ _ (maxQ_upper q a)); [done|contradiction].
Qed.

(** C5. For every record of four values the arrow chain selects an
    action; its value is the maximum of the four; and every action that
    comes before it in the order UP, DOWN, LEFT, RIGHT has a strictly
    smaller value. So the selected action is the first of that order
    among the tied maxima. *)
Theorem best_is_first_maximum (qVals : ActionValues.t) :
  ∃ (a : Action) (i : nat),
    best qVals = Some a
    ∧ priority !! i = Some a
    ∧ (∀ b, ActionValues.get qVals b <= ActionValues.get qVals a)
    ∧ (∀ j b, (j < i)%nat → priority !! j = Some b →
              ActionValues.get qVals b < ActionValues.get qVals a).
Proof.
  unfold best. cbn zeta.
  destruct (Qeq_bool (ActionValues.vUP qVals) (maxQ qVals)) eqn:EU.
  { exists UP, 0%nat. apply Qeq_bool_eq in EU. repeat split.
    - intros b. cbn. rewrite EU. apply maxQ_upper.
    - intros j b Hj. lia. }
  destruct (Qeq_bool (ActionValues.vDOWN qVals) (maxQ qVals)) eqn:ED.
  { exists DOWN, 1%nat. apply Qeq_bool_eq in ED. repeat split.
    - intros b. cbn. rewrite ED. apply maxQ_upper.
    - intros j b Hj Hb. assert (j = 0%nat) as -> by lia.
      injection Hb as <-. cbn. rewrite ED. by apply (below_max qVals UP). }
  destruct (Qeq_bool (ActionValues.vLEFT qVals) (maxQ qVals)) eqn:EL.
  { exists LEFT, 2%nat. apply Qeq_bool_eq in EL. repeat split.
    - intros b. cbn. rewrite EL. apply maxQ_upper.
    - intros j b Hj Hb. cbn. rewrite EL.
      destruct j as [|[|j]]; [| |lia]; injection Hb as <-.
      + by apply (below_max qVals UP).
      + by apply (below_max qVals DOWN). }
  destruct (Qeq_bool (ActionValues.vRIGHT qVals) (maxQ qVals)) eqn:ER.
  { exists RIGHT, 3%nat. apply Qeq_bool_eq in ER. repeat split.
    - intros b. cbn. rewrite ER. apply maxQ_upper.
    - intros j b Hj Hb. cbn. rewrite ER.
      destruct j as [|[|[|j]]]; [| | |lia]; injection Hb as <-.
      + by apply (below_max qVals UP).
      + by apply (below_max qVals DOWN).
      + by apply (below_max qVals LEFT). }
  exfalso. destruct (maxQ_attained qVals) as [a Ha].
  apply Qeq_bool_iff in Ha. destruct a; cbn in Ha; congruence.
Qed.
Lemma best_is_first_maximum_witness :
  ∃ (a : Action) (i : nat),
    best (ActionValues.mk 1 3 3 0) = Some a
    ∧ priority !! i = Some a
    ∧ (∀ b, ActionValues.get (ActionValues.mk 1 3 3 0) b
            <= ActionValues.get (ActionValues.mk 1 3 3 0) a)
    ∧ (∀ j b, (j < i)%nat → priority !! j = Some b →
              ActionValues.get (ActionValues.mk 1 3 3 0) b
              < ActionValues.get (ActionValues.mk 1 3 3 0) a).
Proof. exact (best_is_first_maximum (ActionValues.mk 1 3 3 0)). Defined.
End BestArrow.

(* ===================================================================== *)
(** ** Exploration-rate decay                                             *)
(* ===================================================================== *)

Section EpsilonDecay.
Local Open Scope Q_scope.
Import Agent.



Global Instance decay_epsilon_proper m d : Proper (Qeq ==> Qeq) (decay_epsilon m d).
Proof. intros x y E. unfold decay_epsilon. by rewrite E. Qed.




End EpsilonDecay.

(* ===================================================================== *)
(** ** Turbo: the configuration is pushed first                           *)
(* ===================================================================== *)

Lemma polls_no_turbo l n : polls_only l → Requested (ReqTurbo n) ∉ l.
Proof.
  intros Hl Hin. unfold polls_only in Hl. rewrite Forall_forall in Hl.
  by destruct (Hl _ Hin) as [E|E].
Qed.

(** The shapes of a turbo run, by the answers of the server. *)
Lemma handleTurbo_cases srv w count :
  let s0 := AppState.set_wsClient (WSClient.pause (AppState.wsClient (World.app w)))
              (AppState.setIsRunning false (World.app w)) in
  let push := ReqUpdateConfig (AppState.config (World.app w)) in
  let l1 := World.log w ++ [Requested push] in
  let l2 := (l1 ++ [Settled push true]) ++ [Requested (ReqTurbo count)] in
  App.handleTurbo count srv w
  = match srv l1 push with
    | None => (Thrown, World.mk s0 (l1 ++ [Settled push false]))
    | Some _ =>
        match srv l2 (ReqTurbo count) with
        | None => (Thrown, World.mk s0 (l2 ++ [Settled (ReqTurbo count) false]))
        | Some res =>
            if decide (TurboResult.status res = "done")
            then App.loadState srv
                   (World.mk (AppState.setCurve
                                (App.curve_after_turbo (AppState.curve s0)
                                   (TurboResult.curve res)) s0)
                      (l2 ++ [Settled (ReqTurbo count) true]))
            else (Done tt, World.mk s0 (l2 ++ [Settled (ReqTurbo count) true]))
        end
    end.
Proof.
  cbn zeta. unfold App.handleTurbo. unfold_M. cbn.
  destruct (srv _ (ReqUpdateConfig _)); cbn; [|done].
  destruct (srv _ (ReqTurbo count)) as [res|]; cbn; [|done].
  by destruct (decide (TurboResult.status res = "done")).
Qed.

(** The three ways a turbo run can go, by the answers of the server. *)
Lemma handleTurbo_config_rejected srv w count :
  answer srv (World.log w) (ReqUpdateConfig (AppState.config (World.app w))) = None →
  World.log (App.handleTurbo count srv w).2
  = World.log w ++ [Requested (ReqUpdateConfig (AppState.config (World.app w)));
                    Settled (ReqUpdateConfig (AppState.config (World.app w))) false].
Proof.
  unfold answer. intros Hcfg. unfold App.handleTurbo. unfold_M. cbn.
  rewrite Hcfg. cbn. by rewrite <- app_assoc.
Qed.

Lemma handleTurbo_config_done srv w count :
  answer srv (World.log w) (ReqUpdateConfig (AppState.config (World.app w))) = Some tt →
  ∃ rest',
    World.log (App.handleTurbo count srv w).2
    = World.log w ++ Requested (ReqUpdateConfig (AppState.config (World.app w)))
        :: Settled (ReqUpdateConfig (AppState.config (World.app w))) true
        :: Requested (ReqTurbo count) :: rest'
    ∧ ∀ n, Requested (ReqTurbo n) ∉ rest'.
Proof.
  unfold answer. intros Hcfg. unfold App.handleTurbo. unfold_M. cbn.
  rewrite Hcfg. cbn.
  destruct (srv _ (ReqTurbo count)) as [res|]; cbn.
  - destruct (decide (TurboResult.status res = "done")) as [Hst|Hst]; cbn.
    + match goal with |- context [App.loadState srv ?w1] =>
        destruct (loadState_polls srv w1) as (l & Hl & Hpoll) end.
      exists (Settled (ReqTurbo count) true :: l). split.
      * rewrite Hl. cbn. by rewrite <- !app_assoc.
      * intros n [E|Hin]%elem_of_cons; [done|]. by eapply polls_no_turbo.
    + exists [Settled (ReqTurbo count) true]. split.
      * by rewrite <- !app_assoc.
      * intros n [E|Hin]%elem_of_cons; [done|]. by apply elem_of_nil in Hin.
  - exists [Settled (ReqTurbo count) false]. split.
    + by rewrite <- !app_assoc.
    + intros n [E|Hin]%elem_of_cons; [done|]. by apply elem_of_nil in Hin.
Qed.

(** C6. Every invocation of the turbo handler first sends an
    update_config request carrying the configuration current at the
    invocation, and waits for it to settle. Only when it was fulfilled is
    the turbo request sent, right after it and exactly once; when it was
    rejected the handler stops and no turbo request is sent at all. *)
Theorem turbo_pushes_config_first (srv : Server) (w : World.t) (count : Z) :
  let push := ReqUpdateConfig (AppState.config (World.app w)) in
  ∃ (fulfilled : bool) (rest : list Event),
    World.log (App.handleTurbo count srv w).2
    = World.log w ++ Requested push :: Settled push fulfilled :: rest
    ∧ if fulfilled
      then ∃ rest', rest = Requested (ReqTurbo count) :: rest'
                    ∧ ∀ n, Requested (ReqTurbo n) ∉ rest'
      else rest = [].
Proof.
  cbn zeta.
  destruct (answer srv (World.log w)
              (ReqUpdateConfig (AppState.config (World.app w)))) as [[]|] eqn:Hcfg.
  - destruct (handleTurbo_config_done srv w count Hcfg) as (rest' & Hlog & Hno).
    exists true, (Requested (ReqTurbo count) :: rest'). split; [done|]. by exists rest'.
  - exists false, []. split; [|done]. by apply handleTurbo_config_rejected.
Qed.

(* ===================================================================== *)
(** ** Cell edits while running                                           *)
(* ===================================================================== *)

(** C8. A cell edit invoked while the client is in the running state
    returns at once: the configuration, the grid and every other piece of
    client state are exactly as before, and no request is sent. *)
Theorem edit_ignored_while_running
    (srv : Server) (w : World.t) (x y : nat) (isDrag : bool) :
  AppState.isRunning (World.app w) = true →
  App.handleCellAction x y isDrag srv w = (Done tt, w).
Proof.
  intros Hrun. unfold App.handleCellAction. unfold_M. cbn.
  destruct (AppState.state (World.app w)); [|done].
  by rewrite Hrun.
Qed.

Lemma edit_ignored_while_running_witness :
  AppState.isRunning Examples.running3 = true
  ∧ App.handleCellAction 0 0 false Examples.offline (World.mk Examples.running3 [])
    = (Done tt, World.mk Examples.running3 []).
Proof.
  split; [reflexivity|].
  apply (edit_ignored_while_running Examples.offline
           (World.mk Examples.running3 []) 0 0 false).
  reflexivity.
Defined.

(* ===================================================================== *)
(** ** The learning curve                                                 *)
(* ===================================================================== *)

Section Curve.
Context {A : Type}.
Implicit Types l : list A.

Lemma slice_last_length n l : length (slice_last n l) = n `min` length l.
Proof. unfold slice_last. rewrite length_drop. lia. Qed.

Lemma slice_last_bound n l : length (slice_last n l) ≤ n.
Proof. rewrite slice_last_length. lia. Qed.

Lemma slice_last_suffix n l : slice_last n l `suffix_of` l.
Proof. apply suffix_drop. Qed.

Lemma slice_last_short n l : length l ≤ n → slice_last n l = l.
Proof.
  intros H. unfold slice_last.
  replace (length l - n) with 0 by lia. done.
Qed.
End Curve.

Lemma update_result_curve data s s2 :
  grid_stage data (tick_stage data s) = Some s2 →
  AppState.curve (update_result data s s2)
  = if UpdateMsg.episode_done data
    then App.curve_after_episode (AppState.curve s) (newPoint data)
    else AppState.curve s.
Proof.
  unfold update_result, override_stage, override_with, grid_stage, tick_stage. cbn.
  destruct (UpdateMsg.grid_update data), (AppState.state s); cbn;
    try destruct (App.revert_cell _ _ _); cbn; try done; intros [= <-];
    by destruct (UpdateMsg.episode_done data), (UpdateMsg.full_grid data),
      (UpdateMsg.respawn_bonuses data), (SetupConfig.cells (AppState.config s)).
Qed.

(** The curve after an [update] message: the updater's result when the
    render goes through, the curve as it was when it fails. *)
Lemma onMessage_update_curve srv w data :
  AppState.curve (World.app (App.onMessage (MsgUpdate data) srv w).2)
  = match (App.onMessage (MsgUpdate data) srv w).1, UpdateMsg.episode_done data with
    | Done _, true =>
        App.curve_after_episode (AppState.curve (World.app w)) (newPoint data)
    | _, _ => AppState.curve (World.app w)
    end.
Proof.
  pose proof (onMessage_update_outcome srv w data) as H. cbn zeta in H.
  destruct (grid_stage data (tick_stage data (World.app w))) as [s2|] eqn:Hg.
  - destruct H as (-> & Hk & _). destruct Hk as (_ & _ & -> & _).
    by rewrite (update_result_curve _ _ _ Hg).
  - by destruct H as (-> & -> & _).
Qed.

Lemma onMessage_episode_curve srv w data :
  UpdateMsg.episode_done data = true →
  (App.onMessage (MsgUpdate data) srv w).1 = Done tt →
  AppState.curve (World.app (App.onMessage (MsgUpdate data) srv w).2)
  = App.curve_after_episode (AppState.curve (World.app w))
      (LearningCurvePoint.mk (UpdateMsg.episode data)
         (UpdateMsg.episode_reward data) (UpdateMsg.steps data)).
Proof.
  intros Hdone Hok. by rewrite onMessage_update_curve, Hok, Hdone.
Qed.

Lemma handleTurbo_done_curve srv w count res :
  answer srv (World.log w) (ReqUpdateConfig (AppState.config (World.app w))) = Some tt →
  answer srv
    (World.log w ++ [Requested (ReqUpdateConfig (AppState.config (World.app w)));
                     Settled (ReqUpdateConfig (AppState.config (World.app w))) true])
    (ReqTurbo count) = Some res →
  TurboResult.status res = "done" →
  AppState.curve (World.app (App.handleTurbo count srv w).2)
  = App.curve_after_turbo (AppState.curve (World.app w)) (TurboResult.curve res).
Proof.
  unfold answer. intros Hcfg Hturbo Hst. unfold App.handleTurbo. unfold_M. cbn.
  rewrite Hcfg. cbn. rewrite <- !app_assoc in *. cbn in *. rewrite Hturbo. cbn.
  rewrite decide_True by done. cbn.
  match goal with |- context [App.loadState srv ?w1] =>
    destruct (loadState_keeps srv w1) as (_ & -> & _) end.
  done.
Qed.

(** The curve after a turbo run, whatever the server answers: untouched,
    or the last 100 points followed by a batch the server returned. *)
Lemma handleTurbo_curve_cases srv w count :
  let c' := AppState.curve (World.app (App.handleTurbo count srv w).2) in
  c' = AppState.curve (World.app w)
  ∨ ∃ history res,
      srv history (ReqTurbo count) = Some res
      ∧ c' = App.curve_after_turbo (AppState.curve (World.app w))
               (TurboResult.curve res).
Proof.
  cbn zeta. rewrite handleTurbo_cases. cbn zeta.
  destruct (srv _ (ReqUpdateConfig _)); cbn; [|by left].
  destruct (srv _ (ReqTurbo count)) as [res|] eqn:Hres; cbn; [|by left].
  destruct (decide (TurboResult.status res = "done")); cbn; [|by left].
  right. eexists _, res. split; [exact Hres|].
  match goal with |- context [App.loadState srv ?w1] =>
    destruct (loadState_keeps srv w1) as (_ & -> & _) end.
  done.
Qed.

Lemma curve_after_turbo_window prev batch :
  App.curve_after_turbo prev batch `suffix_of` prev ++ batch
  ∧ length (App.curve_after_turbo prev batch) = 100 `min` length prev + length batch.
Proof.
  unfold App.curve_after_turbo. split.
  - apply suffix_app, slice_last_suffix.
  - by rewrite length_app, slice_last_length.
Qed.

(** C7. The learning curve is a trailing window of bounded length. The
    per-episode handler keeps the last 200 points of the list extended by
    the new point. A successful turbo run keeps the last 100 of the earlier
    points and appends the batch; the client only ever asks for 1000
    episodes, so with a server that returns at most one point per episode
    the list holds at most 1100 points. In both cases what is kept is a
    suffix of the extended list: the oldest points are dropped first.
    And 1100 bounds the curve along every path of the two handlers, also
    the ones on which nothing is appended. *)
Theorem curve_window (srv : Server) (w : World.t) :
  (∀ data : UpdateMsg.t,
     UpdateMsg.episode_done data = true →
     (App.onMessage (MsgUpdate data) srv w).1 = Done tt →
     let extended :=
       AppState.curve (World.app w)
       ++ [LearningCurvePoint.mk (UpdateMsg.episode data)
             (UpdateMsg.episode_reward data) (UpdateMsg.steps data)] in
     let c' := AppState.curve (World.app (App.onMessage (MsgUpdate data) srv w).2) in
     c' = slice_last 200 extended
     ∧ c' `suffix_of` extended
     ∧ length c' = 200 `min` length extended
     ∧ length c' ≤ 200)
  ∧ (∀ (count : Z) (res : TurboResult.t),
       let push := ReqUpdateConfig (AppState.config (World.app w)) in
       answer srv (World.log w) push = Some tt →
       answer srv (World.log w ++ [Requested push; Settled push true])
         (ReqTurbo count) = Some res →
       TurboResult.status res = "done" →
       let extended := AppState.curve (World.app w) ++ TurboResult.curve res in
       let c' := AppState.curve (World.app (App.handleTurbo count srv w).2) in
       c' = slice_last 100 (AppState.curve (World.app w)) ++ TurboResult.curve res
       ∧ c' `suffix_of` extended
       ∧ length c' = 100 `min` length (AppState.curve (World.app w))
                     + length (TurboResult.curve res)
       ∧ (length (TurboResult.curve res) ≤ 1000 → length c' ≤ curve_bound))
  ∧ (∀ m : Msg,
       length (AppState.curve (World.app w)) ≤ curve_bound →
       length (AppState.curve (World.app (App.onMessage m srv w).2)) ≤ curve_bound)
  ∧ (batch_within srv 1000 →
     length (AppState.curve (World.app w)) ≤ curve_bound →
     length (AppState.curve (World.app (App.handleTurbo 1000 srv w).2))
     ≤ curve_bound).
Proof.
  split; [|split; [|split]].
  - intros data Hdone Hok. cbn zeta.
    rewrite onMessage_episode_curve by done. unfold App.curve_after_episode.
    split; [done|]. split; [apply slice_last_suffix|].
    split; [apply slice_last_length|apply slice_last_bound].
  - intros count res push Hcfg Hturbo Hst. cbn zeta.
    rewrite (handleTurbo_done_curve srv w count res) by done.
    destruct (curve_after_turbo_window (AppState.curve (World.app w))
                (TurboResult.curve res)) as [Hsuf Hlen].
    split; [done|]. split; [done|]. split; [done|].
    rewrite Hlen. unfold curve_bound. lia.
  - intros m Hlen. destruct m as [data|message|type]; [|done..].
    rewrite onMessage_update_curve.
    destruct (App.onMessage (MsgUpdate data) srv w).1; [|done].
    destruct (UpdateMsg.episode_done data); [|done].
    unfold App.curve_after_episode, curve_bound.
    pose proof (slice_last_bound 200
                  (AppState.curve (World.app w) ++ [newPoint data])). lia.
  - intros Hsrv Hlen.
    destruct (handleTurbo_curve_cases srv w 1000) as [->|(h & res & Hres & ->)];
      [done|].
    apply Hsrv in Hres.
    destruct (curve_after_turbo_window (AppState.curve (World.app w))
                (TurboResult.curve res)) as [_ ->].
    unfold curve_bound. lia.
Qed.

Lemma curve_window_witness :
  AppState.curve (World.app
    (App.onMessage
       (MsgUpdate (UpdateMsg.mk (AgentPos.mk 0 0) None None 1 7 0 0.2 None
                     false None true 93))
       Examples.offline (World.mk Examples.loaded3 [])).2)
  = [LearningCurvePoint.mk 1 93 7]
  ∧ AppState.curve (World.app
      (App.handleTurbo 2 (Examples.turbo_server [Examples.point 1; Examples.point 2])
         (World.mk Examples.loaded3 [])).2)
    = [Examples.point 1; Examples.point 2]
  ∧ length (AppState.curve (World.app
      (App.handleTurbo 1000
         (Examples.turbo_server [Examples.point 1; Examples.point 2])
         (World.mk Examples.loaded3 [])).2)) ≤ curve_bound.
Proof.
  pose proof (curve_window Examples.offline (World.mk Examples.loaded3 []))
    as (HA & _).
  pose proof (curve_window (Examples.turbo_server [Examples.point 1; Examples.point 2])
                (World.mk Examples.loaded3 [])) as (_ & HB & _ & HD).
  split; [|split].
  - destruct (HA (UpdateMsg.mk (AgentPos.mk 0 0) None None 1 7 0 0.2 None
                    false None true 93) eq_refl eq_refl) as [-> _].
    reflexivity.
  - destruct (HB 2%Z (TurboResult.mk "done" [Examples.point 1; Examples.point 2]
                      (GridState.mk 3 3 Examples.grid3)) eq_refl eq_refl eq_refl)
      as [-> _].
    reflexivity.
  - apply HD.
    + intros history res [= <-]. cbn. lia.
    + cbn. unfold curve_bound. lia.
Defined.

(* ===================================================================== *)
(** ** Message handling: a single cell reverted                           *)
(* ===================================================================== *)

Lemma js_write_in_range (row : Row) (x : nat) v :
  x < length row → js_write row x v = <[x := Some v]> row.
Proof. intros H. unfold js_write. by rewrite decide_True. Qed.

Lemma cell_at_insert_row (cells : Cells) (row' : Row) (x y x' y' : nat) :
  y < length cells →
  cell_at (<[y := row']> cells) x' y'
  = if decide (y' = y) then row' !! x' else cell_at cells x' y'.
Proof.
  intros Hy. unfold cell_at. case_decide as E.
  - subst. by rewrite list_lookup_insert_eq.
  - by rewrite list_lookup_insert_ne.
Qed.

Lemma revert_cell_in_range (cells : Cells) (x y : nat) :
  is_Some (cell_at cells x y) →
  ∃ cells',
    App.revert_cell x y cells = Some cells'
    ∧ length cells' = length cells
    ∧ cell_at cells' x y = Some (Some "empty")
    ∧ ∀ x' y', (x', y') ≠ (x, y) → cell_at cells' x' y' = cell_at cells x' y'.
Proof.
  unfold cell_at at 1. intros [c Hc].
  destruct (cells !! y) as [row|] eqn:Hrow; [|done]. cbn in Hc.
  pose proof (lookup_lt_Some _ _ _ Hrow) as Hy.
  pose proof (lookup_lt_Some _ _ _ Hc) as Hx.
  exists (<[y := <[x := Some "empty"]> row]> cells).
  unfold App.revert_cell. rewrite Hrow. cbn. rewrite js_write_in_range by done.
  split; [done|]. split; [by rewrite length_insert|]. split.
  - rewrite cell_at_insert_row by done. rewrite decide_True by done.
    by rewrite list_lookup_insert_eq.
  - intros x' y' Hne. rewrite cell_at_insert_row by done.
    case_decide as E; [|done]. subst y'.
    unfold cell_at. rewrite Hrow. cbn.
    rewrite list_lookup_insert_ne; [done|]. congruence.
Qed.

Lemma apply_grid_update_run srv w pos prev cells' :
  AppState.state (World.app w) = Some prev →
  App.revert_cell (AgentPos.x pos) (AgentPos.y pos)
    (GridState.cells (SimulationState.env prev)) = Some cells' →
  App.apply_grid_update pos srv w
  = (Done tt,
     World.mk (AppState.setState (Some (App.with_env_cells cells' prev)) (World.app w))
       (World.log w)).
Proof.
  intros Hst Hrev. unfold App.apply_grid_update.
  erewrite run_bind by reflexivity. by rewrite Hst, Hrev.
Qed.

(** C4 (as amended). An [update] message that carries a [grid_update] for
    a cell (x, y) of the loaded grid, no [full_grid], and no effective
    [respawn_bonuses] (the flag is off, or the client has no edited grid
    of its own): after handling it the cell at (x, y) is [empty], every
    other cell is what it was, and width and height are unchanged. *)
Theorem grid_update_reverts_one_cell
    (srv : Server) (w : World.t) (data : UpdateMsg.t) (x y : nat)
    (prev : SimulationState.t) :
  UpdateMsg.grid_update data = Some (AgentPos.mk x y) →
  UpdateMsg.full_grid data = None →
  UpdateMsg.respawn_bonuses data = false
    ∨ SetupConfig.cells (AppState.config (World.app w)) = None →
  AppState.state (World.app w) = Some prev →
  is_Some (cell_at (GridState.cells (SimulationState.env prev)) x y) →
  ∃ st',
    (App.onMessage (MsgUpdate data) srv w).1 = Done tt
    ∧ AppState.state (World.app (App.onMessage (MsgUpdate data) srv w).2) = Some st'
    ∧ GridState.width (SimulationState.env st')
      = GridState.width (SimulationState.env prev)
    ∧ GridState.height (SimulationState.env st')
      = GridState.height (SimulationState.env prev)
    ∧ length (GridState.cells (SimulationState.env st'))
      = length (GridState.cells (SimulationState.env prev))
    ∧ cell_at (GridState.cells (SimulationState.env st')) x y = Some (Some "empty")
    ∧ ∀ x' y', (x', y') ≠ (x, y) →
        cell_at (GridState.cells (SimulationState.env st')) x' y'
        = cell_at (GridState.cells (SimulationState.env prev)) x' y'.
Proof.
  intros Hgu Hfull Hresp Hst Hin.
  destruct (revert_cell_in_range _ _ _ Hin) as (cells' & Hrev & Hlen & Hxy & Hframe).
  set (q := App.merge_q data (AppState.qTableRef (World.app w))).
  exists (App.with_env_cells cells' (App.apply_tick data q prev)).
  pose proof (onMessage_update_outcome srv w data) as H. cbn zeta in H.
  assert (grid_stage data (tick_stage data (World.app w))
          = Some (AppState.setState
                    (Some (App.with_env_cells cells' (App.apply_tick data q prev)))
                    (tick_stage data (World.app w)))) as Hg.
  { unfold grid_stage, tick_stage. cbn. rewrite Hgu, Hst. cbn. by rewrite Hrev. }
  rewrite Hg in H. destruct H as (Hd & Hk & _). split; [exact Hd|].
  destruct Hk as (_ & -> & _).
  unfold update_result, override_stage, override_with. rewrite Hfull.
  destruct Hresp as [->| ->]; [|destruct (UpdateMsg.respawn_bonuses data)];
    destruct (UpdateMsg.episode_done data); cbn; repeat split; done.
Qed.

(** A [full_grid] in the message is installed last, whatever the earlier
    blocks of the handler did to the cells. *)
Lemma full_grid_overrides srv w data c prev :
  UpdateMsg.full_grid data = Some c →
  AppState.state (World.app w) = Some prev →
  (App.onMessage (MsgUpdate data) srv w).1 = Done tt →
  ∃ st',
    AppState.state (World.app (App.onMessage (MsgUpdate data) srv w).2) = Some st'
    ∧ GridState.cells (SimulationState.env st') = c.
Proof.
  intros Hfull Hst Hdone.
  pose proof (onMessage_update_outcome srv w data) as H. cbn zeta in H.
  destruct (grid_stage data (tick_stage data (World.app w))) as [s2|] eqn:Hg.
  2:{ destruct H as (Hthrown & _). by rewrite Hthrown in Hdone. }
  destruct H as (_ & Hk & _). destruct Hk as (_ & -> & _).
  revert Hg. unfold update_result, override_stage, override_with, grid_stage,
    tick_stage. cbn. rewrite Hst, Hfull. cbn.
  destruct (UpdateMsg.grid_update data) as [pos|]; cbn;
    [destruct (App.revert_cell _ _ _) as [newCells|]; cbn; [|done]|];
    intros [= <-];
    destruct (UpdateMsg.episode_done data), (UpdateMsg.respawn_bonuses data),
      (SetupConfig.cells (AppState.config (World.app w)));
    cbn; by eexists.
Qed.

Lemma grid_update_reverts_one_cell_witness :
  ∃ st',
    AppState.state (World.app
      (App.onMessage (MsgUpdate Examples.tick_collect) Examples.offline
         (World.mk Examples.loadedB [])).2) = Some st'
    ∧ cell_at (GridState.cells (SimulationState.env st')) 1 1 = Some (Some "empty")
    ∧ cell_at (GridState.cells (SimulationState.env st')) 0 0 = Some (Some "start").
Proof.
  destruct (grid_update_reverts_one_cell Examples.offline
              (World.mk Examples.loadedB []) Examples.tick_collect 1 1 Examples.simB)
    as (st' & _ & Hst & _ & _ & _ & Hxy & Hframe).
  - reflexivity.
  - reflexivity.
  - left. reflexivity.
  - reflexivity.
  - by eexists.
  - exists st'. split; [exact Hst|]. split; [exact Hxy|].
    rewrite (Hframe 0 0) by discriminate. reflexivity.
Defined.

(** When the same message also carries the server's whole grid, that grid
    is installed after the revert: the collected bonus cell (1,1) holds its
    bonus again instead of [empty]. *)
Lemma grid_update_overridden_by_full_grid :
  UpdateMsg.grid_update Examples.tick_collect_respawn = Some (AgentPos.mk 1 1)
  ∧ (App.onMessage (MsgUpdate Examples.tick_collect_respawn) Examples.offline
       (World.mk Examples.loadedB [])).1 = Done tt
  ∧ ∃ st',
      AppState.state (World.app
        (App.onMessage (MsgUpdate Examples.tick_collect_respawn) Examples.offline
           (World.mk Examples.loadedB [])).2) = Some st'
      ∧ cell_at (GridState.cells (SimulationState.env st')) 1 1
        = Some (Some "bonus:20")
      ∧ cell_at (GridState.cells (SimulationState.env st')) 1 1
        ≠ Some (Some "empty").
Proof.
  split; [reflexivity|]. split; [reflexivity|].
  eexists. split; [reflexivity|]. split; [reflexivity|discriminate].
Qed.

(* ===================================================================== *)
(** ** Cell edits: the clearing loops                                     *)
(* ===================================================================== *)

Section Clearing.
Variable mode : string.

Lemma js_read_Some (row : Row) (x : nat) v :
  js_read row x = Some v ↔ row !! x = Some (Some v).
Proof.
  unfold js_read. destruct (row !! x) as [[c|]|]; cbn; split; congruence.
Qed.

(** The inner loop, slot by slot. *)
Lemma clear_row_spec (W : nat) (row : Row) :
  length (App.clear_row mode W row) = length row
  ∧ ∀ i, App.clear_row mode W row !! i
         = if decide (i < W) then unmark mode <$> row !! i else row !! i.
Proof.
  unfold App.clear_row. induction W as [|W [IHlen IH]].
  - split; [done|]. intros i. by rewrite decide_False by lia.
  - rewrite seq_S, foldl_app. cbn [foldl Nat.add].
    set (r := foldl _ row (seq 0 W)) in *.
    pose proof (IH W) as HW. rewrite decide_False in HW by lia.
    case_decide as Hrd.
    + apply js_read_Some in Hrd.
      pose proof (lookup_lt_Some _ _ _ Hrd) as Hlt.
      rewrite js_write_in_range by done. split; [by rewrite length_insert|].
      intros i. destruct (decide (i = W)) as [->|Hne].
      * rewrite list_lookup_insert_eq by done. rewrite decide_True by lia.
        rewrite <- HW, Hrd. cbn. unfold unmark. by rewrite decide_True.
      * rewrite list_lookup_insert_ne by done. rewrite IH.
        repeat case_decide; (done || lia).
    + split; [done|]. intros i. destruct (decide (i = W)) as [->|Hne].
      * rewrite decide_True by lia. rewrite HW.
        destruct (row !! W) as [c|] eqn:Hc; [|done]. cbn. unfold unmark.
        rewrite decide_False; [done|]. intros ->.
        apply Hrd. apply js_read_Some. by rewrite HW.
      * rewrite IH. repeat case_decide; (done || lia).
Qed.

Lemma clear_row_full (W : nat) (row : Row) :
  length row ≤ W → App.clear_row mode W row = unmark mode <$> row.
Proof.
  intros Hlen. destruct (clear_row_spec W row) as [_ Hlk].
  apply list_eq. intros i. rewrite Hlk, list_lookup_fmap.
  case_decide; [done|].
  rewrite (lookup_ge_None_2 row i) by lia. done.
Qed.

(** The outer loop after [n] rounds. *)
Lemma clear_mode_prefix (W n : nat) (cells : Cells) :
  W ≠ 0 → n ≤ length cells →
  foldl (λ acc ry,
           cs ← acc;
           if decide (W = 0) then Some cs
           else row ← cs !! ry; Some (<[ry := App.clear_row mode W row]> cs))
        (Some cells) (seq 0 n)
  = Some ((App.clear_row mode W <$> take n cells) ++ drop n cells).
Proof.
  intros HW. induction n as [|n IH]; intros Hn.
  - by rewrite take_0, drop_0.
  - rewrite seq_S, foldl_app, IH by lia. cbn [foldl Nat.add mbind option_bind].
    rewrite decide_False by done.
    destruct (lookup_lt_is_Some_2 cells n) as [row Hrow]; [lia|].
    assert (length (App.clear_row mode W <$> take n cells) = n) as Hpre.
    { rewrite length_fmap, length_take. lia. }
    rewrite lookup_app_r by lia. rewrite Hpre, Nat.sub_diag.
    rewrite lookup_drop, Nat.add_0_r, Hrow. cbn.
    f_equal. rewrite insert_app_r_alt by lia. rewrite Hpre, Nat.sub_diag.
    rewrite (drop_S _ _ _ Hrow). cbn.
    rewrite (take_S_r _ _ _ Hrow), fmap_app, <- app_assoc. done.
Qed.

Lemma clear_mode_rectangular (W H : nat) (cells : Cells) :
  W ≠ 0 → rectangular W H cells →
  App.clear_mode mode W H cells
  = Some ((λ row : Row, unmark mode <$> row) <$> cells).
Proof.
  intros HW [Hlen Hrows]. unfold App.clear_mode.
  rewrite clear_mode_prefix by (done || lia).
  rewrite <- Hlen, take_ge, drop_ge, app_nil_r by lia. f_equal.
  apply Forall_fmap_ext_1.
  eapply Forall_impl; [exact Hrows|]. intros row Hrow. cbn in Hrow.
  apply clear_row_full. lia.
Qed.
End Clearing.

(* ===================================================================== *)
(** ** Cell edits: counting start and target cells                        *)
(* ===================================================================== *)

Section Counting.
Variable v : string.

Lemma count_row_cons c (row : Row) :
  count_row v (c :: row) = holds v c + count_row v row.
Proof.
  unfold count_row, holds. rewrite filter_cons. by case_decide.
Qed.

Lemma count_row_insert (row : Row) (x : nat) c c2 :
  row !! x = Some c →
  count_row v (<[x := c2]> row) + holds v c = count_row v row + holds v c2.
Proof.
  revert x. induction row as [|c0 row IH]; intros x Hx; [done|].
  destruct x as [|x].
  - injection Hx as ->.
    change (<[0 := c2]> (c :: row)) with (c2 :: row).
    rewrite !count_row_cons. lia.
  - change (<[S x := c2]> (c0 :: row)) with (c0 :: <[x := c2]> row).
    change (row !! x = Some c) in Hx.
    rewrite !count_row_cons. specialize (IH x Hx). lia.
Qed.

Lemma count_cell_cons (row : Row) (cells : Cells) :
  count_cell v (row :: cells) = count_row v row + count_cell v cells.
Proof. done. Qed.

Lemma count_cell_insert (cells : Cells) (y : nat) (row row2 : Row) :
  cells !! y = Some row →
  count_cell v (<[y := row2]> cells) + count_row v row
  = count_cell v cells + count_row v row2.
Proof.
  revert y. induction cells as [|r0 cells IH]; intros y Hy; [done|].
  destruct y as [|y].
  - injection Hy as ->.
    change (<[0 := row2]> (row :: cells)) with (row2 :: cells).
    rewrite !count_cell_cons. lia.
  - change (<[S y := row2]> (r0 :: cells)) with (r0 :: <[y := row2]> cells).
    change (cells !! y = Some row) in Hy.
    rewrite !count_cell_cons. specialize (IH y Hy). lia.
Qed.

(** Overwriting one slot of a grid. *)
Lemma count_cell_write (cells : Cells) (x y : nat) (row : Row) c c2 :
  cells !! y = Some row → row !! x = Some c →
  count_cell v (<[y := <[x := c2]> row]> cells) + holds v c
  = count_cell v cells + holds v c2.
Proof.
  intros Hy Hx.
  pose proof (count_cell_insert cells y row (<[x := c2]> row) Hy).
  pose proof (count_row_insert row x c c2 Hx). lia.
Qed.

Lemma holds_unmark mode c :
  v ≠ "empty" →
  holds v (unmark mode c) = if decide (v = mode) then 0 else holds v c.
Proof.
  intros Hv. unfold holds, unmark.
  repeat case_decide; simplify_eq; done.
Qed.

Lemma count_row_unmark mode (row : Row) :
  v ≠ "empty" →
  count_row v (unmark mode <$> row)
  = if decide (v = mode) then 0 else count_row v row.
Proof.
  intros Hv. induction row as [|c row IH]; [by case_decide|].
  rewrite fmap_cons, !count_row_cons, IH. fold (holds v (unmark mode c)).
  rewrite holds_unmark by done. by case_decide.
Qed.

Lemma count_cell_unmark mode (cells : Cells) :
  v ≠ "empty" →
  count_cell v ((λ row : Row, unmark mode <$> row) <$> cells)
  = if decide (v = mode) then 0 else count_cell v cells.
Proof.
  intros Hv. induction cells as [|row cells IH]; [by case_decide|].
  rewrite fmap_cons, !count_cell_cons, IH, count_row_unmark by done.
  by case_decide.
Qed.
End Counting.

(* ===================================================================== *)
(** ** Cell edits: what an accepted edit does to start and target         *)
(* ===================================================================== *)

Lemma brush_value_other (mode k : CellType) (bonusValue : Z) :
  k = start ∨ k = target → mode ≠ k →
  App.targetCellValue mode bonusValue ≠ CellType_str k.
Proof. intros [->| ->] Hne; destruct mode; first [congruence | discriminate]. Qed.

Lemma painted_counts (s : AppState.t) (st : SimulationState.t)
    (x y : nat) (c : Slot) (k : CellType) :
  k = start ∨ k = target →
  rectangular (editor_width s st) (editor_height s st) (editor_grid s st) →
  cell_at (editor_grid s st) x y = Some c →
  count_cell (CellType_str k) (editor_grid s st) = 1 →
  ∃ r, App.painted s st x y = Some r
       ∧ (c ≠ Some (App.targetCellValue (AppState.drawMode s) (AppState.bonusValue s))
          → is_Some r)
       ∧ count_cell (CellType_str k) (default (editor_grid s st) r)
         = if decide (AppState.drawMode s = k) then 1
           else 1 - holds (CellType_str k) c.
Proof.
  intros Hk Hrect Hc Hone.
  assert (CellType_str k ≠ "empty") as Hke by (by destruct Hk as [->| ->]).
  unfold App.painted. fold (editor_grid s st) (editor_width s st) (editor_height s st).
  set (g := editor_grid s st) in *.
  set (v := App.targetCellValue (AppState.drawMode s) (AppState.bonusValue s)).
  unfold cell_at in Hc. destruct (g !! y) as [row|] eqn:Hrow; [|done].
  cbn in Hc. cbn [mbind option_bind].
  assert (js_read row x = c) as Hread by (unfold js_read; by rewrite Hc).
  assert (editor_width s st ≠ 0) as HW.
  { destruct Hrect as [_ Hrows]. rewrite Forall_forall in Hrows.
    specialize (Hrows row (list_elem_of_lookup_2 _ _ _ Hrow)). cbn in Hrows.
    apply lookup_lt_Some in Hc. lia. }
  rewrite Hread. case_decide as Hsame.
  { (* the cell already holds the brush value *)
    eexists; split; [done|]. split; [done|]. cbn. rewrite Hone.
    case_decide as Hmode; [done|]. unfold holds. rewrite decide_False; [done|].
    rewrite Hsame. intros [= E]. exact (brush_value_other _ _ _ Hk Hmode E). }
  pose proof (lookup_lt_Some _ _ _ Hc) as Hx.
  destruct (decide (AppState.drawMode s = start ∨ AppState.drawMode s = target))
    as [Hclear|Hkeep].
  - (* the start or target brush: clear, then write *)
    assert (v = CellType_str (AppState.drawMode s)) as Hv
      by (unfold v; by destruct Hclear as [->| ->]).
    assert (∀ cont : Cells → option (option Cells),
      (match AppState.drawMode s with
       | start | target =>
           App.clear_mode (CellType_str (AppState.drawMode s))
             (editor_width s st) (editor_height s st) g
       | _ => Some g
       end ≫= cont)
      = cont ((λ row : Row, unmark (CellType_str (AppState.drawMode s)) <$> row) <$> g))
      as ->.
    { intros cont.
      by destruct Hclear as [->| ->]; rewrite clear_mode_rectangular. }
    rewrite list_lookup_fmap, Hrow. cbn.
    rewrite js_write_in_range by (by rewrite length_fmap).
    eexists; split; [done|]. split; [by eexists|]. cbn.
    pose proof (count_cell_write (CellType_str k)
      ((λ row : Row, unmark (CellType_str (AppState.drawMode s)) <$> row) <$> g)
      x y (unmark (CellType_str (AppState.drawMode s)) <$> row)
      (unmark (CellType_str (AppState.drawMode s)) c) (Some v)) as Hw.
    rewrite list_lookup_fmap, Hrow in Hw. specialize (Hw eq_refl).
    rewrite list_lookup_fmap, Hc in Hw. specialize (Hw eq_refl).
    rewrite count_cell_unmark, holds_unmark in Hw by done.
    rewrite Hone in Hw. rewrite Hv in *. clear Hv Hsame. unfold holds in *.
    destruct Hk as [->| ->]; destruct Hclear as [E|E]; rewrite E in *;
      cbn [CellType_str] in *;
      repeat case_decide; simplify_eq; lia.
  - (* any other brush: write only *)
    assert (∀ cont : Cells → option (option Cells),
      (match AppState.drawMode s with
       | start | target =>
           App.clear_mode (CellType_str (AppState.drawMode s))
             (editor_width s st) (editor_height s st) g
       | _ => Some g
       end ≫= cont) = cont g) as ->.
    { intros cont. destruct (AppState.drawMode s); try done; exfalso; auto. }
    rewrite Hrow. cbn. rewrite js_write_in_range by done.
    eexists; split; [done|]. split; [by eexists|]. cbn.
    pose proof (count_cell_write (CellType_str k) g x y row c (Some v) Hrow Hc) as Hw.
    rewrite Hone in Hw.
    assert (AppState.drawMode s ≠ k) as Hmode by (intros E; apply Hkeep; by rewrite E).
    rewrite decide_False by done.
    assert (holds (CellType_str k) (Some v) = 0) as Hv0.
    { unfold holds. rewrite decide_False; [done|]. intros [= E].
      exact (brush_value_other _ _ _ Hk Hmode E). }
    lia.
Qed.

(** The grid an edit produces holds the brush value at the edited cell. *)
Lemma painted_writes (s : AppState.t) (st : SimulationState.t) (x y : nat)
    (newCells : Cells) :
  App.painted s st x y = Some (Some newCells) →
  cell_at newCells x y
  = Some (Some (App.targetCellValue (AppState.drawMode s) (AppState.bonusValue s))).
Proof.
  unfold App.painted. cbn zeta.
  destruct (_ !! y) as [row|]; [|done]. cbn [mbind option_bind].
  case_decide; [done|].
  destruct (match AppState.drawMode s with
            | start | target => App.clear_mode _ _ _ _
            | _ => Some _
            end) as [cleared|]; [|done]. cbn [mbind option_bind].
  destruct (cleared !! y) as [row'|] eqn:Hrow'; [|done]. cbn.
  intros [= <-]. unfold cell_at.
  rewrite list_lookup_insert_eq by (by eapply lookup_lt_Some). cbn.
  unfold js_write. case_decide as Hx.
  - by rewrite list_lookup_insert_eq.
  - rewrite lookup_app_r by lia.
    rewrite lookup_app_r by (rewrite length_replicate; lia).
    rewrite length_replicate, Nat.sub_diag. done.
Qed.

Lemma sync_after_edit_keeps_config srv w newConfig :
  (try_catch (_ ← await (ReqSetup newConfig); App.loadState) srv w).1 = Done tt
  ∧ AppState.config (World.app
      (try_catch (_ ← await (ReqSetup newConfig); App.loadState) srv w).2)
    = AppState.config (World.app w).
Proof.
  unfold try_catch.
  destruct (answer srv (World.log w) (ReqSetup newConfig)) as [[]|] eqn:Hsetup.
  - erewrite run_bind; [|unfold await; unfold answer in Hsetup; by rewrite Hsetup].
    rewrite (surjective_pairing (App.loadState _ _)), loadState_done. cbn.
    match goal with |- context [App.loadState srv ?w1] =>
      destruct (loadState_keeps srv w1) as [-> _] end.
    done.
  - erewrite run_bind_thrown; [|unfold await; unfold answer in Hsetup; by rewrite Hsetup].
    done.
Qed.

(** An edit that gets past the early returns of the handler installs the
    painted grid in the configuration, dragging or clicking, whatever the
    server answers. *)
Lemma handleCellAction_grid srv w x y isDrag st r :
  AppState.state (World.app w) = Some st →
  AppState.isRunning (World.app w) = false →
  App.painted (World.app w) st x y = Some r →
  (App.handleCellAction x y isDrag srv w).1 = Done tt
  ∧ AppState.config (World.app (App.handleCellAction x y isDrag srv w).2)
    = match r with
      | Some newCells => SetupConfig.with_cells newCells (AppState.config (World.app w))
      | None => AppState.config (World.app w)
      end
  ∧ editor_grid (World.app (App.handleCellAction x y isDrag srv w).2) st
    = default (editor_grid (World.app w) st) r.
Proof.
  intros Hst Hrun Hp. unfold App.handleCellAction.
  erewrite run_bind by reflexivity. rewrite Hst, Hrun, Hp.
  destruct r as [newCells|]; [|done].
  erewrite run_bind by reflexivity.
  destruct isDrag; [done|].
  match goal with |- context [try_catch ?m srv ?w1] =>
    destruct (sync_after_edit_keeps_config srv w1
                (SetupConfig.with_cells newCells (AppState.config (World.app w))))
      as [Hd Hc] end.
  split; [exact Hd|]. unfold editor_grid. by rewrite Hc.
Qed.

(** C3 (as amended). A cell edit accepted by the handler (a state is
    loaded, the client is not running), at a position inside a rectangular
    grid of the configured size that holds exactly one start and one
    target, always completes and is never turned down for the sake of these
    two cells. Afterwards the grid holds exactly one start when the brush is
    [start]; with any other brush it holds one start, unless the edited cell
    was the start, in which case it holds none. The same goes for target. *)
Theorem edit_effect_on_start_and_target
    (srv : Server) (w : World.t) (x y : nat) (isDrag : bool)
    (st : SimulationState.t) (c : Slot) :
  let s := World.app w in
  AppState.state s = Some st →
  AppState.isRunning s = false →
  rectangular (editor_width s st) (editor_height s st) (editor_grid s st) →
  cell_at (editor_grid s st) x y = Some c →
  count_cell "start" (editor_grid s st) = 1 →
  count_cell "target" (editor_grid s st) = 1 →
  let r := App.handleCellAction x y isDrag srv w in
  let g' := editor_grid (World.app r.2) st in
  r.1 = Done tt
  ∧ (c ≠ Some (App.targetCellValue (AppState.drawMode s) (AppState.bonusValue s)) →
     SetupConfig.cells (AppState.config (World.app r.2)) = Some g'
     ∧ cell_at g' x y
       = Some (Some (App.targetCellValue (AppState.drawMode s) (AppState.bonusValue s))))
  ∧ count_cell "start" g'
    = (if decide (AppState.drawMode s = start) then 1 else 1 - holds "start" c)
  ∧ count_cell "target" g'
    = (if decide (AppState.drawMode s = target) then 1 else 1 - holds "target" c).
Proof.
  intros s Hst Hrun Hrect Hc Hs Ht. cbn zeta.
  destruct (painted_counts s st x y c start (or_introl eq_refl) Hrect Hc Hs)
    as (r & Hp & Happl & Hcs).
  destruct (painted_counts s st x y c target (or_intror eq_refl) Hrect Hc Ht)
    as (r' & Hp' & _ & Hct).
  rewrite Hp in Hp'. injection Hp' as <-.
  destruct (handleCellAction_grid srv w x y isDrag st r Hst Hrun Hp)
    as (Hd & Hcfg & Hg).
  split; [exact Hd|]. rewrite Hg. split; [|done].
  intros Hne. destruct (Happl Hne) as [newCells ->]. rewrite Hcfg. cbn.
  split; [done|]. by eapply painted_writes.
Qed.

Lemma edit_effect_on_start_and_target_witness :
  count_cell "start"
    (editor_grid (World.app
       (App.handleCellAction 1 0 false Examples.offline
          (World.mk Examples.loaded3 [])).2) Examples.sim3) = 1
  ∧ count_cell "target"
      (editor_grid (World.app
         (App.handleCellAction 1 0 false Examples.offline
            (World.mk Examples.loaded3 [])).2) Examples.sim3) = 1.
Proof.
  destruct (edit_effect_on_start_and_target Examples.offline
              (World.mk Examples.loaded3 []) 1 0 false Examples.sim3 (Some "empty"))
    as (_ & _ & Hs & Ht).
  - reflexivity.
  - reflexivity.
  - split; [reflexivity|]. repeat constructor.
  - reflexivity.
  - reflexivity.
  - reflexivity.
  - split; [exact Hs|exact Ht].
Defined.

(** Painting a wall over the start cell of the 3 x 3 world: the grid had
    one start and one target, the edit goes through, the configuration
    takes the new grid, and no start cell is left. *)
Lemma wall_over_start_leaves_no_start :
  count_cell "start" (editor_grid Examples.loaded3 Examples.sim3) = 1
  ∧ count_cell "target" (editor_grid Examples.loaded3 Examples.sim3) = 1
  ∧ cell_at (editor_grid Examples.loaded3 Examples.sim3) 0 0 = Some (Some "start")
  ∧ (App.handleCellAction 0 0 false Examples.offline
       (World.mk Examples.loaded3 [])).1 = Done tt
  ∧ SetupConfig.cells (AppState.config (World.app
      (App.handleCellAction 0 0 false Examples.offline
         (World.mk Examples.loaded3 [])).2))
    = Some [ [Some "wall";  Some "empty"; Some "empty"];
             [Some "empty"; Some "wall";  Some "empty"];
             [Some "empty"; Some "empty"; Some "target"] ]
  ∧ count_cell "start"
      (editor_grid (World.app
         (App.handleCellAction 0 0 false Examples.offline
            (World.mk Examples.loaded3 [])).2) Examples.sim3) = 0.
Proof. repeat split; reflexivity. Qed.

(* ===================================================================== *)
(** * Further properties of the client                                    *)
(* ===================================================================== *)

(* ===================================================================== *)
(** ** The allowed-actions checkboxes (ControlPanel.tsx)                  *)
(* ===================================================================== *)

Section AllowedActions.
Import ControlPanel.

Lemma isAllowed_current config b :
  isAllowed config b
  = bool_decide (b ∈ default all_actions (SetupConfig.allowed_actions config)).
Proof.
  unfold isAllowed. destruct (SetupConfig.allowed_actions config); [done|].
  cbn. symmetry. apply bool_decide_eq_true. destruct b; set_solver.
Qed.

Lemma isAllowed_with config next b :
  isAllowed (with_allowed_actions next config) b = bool_decide (b ∈ next).
Proof. done. Qed.

(** X1. Whatever box is toggled, and however, some action stays allowed
    if one was allowed before: the handler drops a change that would leave
    no action. *)
Theorem toggle_keeps_an_action (config : SetupConfig.t) (action : Action)
    (checked : bool) :
  (∃ b, isAllowed config b = true) →
  ∃ b, isAllowed (onToggle config action checked) b = true.
Proof.
  intros Hsome. unfold onToggle. cbn zeta. case_decide as Hlen; [|done].
  match type of Hlen with 0 < length ?next =>
    destruct next as [|b next'] eqn:Hnext; [cbn in Hlen; lia|] end.
  exists b. rewrite isAllowed_with. apply bool_decide_eq_true. set_solver.
Qed.

Lemma toggle_keeps_an_action_witness :
  ∃ b, isAllowed (onToggle (with_allowed_actions [LEFT] Examples.DEFAULT_CONFIG)
                    LEFT false) b = true.
Proof.
  apply (toggle_keeps_an_action (with_allowed_actions [LEFT] Examples.DEFAULT_CONFIG)
           LEFT false).
  exists LEFT. reflexivity.
Defined.

(** X2. Ticking a box allows its action and changes no other action.
    Unticking a box forbids its action and changes no other action, unless
    no other action is allowed: then the configuration stays as it is. Only
    the list of allowed actions is ever changed. *)
Theorem toggle_changes_one_action (config : SetupConfig.t) (action : Action) :
  (∀ b, isAllowed (onToggle config action true) b
        = bool_decide (b = action) || isAllowed config b)
  ∧ ((∃ c, c ≠ action ∧ isAllowed config c = true) →
     ∀ b, isAllowed (onToggle config action false) b
          = negb (bool_decide (b = action)) && isAllowed config b)
  ∧ ((∀ c, c ≠ action → isAllowed config c = false) →
     onToggle config action false = config)
  ∧ (∀ checked,
       with_allowed_actions [] (onToggle config action checked)
       = with_allowed_actions [] config).
Proof.
  split; [|split; [|split]].
  - intros b. unfold onToggle. cbn zeta.
    rewrite decide_True by (rewrite length_app; cbn; lia).
    rewrite isAllowed_with, isAllowed_current.
    apply eq_true_iff_eq. rewrite orb_true_iff, !bool_decide_eq_true. set_solver.
  - intros (c & Hc & Hall) b. rewrite isAllowed_current in Hall.
    apply bool_decide_eq_true in Hall.
    unfold onToggle. cbn zeta.
    rewrite decide_True.
    2:{ assert (c ∈ filter (λ a, a ≠ action)
                  (default all_actions (SetupConfig.allowed_actions config))) as Hin
          by (apply list_elem_of_filter; done).
        destruct (filter _ _); [by apply elem_of_nil in Hin|cbn; lia]. }
    rewrite isAllowed_with, isAllowed_current.
    apply eq_true_iff_eq. rewrite andb_true_iff, negb_true_iff,
      bool_decide_eq_false, !bool_decide_eq_true, list_elem_of_filter. tauto.
  - intros Hnone. unfold onToggle. cbn zeta.
    rewrite decide_False; [done|].
    destruct (filter _ _) as [|c rest] eqn:E; [cbn; lia|]. exfalso.
    assert (c ∈ filter (λ a, a ≠ action)
              (default all_actions (SetupConfig.allowed_actions config))) as Hin
      by (rewrite E; left).
    apply list_elem_of_filter in Hin as [Hne Hin]. specialize (Hnone c Hne).
    rewrite isAllowed_current in Hnone. by apply bool_decide_eq_false in Hnone.
  - intros checked. unfold onToggle. cbn zeta. by case_decide.
Qed.

Lemma toggle_changes_one_action_witness :
  isAllowed (onToggle Examples.DEFAULT_CONFIG UP false) UP = false
  ∧ isAllowed (onToggle Examples.DEFAULT_CONFIG UP false) DOWN = true
  ∧ onToggle (with_allowed_actions [UP] Examples.DEFAULT_CONFIG) UP false
    = with_allowed_actions [UP] Examples.DEFAULT_CONFIG.
Proof.
  pose proof (toggle_changes_one_action Examples.DEFAULT_CONFIG UP) as (_ & H2 & _ & _).
  pose proof (toggle_changes_one_action
                (with_allowed_actions [UP] Examples.DEFAULT_CONFIG) UP)
    as (_ & _ & H3 & _).
  assert (∃ c, c ≠ UP ∧ isAllowed Examples.DEFAULT_CONFIG c = true) as Hother
    by (exists DOWN; split; [discriminate|reflexivity]).
  split; [rewrite (H2 Hother UP); reflexivity|].
  split; [rewrite (H2 Hother DOWN); reflexivity|].
  apply H3. intros c Hc. destruct c; [congruence|reflexivity..].
Defined.
End AllowedActions.

(* ===================================================================== *)
(** ** Printed numbers                                                    *)
(* ===================================================================== *)

Lemma pretty_N_char_digit x : is_digit (pretty_N_char x) = true.
Proof. destruct x as [|p]; [done|]. by do 4 (destruct p as [p|p|]; try done). Qed.

Lemma pretty_N_go_digits x s :
  all_digits s = true → all_digits (pretty_N_go x s) = true.
Proof.
  revert s. induction (N.lt_wf_0 x) as [x _ IH]; intros s Hs.
  assert (x = 0 ∨ 0 < x)%N as [->|Hx] by lia.
  - by rewrite pretty_N_go_0.
  - rewrite pretty_N_go_step by done. apply IH; [by apply N.div_lt|].
    cbn. by rewrite pretty_N_char_digit.
Qed.

Lemma pretty_N_digits (x : N) : all_digits (pretty x) = true.
Proof.
  unfold pretty, pretty_N. case_decide; [done|]. by apply pretty_N_go_digits.
Qed.

Lemma pretty_nat_digits (x : nat) : all_digits (pretty x) = true.
Proof. apply pretty_N_digits. Qed.

Lemma all_digits_no_colon s : all_digits s = true → Canvas.includes_colon s = false.
Proof.
  induction s as [|c s IH]; [done|]. cbn. intros [Hc Hs]%andb_true_iff.
  rewrite IH by done. destruct (Ascii.eqb c _) eqn:E; [|done].
  apply Ascii.eqb_eq in E. by subst c.
Qed.

Lemma pretty_Z_no_colon (v : Z) : Canvas.includes_colon (pretty v) = false.
Proof.
  destruct v as [|p|p]; [done| |].
  - apply all_digits_no_colon, (pretty_N_digits (N.pos p)).
  - change (Canvas.includes_colon (pretty (N.pos p)) = false).
    apply all_digits_no_colon, (pretty_N_digits (N.pos p)).
Qed.

Lemma upto_colon_no_colon s : Canvas.includes_colon s = false → Canvas.upto_colon s = s.
Proof.
  induction s as [|c s IH]; [done|]. cbn.
  destruct (Ascii.eqb c _); [done|]. intros H. by rewrite IH.
Qed.

(** Two texts of digits followed by a comma and more text are equal only
    piece by piece. *)
Lemma digits_comma_inj a a' b b' :
  all_digits a = true → all_digits a' = true →
  a +:+ "," +:+ b = a' +:+ "," +:+ b' → a = a' ∧ b = b'.
Proof.
  revert a'. induction a as [|c a IH]; intros [|c' a'] Ha Ha' E.
  - injection E; intros Eb. split; [done|exact Eb].
  - injection E; intros _ Ec. subst c'. cbn in Ha'.
    apply andb_true_iff in Ha' as [Hd _]. vm_compute in Hd. discriminate.
  - injection E; intros _ Ec. subst c. cbn in Ha.
    apply andb_true_iff in Ha as [Hd _]. vm_compute in Hd. discriminate.
  - injection E; intros Et Ec. subst c'. cbn in Ha, Ha'.
    apply andb_true_iff in Ha as [_ Ha]. apply andb_true_iff in Ha' as [_ Ha'].
    destruct (IH a' Ha Ha' Et) as [-> ->]. done.
Qed.

(* ===================================================================== *)
(** ** Cells and keys as the canvas reads them (CanvasGrid.tsx)           *)
(* ===================================================================== *)

Lemma cType_brush (m : CellType) (v : Z) :
  Canvas.cType (App.targetCellValue m v) = CellType_str m.
Proof. by destruct m. Qed.

Lemma brush_value_not_empty (m : CellType) (v : Z) : App.targetCellValue m v ≠ "".
Proof. by destruct m. Qed.

Lemma cell_str_at (cells : Cells) (x y : nat) (s : string) :
  cell_at cells x y = Some (Some s) → s ≠ "" → Canvas.cell_str cells x y = s.
Proof.
  unfold cell_at, Canvas.cell_str, js_read. intros Hc Hs.
  destruct (cells !! y) as [row|]; [|done]. cbn in Hc. rewrite Hc. cbn.
  by rewrite decide_False.
Qed.

(** X3. The cell an edit paints is drawn as a cell of the brush's type:
    the value the editor writes, a bonus with its amount included, is read
    back by the canvas as the type of the brush. *)
Theorem painted_cell_drawn_as_brush
    (s : AppState.t) (st : SimulationState.t) (x y : nat) (newCells : Cells) :
  App.painted s st x y = Some (Some newCells) →
  Canvas.cType (Canvas.cell_str newCells x y) = CellType_str (AppState.drawMode s).
Proof.
  intros Hp. apply painted_writes in Hp.
  rewrite (cell_str_at _ _ _ _ Hp) by apply brush_value_not_empty.
  apply cType_brush.
Qed.

Lemma painted_cell_drawn_as_brush_witness :
  Canvas.cType (Canvas.cell_str
    [ [Some "start"; Some "bonus:20"; Some "empty"];
      [Some "empty"; Some "wall";  Some "empty"];
      [Some "empty"; Some "empty"; Some "target"] ] 1 0) = "bonus".
Proof.
  apply (painted_cell_drawn_as_brush
           (AppState.mk Examples.config3 (Some Examples.sim3) [] false 100
              None bonus 20 [] ∅ Examples.open_socket) Examples.sim3 1 0).
  reflexivity.
Defined.

Lemma text_safe (v : Z) :
  (Z.abs v ≤ Double.MAX_SAFE_INTEGER)%Z → Double.text v = pretty v.
Proof. intros Hv. unfold Double.text. by rewrite decide_True. Qed.

(** X4. The amount printed under a bonus cell is the amount the bonus
    brush wrote: for every amount that is a safe integer, the label read
    from the cell value is the decimal text of that amount. (Beyond the
    safe integers JS no longer prints the digits of the value.) *)
Theorem bonus_label_of_brush (bonusValue : Z) :
  (Z.abs bonusValue ≤ Double.MAX_SAFE_INTEGER)%Z →
  Canvas.bonus_label (App.targetCellValue bonus bonusValue) = Some (pretty bonusValue).
Proof.
  intros Hv. unfold Canvas.bonus_label, Canvas.split_colon_1.
  unfold App.targetCellValue. rewrite text_safe by done.
  change (Canvas.includes_colon ("bonus:" +:+ pretty bonusValue)) with true.
  change (Canvas.after_colon ("bonus:" +:+ pretty bonusValue))
    with (Some (pretty bonusValue)).
  cbn [fmap option_fmap option_map].
  by rewrite upto_colon_no_colon by apply pretty_Z_no_colon.
Qed.

Lemma bonus_label_of_brush_witness :
  Canvas.bonus_label (App.targetCellValue bonus 20) = Some "20".
Proof. apply (bonus_label_of_brush 20). by vm_compute. Defined.

(** X5. The key of a cell in the action-value table determines the cell:
    two cells with the same key are the same cell. *)
Theorem stateKey_inj (x y x' y' : nat) :
  Canvas.stateKey x y = Canvas.stateKey x' y' → x = x' ∧ y = y'.
Proof.
  unfold Canvas.stateKey. intros E.
  apply digits_comma_inj in E as [Ex Ey]; [|apply pretty_nat_digits..].
  split; by apply (inj pretty).
Qed.

Lemma stateKey_inj_witness : 3 = 3 ∧ 12 = 12.
Proof. apply (stateKey_inj 3 12 3 12). reflexivity. Defined.

(* ===================================================================== *)
(** ** Which cells show values, and how they are tinted                   *)
(* ===================================================================== *)

Section Overlay.
Local Open Scope Q_scope.
Import Canvas.

Lemma nonzero_true v : nonzero v = true ↔ ¬ v == 0.
Proof.
  unfold nonzero. rewrite negb_true_iff. split.
  - intros E. by apply Qeq_bool_neq.
  - intros Hne. destruct (Qeq_bool v 0) eqn:E; [|done].
    by apply Qeq_bool_eq in E.
Qed.

Lemma minQ_eq q :
  minQ q == Qmin (Qmin (Qmin (ActionValues.vUP q) (ActionValues.vDOWN q))
                       (ActionValues.vLEFT q)) (ActionValues.vRIGHT q).
Proof. unfold minQ. cbn zeta. by rewrite !or0_eq. Qed.

Lemma minQ_lower q a : minQ q <= ActionValues.get q a.
Proof.
  rewrite minQ_eq. destruct a; cbn.
  - do 2 (eapply Qle_trans; [apply Q.le_min_l|]). apply Q.le_min_l.
  - do 2 (eapply Qle_trans; [apply Q.le_min_l|]). apply Q.le_min_r.
  - eapply Qle_trans; [apply Q.le_min_l|]. apply Q.le_min_r.
  - apply Q.le_min_r.
Qed.

Lemma minQ_attained q : ∃ a, ActionValues.get q a == minQ q.
Proof.
  destruct (Q.min_dec (Qmin (Qmin (ActionValues.vUP q) (ActionValues.vDOWN q))
                (ActionValues.vLEFT q)) (ActionValues.vRIGHT q)) as [H3|H3];
    [|exists RIGHT; cbn; by rewrite minQ_eq, H3].
  destruct (Q.min_dec (Qmin (ActionValues.vUP q) (ActionValues.vDOWN q))
                (ActionValues.vLEFT q)) as [H2|H2];
    [|exists LEFT; cbn; by rewrite minQ_eq, H3, H2].
  destruct (Q.min_dec (ActionValues.vUP q) (ActionValues.vDOWN q)) as [H1|H1].
  - exists UP; cbn. by rewrite minQ_eq, H3, H2, H1.
  - exists DOWN; cbn. by rewrite minQ_eq, H3, H2, H1.
Qed.

Lemma some_value_nonzero q :
  existsb nonzero [ActionValues.vUP q; ActionValues.vDOWN q;
                   ActionValues.vLEFT q; ActionValues.vRIGHT q] = true
  ↔ ∃ a, ¬ ActionValues.get q a == 0.
Proof.
  cbn [existsb]. rewrite !orb_true_iff, !nonzero_true. split.
  - intros [H|[H|[H|[H|H]]]]; [by exists UP|by exists DOWN|by exists LEFT|
                                by exists RIGHT|done].
  - intros [[] H]; cbn in H; tauto.
Qed.

(** X6. A cell is treated as active, and so gets its overlay, arrow and
    numbers, exactly when one of its four values is not zero. The first two
    tests of the condition already decide it. *)
Theorem active_iff_some_value (qVals : ActionValues.t) :
  (active qVals = true ↔ ∃ a, ¬ ActionValues.get qVals a == 0)
  ∧ active qVals = nonzero (CanvasGrid.maxQ qVals) || nonzero (minQ qVals).
Proof.
  assert (nonzero (CanvasGrid.maxQ qVals) || nonzero (minQ qVals) = true →
          ∃ a, ¬ ActionValues.get qVals a == 0) as Hext.
  { rewrite orb_true_iff, !nonzero_true. intros [H|H].
    - destruct (maxQ_attained qVals) as [a Ha]. exists a. by rewrite Ha.
    - destruct (minQ_attained qVals) as [a Ha]. exists a. by rewrite Ha. }
  split.
  - unfold active. split.
    + intros [H|H]%orb_true_iff; [by apply Hext|by apply some_value_nonzero].
    + intros H. apply orb_true_iff. right. by apply some_value_nonzero.
  - unfold active.
    destruct (nonzero (CanvasGrid.maxQ qVals) || nonzero (minQ qVals)) eqn:E; [done|].
    cbn [orb]. apply not_true_is_false. intros [a Ha]%some_value_nonzero.
    apply orb_false_iff in E as [Emax Emin].
    apply negb_false_iff, Qeq_bool_eq in Emax.
    apply negb_false_iff, Qeq_bool_eq in Emin.
    apply Ha. apply Qle_antisym.
    + rewrite <- Emax. apply maxQ_upper.
    + rewrite <- Emin. apply minQ_lower.
Qed.

Lemma js_min_bounds x cap : 0 <= cap → 0 <= js_min (Qabs x / 100) cap <= cap.
Proof.
  intros Hcap. unfold js_min. split; [|apply Q.le_min_r].
  apply Q.min_glb; [|done].
  apply Qle_shift_div_l; [done|]. rewrite Qmult_0_l. apply Qabs_nonneg.
Qed.

(** X7. Whenever the per-cell overlay is painted its alpha lies between 0
    and 0.8; it is green exactly when the heat map is on and the best value
    is positive; and with the smooth heat map no per-cell overlay is
    painted at all. *)
Theorem overlay_tint_and_alpha
    (showHeatmap smoothHeatmap showMinima : bool) (qVals : ActionValues.t) :
  match overlay showHeatmap smoothHeatmap showMinima qVals with
  | Some (tint, alpha) =>
      smoothHeatmap = false
      ∧ 0 <= alpha <= 0.8
      ∧ (tint = Green ↔ showHeatmap = true ∧ 0 < CanvasGrid.maxQ qVals)
  | None => True
  end.
Proof.
  unfold overlay. cbn zeta. destruct smoothHeatmap; cbn [negb].
  { by rewrite !andb_false_r. }
  rewrite !andb_true_r. destruct showHeatmap; cbv beta iota.
  - destruct (Qlt_le_dec 0 (CanvasGrid.maxQ qVals)) as [Hpos|Hneg]; cbv beta iota.
    + split; [done|]. split; [by apply js_min_bounds|]. tauto.
    + assert (¬ 0 < CanvasGrid.maxQ qVals) by (by apply Qle_not_lt).
      destruct (showMinima && _); cbv beta iota;
        (split; [done|]; split; [by apply js_min_bounds|]);
        (split; [done|tauto]).
  - destruct (showMinima && _); cbv beta iota; [|done].
    split; [done|]. split.
    + destruct (js_min_bounds (minQ qVals) 0.4) as [H0 H1]; [done|].
      split; [done|]. eapply Qle_trans; [exact H1|done].
    + split; [done|]. by intros [? _].
Qed.
End Overlay.

(* ===================================================================== *)
(** ** Requests and their settlement                                      *)
(* ===================================================================== *)

Lemma await_done r srv w v :
  answer srv (World.log w) r = Some v →
  await r srv w
  = (Done v, World.mk (World.app w) (World.log w ++ [Requested r; Settled r true])).
Proof. unfold answer, await. intros ->. by rewrite <- app_assoc. Qed.

Lemma await_thrown r srv w :
  answer srv (World.log w) r = None →
  await r srv w
  = (Thrown, World.mk (World.app w) (World.log w ++ [Requested r; Settled r false])).
Proof. unfold answer, await. intros ->. by rewrite <- app_assoc. Qed.

Ltac step_M := erewrite run_bind by reflexivity.

(** Take the result of the [loadState] in the goal apart: it completes,
    only polls, and keeps everything but the view. *)
Ltac use_loadState l Hlog Hpoll Hkeep :=
  match goal with |- context [App.loadState ?srv ?w1] =>
    let Hd := fresh "Hd" in
    pose proof (loadState_done srv w1) as Hd;
    destruct (loadState_polls srv w1) as (l & Hlog & Hpoll);
    pose proof (loadState_keeps srv w1) as Hkeep;
    destruct (App.loadState srv w1) as [o wL]; cbn [fst snd] in *; subst o
  end.

(* ===================================================================== *)
(** ** Setting up, generating a maze, clearing the map                    *)
(* ===================================================================== *)

(** [loadState], by the answer to the state poll. *)
Lemma loadState_run srv w :
  App.loadState srv w
  = match answer srv (World.log w) ReqGetState with
    | Some st =>
        App.fetchPath srv
          (World.mk (AppState.setState (Some st) (World.app w))
             (World.log w ++ [Requested ReqGetState; Settled ReqGetState true]))
    | None =>
        (Done tt,
         World.mk (World.app w)
           (World.log w ++ [Requested ReqGetState; Settled ReqGetState false]))
    end.
Proof.
  unfold App.loadState, answer. unfold_M. cbn.
  destruct (srv _ ReqGetState) as [st|]; cbn; rewrite <- app_assoc; cbn; [|done].
  by rewrite (surjective_pairing (App.fetchPath _ _)), fetchPath_done.
Qed.

(** X9. [handleSetup] leaves the client paused with the error banner
    cleared and the configuration untouched. Its first request is the setup
    carrying the current configuration. When that is rejected the handler
    throws: nothing else is requested, and curve and state are kept. When it
    is fulfilled the curve is emptied and the state is polled again: the
    next request is the state poll; when it is answered the state is the
    one the server returned and the path is polled after it, and when it is
    rejected the state is kept and nothing more is requested. *)
Theorem setup_resets_curve (srv : Server) (w : World.t) :
  let cfg := AppState.config (World.app w) in
  let r := App.handleSetup srv w in
  AppState.isRunning (World.app r.2) = false
  ∧ AppState.error (World.app r.2) = None
  ∧ AppState.config (World.app r.2) = cfg
  ∧ ∃ (ok : bool) (rest : list Event),
      World.log r.2
      = World.log w ++ Requested (ReqSetup cfg) :: Settled (ReqSetup cfg) ok :: rest
      ∧ polls_only rest
      ∧ if ok
        then r.1 = Done tt ∧ AppState.curve (World.app r.2) = []
             ∧ ∃ (loaded : bool) (rest' : list Event),
                 rest = Requested ReqGetState :: Settled ReqGetState loaded :: rest'
                 ∧ match answer srv
                           (World.log w ++ [Requested (ReqSetup cfg);
                                            Settled (ReqSetup cfg) true])
                           ReqGetState with
                   | Some st =>
                       loaded = true
                       ∧ AppState.state (World.app r.2) = Some st
                       ∧ ∃ found, rest' = [Requested ReqGetPath;
                                           Settled ReqGetPath found]
                   | None =>
                       loaded = false
                       ∧ AppState.state (World.app r.2) = AppState.state (World.app w)
                       ∧ rest' = []
                   end
        else r.1 = Thrown ∧ rest = []
             ∧ AppState.curve (World.app r.2) = AppState.curve (World.app w)
             ∧ AppState.state (World.app r.2) = AppState.state (World.app w).
Proof.
  cbn zeta. unfold App.handleSetup. do 4 step_M.
  destruct (answer srv (World.log w) (ReqSetup (AppState.config (World.app w))))
    as [[]|] eqn:Hans.
  - erewrite run_bind by (apply await_done; exact Hans). step_M.
    rewrite loadState_run. cbn [World.log World.app].
    destruct (answer srv _ ReqGetState) as [st|].
    + match goal with |- context [App.fetchPath srv ?w2] =>
        destruct (fetchPath_log srv w2) as [found Hl];
        destruct (fetchPath_keeps srv w2) as (Hc & Hs & Hcu & Hr & _ & He & _);
        pose proof (fetchPath_done srv w2) as Hd end.
      rewrite Hc, Hs, Hcu, Hr, He, Hl, Hd. cbn.
      split_and!; try done.
      exists true, [Requested ReqGetState; Settled ReqGetState true;
                    Requested ReqGetPath; Settled ReqGetPath found].
      split_and!; try done.
      * by rewrite <- !app_assoc.
      * solve_polls.
      * exists true. eexists. split_and!; try done. by exists found.
    + cbn. split_and!; try done.
      exists true, [Requested ReqGetState; Settled ReqGetState false].
      split_and!; try done.
      * by rewrite <- !app_assoc.
      * solve_polls.
      * by exists false, [].
  - erewrite run_bind_thrown by (apply await_thrown; exact Hans). cbn.
    repeat split; try done. exists false, []. repeat split; try done.
    solve_polls.
Qed.

Lemma M_bind_assoc {A B C} (m : M A) (f : A → M B) (g : B → M C) srv w :
  ((m ≫= f) ≫= g) srv w = (m ≫= (λ a, f a ≫= g)) srv w.
Proof. unfold mbind, M_bind. by destruct (m srv w) as [[a|] w']. Qed.

Lemma fetchPath_result srv w :
  ∃ wF, App.fetchPath srv w = (Done tt, wF)
        ∧ keeps_all_but_path (World.app w) (World.app wF)
        ∧ ∃ l, World.log wF = World.log w ++ l ∧ polls_only l.
Proof.
  exists (App.fetchPath srv w).2. split; [|split].
  - rewrite (surjective_pairing (App.fetchPath srv w)) at 1.
    by rewrite fetchPath_done.
  - apply fetchPath_keeps.
  - apply fetchPath_polls.
Qed.

(** Run the [fetchPath] at the head of the goal's computation. *)
Ltac step_fetchPath wF Hkeep l Hlog Hpoll :=
  match goal with |- context [@mbind _ _ _ _ ?f App.fetchPath ?srv ?w1] =>
    let HF := fresh "HF" in
    destruct (fetchPath_result srv w1) as (wF & HF & Hkeep & l & Hlog & Hpoll);
    rewrite (run_bind App.fetchPath f srv w1 tt wF HF)
  end.

Lemma polls_only_app l1 l2 : polls_only l1 → polls_only l2 → polls_only (l1 ++ l2).
Proof. unfold polls_only. apply Forall_app_2. Qed.

(** X10. [handleGenerateMaze] always leaves the client paused. When the
    server answers with status ok, the configuration takes the cells, width
    and height of the returned grid, keeps every hyperparameter, and the
    curve is emptied; with any other status, or when the request is
    rejected, configuration, curve and state are left as they were. *)
Theorem generate_maze_adopts_grid (srv : Server) (w : World.t) :
  let r := App.handleGenerateMaze srv w in
  AppState.isRunning (World.app r.2) = false
  ∧ match answer srv (World.log w) ReqGenerateMaze with
    | Some res =>
        r.1 = Done tt
        ∧ if decide (EnvResult.status res = "ok")
          then AppState.config (World.app r.2)
               = SetupConfig.with_env (EnvResult.env res) (AppState.config (World.app w))
               ∧ AppState.curve (World.app r.2) = []
          else AppState.config (World.app r.2) = AppState.config (World.app w)
               ∧ AppState.curve (World.app r.2) = AppState.curve (World.app w)
               ∧ AppState.state (World.app r.2) = AppState.state (World.app w)
    | None =>
        r.1 = Thrown
        ∧ AppState.config (World.app r.2) = AppState.config (World.app w)
        ∧ AppState.curve (World.app r.2) = AppState.curve (World.app w)
        ∧ AppState.state (World.app r.2) = AppState.state (World.app w)
    end.
Proof.
  cbn zeta. unfold App.handleGenerateMaze. do 2 step_M.
  destruct (answer srv (World.log w) ReqGenerateMaze) as [res|] eqn:Hans.
  - erewrite run_bind by (apply (await_done ReqGenerateMaze); exact Hans).
    case_decide as Hok.
    + do 2 step_M. use_loadState l Hlog Hpoll Hkeep. cbn in Hkeep.
      destruct Hkeep as (Hcfg & Hcurve & Hrun & _). by rewrite Hcfg, Hcurve, Hrun.
    + done.
  - by erewrite run_bind_thrown by (apply (await_thrown ReqGenerateMaze); exact Hans).
Qed.

(** X11. [handleClearMap] behaves in the same way with the grid returned
    by the clear operation: paused in every case; on status ok the
    configuration takes the returned cells, width and height and the curve
    is emptied; otherwise configuration, curve and state are kept. *)
Theorem clear_map_adopts_grid (srv : Server) (w : World.t) :
  let r := App.handleClearMap srv w in
  AppState.isRunning (World.app r.2) = false
  ∧ match answer srv (World.log w) ReqClearMap with
    | Some res =>
        r.1 = Done tt
        ∧ if decide (EnvResult.status res = "ok")
          then AppState.config (World.app r.2)
               = SetupConfig.with_env (EnvResult.env res) (AppState.config (World.app w))
               ∧ AppState.curve (World.app r.2) = []
          else AppState.config (World.app r.2) = AppState.config (World.app w)
               ∧ AppState.curve (World.app r.2) = AppState.curve (World.app w)
               ∧ AppState.state (World.app r.2) = AppState.state (World.app w)
    | None =>
        r.1 = Thrown
        ∧ AppState.config (World.app r.2) = AppState.config (World.app w)
        ∧ AppState.curve (World.app r.2) = AppState.curve (World.app w)
        ∧ AppState.state (World.app r.2) = AppState.state (World.app w)
    end.
Proof.
  cbn zeta. unfold App.handleClearMap. do 2 step_M.
  destruct (answer srv (World.log w) ReqClearMap) as [res|] eqn:Hans.
  - erewrite run_bind by (apply (await_done ReqClearMap); exact Hans).
    case_decide as Hok.
    + do 2 step_M. use_loadState l Hlog Hpoll Hkeep. cbn in Hkeep.
      destruct Hkeep as (Hcfg & Hcurve & Hrun & _). by rewrite Hcfg, Hcurve, Hrun.
    + done.
  - by erewrite run_bind_thrown by (apply (await_thrown ReqClearMap); exact Hans).
Qed.

(* ===================================================================== *)
(** ** Play, pause, speed: the flag and the frame                         *)
(* ===================================================================== *)

Lemma frames_send_if_open f c :
  WSClient.frames (WSClient.send_if_open f c)
  = WSClient.frames c ++ (if WSClient.is_open c then [f] else []).
Proof.
  unfold WSClient.send_if_open, WSClient.frames, WSClient.is_open.
  destruct (WSClient.ws c) as [s|] eqn:Hws; [|by rewrite Hws].
  destruct (bool_decide _); cbn; [done|]. by rewrite Hws, app_nil_r.
Qed.

(** X12. The three control handlers change the local state whether or not
    the command can leave: [handlePlay] sets the running flag,
    [handlePause] clears it, [handleSpeedChange] stores the speed; the
    matching frame is written exactly when the socket is open. With the
    socket down the client therefore shows itself running, or at a new
    speed, although nothing was sent. *)
Theorem control_handlers_flag_and_frame (srv : Server) (w : World.t) (newSpeed : Z) :
  let c := AppState.wsClient (World.app w) in
  let sent f := WSClient.frames c ++ (if WSClient.is_open c then [f] else []) in
  ((App.handlePlay srv w).1 = Done tt
   ∧ AppState.isRunning (World.app (App.handlePlay srv w).2) = true
   ∧ WSClient.frames (AppState.wsClient (World.app (App.handlePlay srv w).2))
     = sent CmdPlay)
  ∧ ((App.handlePause srv w).1 = Done tt
     ∧ AppState.isRunning (World.app (App.handlePause srv w).2) = false
     ∧ WSClient.frames (AppState.wsClient (World.app (App.handlePause srv w).2))
       = sent CmdPause)
  ∧ ((App.handleSpeedChange newSpeed srv w).1 = Done tt
     ∧ AppState.speed (World.app (App.handleSpeedChange newSpeed srv w).2) = newSpeed
     ∧ WSClient.frames
         (AppState.wsClient (World.app (App.handleSpeedChange newSpeed srv w).2))
       = sent (CmdSetSpeed newSpeed)).
Proof.
  cbn zeta. split; [|split].
  - unfold App.handlePlay. step_M. cbn. by rewrite <- frames_send_if_open.
  - unfold App.handlePause. do 2 step_M.
    match goal with |- context [App.fetchPath ?srv ?w1] =>
      destruct (fetchPath_result srv w1) as (wF & -> & Hkeep & _) end.
    cbn in *. destruct Hkeep as (_ & _ & _ & -> & _ & _ & _ & _ & _ & ->).
    by rewrite <- frames_send_if_open.
  - unfold App.handleSpeedChange. step_M. cbn. by rewrite <- frames_send_if_open.
Qed.

(* ===================================================================== *)
(** ** A single step                                                      *)
(* ===================================================================== *)

(** X13. [handleStep] never changes the learning curve, the configuration
    or the running flag, whatever the step reports. Its first request is
    the step; when that is rejected the handler throws without polling and
    the state is kept; otherwise it only polls state and path afterwards. *)
Theorem step_keeps_curve (srv : Server) (w : World.t) :
  let r := App.handleStep srv w in
  AppState.curve (World.app r.2) = AppState.curve (World.app w)
  ∧ AppState.config (World.app r.2) = AppState.config (World.app w)
  ∧ AppState.isRunning (World.app r.2) = AppState.isRunning (World.app w)
  ∧ ∃ (ok : bool) (rest : list Event),
      World.log r.2 = World.log w ++ Requested ReqStep :: Settled ReqStep ok :: rest
      ∧ polls_only rest
      ∧ if ok then r.1 = Done tt
        else r.1 = Thrown ∧ rest = []
             ∧ AppState.state (World.app r.2) = AppState.state (World.app w).
Proof.
  cbn zeta. unfold App.handleStep.
  destruct (answer srv (World.log w) ReqStep) as [res|] eqn:Hans.
  - erewrite run_bind by (apply (await_done ReqStep); exact Hans).
    case_decide as Hterm.
    + rewrite M_bind_assoc. step_M. step_fetchPath wF HkF lF HlogF HpollF.
      use_loadState l Hlog Hpoll Hkeep. cbn in *.
      destruct HkF as (HcfgF & _ & HcurveF & HrunF & _).
      destruct Hkeep as (Hcfg & Hcurve & Hrun & _).
      rewrite Hcurve, Hcfg, Hrun, HcurveF, HcfgF, HrunF. repeat split; try done.
      exists true, (lF ++ l). rewrite Hlog, HlogF, <- !app_assoc.
      split; [done|]. split; [by apply polls_only_app|done].
    + step_M. use_loadState l Hlog Hpoll Hkeep. cbn in *.
      destruct Hkeep as (Hcfg & Hcurve & Hrun & _).
      rewrite Hcurve, Hcfg, Hrun. repeat split; try done.
      exists true, l. rewrite Hlog, <- !app_assoc. done.
  - erewrite run_bind_thrown by (apply (await_thrown ReqStep); exact Hans). cbn.
    repeat split; try done. exists false, []. repeat split; try done. solve_polls.
Qed.

(* ===================================================================== *)
(** ** Cell edits: what else they do                                      *)
(* ===================================================================== *)

Lemma cell_at_fmap (f : Slot → Slot) (cells : Cells) (x y : nat) :
  cell_at ((λ row : Row, f <$> row) <$> cells) x y = f <$> cell_at cells x y.
Proof.
  unfold cell_at. rewrite list_lookup_fmap.
  destruct (cells !! y) as [row|]; [|done]. cbn. by rewrite list_lookup_fmap.
Qed.

(** The grid an applied edit computes, in closed form. *)
Lemma painted_result (s : AppState.t) (st : SimulationState.t) (x y : nat) (c : Slot) :
  (AppState.drawMode s = start ∨ AppState.drawMode s = target →
   rectangular (editor_width s st) (editor_height s st) (editor_grid s st)) →
  cell_at (editor_grid s st) x y = Some c →
  c ≠ Some (App.targetCellValue (AppState.drawMode s) (AppState.bonusValue s)) →
  ∃ row,
    editor_grid s st !! y = Some row
    ∧ App.painted s st x y
      = Some (Some (<[y := <[x := Some (App.targetCellValue (AppState.drawMode s)
                                          (AppState.bonusValue s))]>
                             (cleared_slot (AppState.drawMode s) <$> row)]>
                      ((λ r : Row, cleared_slot (AppState.drawMode s) <$> r)
                         <$> editor_grid s st))).
Proof.
  intros Hrect Hc Hne.
  unfold App.painted. fold (editor_grid s st) (editor_width s st) (editor_height s st).
  set (g := editor_grid s st) in *.
  set (v := App.targetCellValue (AppState.drawMode s) (AppState.bonusValue s)) in *.
  unfold cell_at in Hc. destruct (g !! y) as [row|] eqn:Hrow; [|done].
  cbn in Hc. exists row. split; [done|]. cbn [mbind option_bind].
  assert (js_read row x = c) as -> by (unfold js_read; by rewrite Hc).
  rewrite decide_False by done.
  pose proof (lookup_lt_Some _ _ _ Hc) as Hx.
  destruct (decide (AppState.drawMode s = start ∨ AppState.drawMode s = target))
    as [Hclear|Hkeep].
  - specialize (Hrect Hclear).
    assert (editor_width s st ≠ 0) as HW.
    { destruct Hrect as [_ Hrows]. rewrite Forall_forall in Hrows.
      specialize (Hrows row (list_elem_of_lookup_2 _ _ _ Hrow)). cbn in Hrows. lia. }
    assert (cleared_slot (AppState.drawMode s)
            = unmark (CellType_str (AppState.drawMode s))) as ->
      by (by destruct Hclear as [->| ->]).
    assert (match AppState.drawMode s with
            | start | target =>
                App.clear_mode (CellType_str (AppState.drawMode s))
                  (editor_width s st) (editor_height s st) g
            | _ => Some g
            end
            = Some ((λ r : Row, unmark (CellType_str (AppState.drawMode s)) <$> r) <$> g))
      as -> by (by destruct Hclear as [->| ->]; rewrite clear_mode_rectangular).
    cbn [mbind option_bind]. rewrite list_lookup_fmap, Hrow. cbn.
    by rewrite js_write_in_range by (by rewrite length_fmap).
  - assert (cleared_slot (AppState.drawMode s) = id) as ->
      by (destruct (AppState.drawMode s); try done; exfalso; auto).
    assert (match AppState.drawMode s with
            | start | target =>
                App.clear_mode (CellType_str (AppState.drawMode s))
                  (editor_width s st) (editor_height s st) g
            | _ => Some g
            end = Some g) as ->
      by (destruct (AppState.drawMode s); try done; exfalso; auto).
    cbn [mbind option_bind]. rewrite Hrow. cbn.
    rewrite js_write_in_range by done.
    rewrite list_fmap_id.
    replace ((λ r : Row, id <$> r) <$> g) with g; [done|].
    symmetry. rewrite <- (list_fmap_id g) at 2. apply list_fmap_ext.
    intros i r _. by rewrite list_fmap_id.
Qed.

(** X14. An applied cell edit (state loaded, not running, the cell does
    not hold the brush value yet; for the start and target brushes the
    grid is rectangular and of the configured size) replaces only the grid
    in the configuration. In the new grid every cell other than the painted
    one is what it was, except that the start and target brushes turn the
    earlier cells of their own kind into [empty]. *)
Theorem edit_frame
    (srv : Server) (w : World.t) (x y : nat) (isDrag : bool)
    (st : SimulationState.t) (c : Slot) :
  let s := World.app w in
  AppState.state s = Some st →
  AppState.isRunning s = false →
  (AppState.drawMode s = start ∨ AppState.drawMode s = target →
   rectangular (editor_width s st) (editor_height s st) (editor_grid s st)) →
  cell_at (editor_grid s st) x y = Some c →
  c ≠ Some (App.targetCellValue (AppState.drawMode s) (AppState.bonusValue s)) →
  ∃ g',
    AppState.config (World.app (App.handleCellAction x y isDrag srv w).2)
    = SetupConfig.with_cells g' (AppState.config s)
    ∧ ∀ x' y', (x', y') ≠ (x, y) →
        cell_at g' x' y'
        = cleared_slot (AppState.drawMode s) <$> cell_at (editor_grid s st) x' y'.
Proof.
  intros s Hst Hrun Hrect Hc Hne.
  destruct (painted_result s st x y c Hrect Hc Hne) as (row & Hrow & Hp).
  destruct (handleCellAction_grid srv w x y isDrag st _ Hst Hrun Hp) as (_ & Hcfg & _).
  eexists. split; [exact Hcfg|].
  intros x' y' Hxy.
  rewrite (cell_at_insert_row _ _ 0 y x' y')
    by (rewrite length_fmap; by eapply lookup_lt_Some).
  rewrite cell_at_fmap. case_decide as Hy; [|done]. subst y'.
  rewrite list_lookup_insert_ne by congruence.
  unfold cell_at. rewrite Hrow. cbn. by rewrite list_lookup_fmap.
Qed.

Lemma edit_frame_witness :
  ∃ g',
    AppState.config (World.app
      (App.handleCellAction 1 0 true Examples.offline
         (World.mk Examples.loaded3 [])).2)
    = SetupConfig.with_cells g' Examples.config3
    ∧ cell_at g' 0 0 = Some (Some "start").
Proof.
  destruct (edit_frame Examples.offline (World.mk Examples.loaded3 []) 1 0 true
              Examples.sim3 (Some "empty")) as (g' & Hcfg & Hframe).
  - reflexivity.
  - reflexivity.
  - intros [H|H]; discriminate H.
  - reflexivity.
  - discriminate.
  - exists g'. split; [exact Hcfg|].
    rewrite (Hframe 0 0) by discriminate. reflexivity.
Defined.

Lemma loadState_state_some srv w :
  is_Some (AppState.state (World.app w)) →
  is_Some (AppState.state (World.app (App.loadState srv w).2)).
Proof.
  intros Hsome. unfold App.loadState. unfold_M. cbn.
  destruct (srv _ ReqGetState) as [st|]; cbn; [|done].
  match goal with |- context [App.fetchPath srv ?w1] =>
    destruct (fetchPath_result srv w1) as (wF & -> & Hkeep & _) end.
  cbn in *. destruct Hkeep as (_ & -> & _). by eexists.
Qed.

(** The synchronisation that follows a click: it never throws, it keeps
    the editing state, and its log is the setup request followed by
    polls. *)
Lemma sync_after_edit srv w newConfig :
  let r := try_catch (_ ← await (ReqSetup newConfig); App.loadState) srv w in
  r.1 = Done tt
  ∧ AppState.config (World.app r.2) = AppState.config (World.app w)
  ∧ AppState.isRunning (World.app r.2) = AppState.isRunning (World.app w)
  ∧ AppState.drawMode (World.app r.2) = AppState.drawMode (World.app w)
  ∧ AppState.bonusValue (World.app r.2) = AppState.bonusValue (World.app w)
  ∧ (is_Some (AppState.state (World.app w)) →
     is_Some (AppState.state (World.app r.2)))
  ∧ ∃ (ok : bool) (rest : list Event),
      World.log r.2
      = World.log w ++ Requested (ReqSetup newConfig)
          :: Settled (ReqSetup newConfig) ok :: rest
      ∧ polls_only rest ∧ (ok = false → rest = []).
Proof.
  cbn zeta. unfold try_catch.
  destruct (answer srv (World.log w) (ReqSetup newConfig)) as [[]|] eqn:Hans.
  - erewrite run_bind by (apply (await_done (ReqSetup newConfig)); exact Hans).
    match goal with |- context [App.loadState srv ?w1] =>
      pose proof (loadState_state_some srv w1) as Hsome end.
    use_loadState l Hlog Hpoll Hkeep. cbn in *.
    destruct Hkeep as (-> & _ & -> & _ & _ & -> & -> & _).
    repeat split; try done. exists true, l. by rewrite Hlog, <- app_assoc.
  - erewrite run_bind_thrown by (apply (await_thrown (ReqSetup newConfig)); exact Hans).
    cbn. repeat split; try done. exists false, []. repeat split; try done.
    solve_polls.
Qed.

Lemma painted_already (s : AppState.t) (st : SimulationState.t) (x y : nat) :
  cell_at (editor_grid s st) x y
  = Some (Some (App.targetCellValue (AppState.drawMode s) (AppState.bonusValue s))) →
  App.painted s st x y = Some None.
Proof.
  unfold cell_at, App.painted. fold (editor_grid s st). intros Hc.
  destruct (editor_grid s st !! y) as [row|]; [|done]. cbn in *.
  unfold js_read. rewrite Hc. cbn. by rewrite decide_True.
Qed.

(** X15. Repeating a cell edit changes nothing: once an edit at a cell
    has completed, the same edit at the same cell (dragging or clicking,
    whatever the server answers) returns at once, with the client state as
    it was and no request sent. *)
Theorem edit_twice_is_once
    (srv srv' : Server) (w : World.t) (x y : nat) (isDrag isDrag' : bool) :
  (App.handleCellAction x y isDrag srv w).1 = Done tt →
  App.handleCellAction x y isDrag' srv' (App.handleCellAction x y isDrag srv w).2
  = (Done tt, (App.handleCellAction x y isDrag srv w).2).
Proof.
  intros Hdone.
  destruct (AppState.state (World.app w)) as [st|] eqn:Hst.
  2:{ assert (App.handleCellAction x y isDrag srv w = (Done tt, w)) as ->
        by (unfold App.handleCellAction; step_M; by rewrite Hst).
      cbn. unfold App.handleCellAction. step_M. by rewrite Hst. }
  destruct (AppState.isRunning (World.app w)) eqn:Hrun.
  { assert (App.handleCellAction x y isDrag srv w = (Done tt, w)) as ->
      by (unfold App.handleCellAction; step_M; by rewrite Hst, Hrun).
    cbn. unfold App.handleCellAction. step_M. by rewrite Hst, Hrun. }
  destruct (App.painted (World.app w) st x y) as [[newCells|]|] eqn:Hp.
  - (* applied: the cell now holds the brush value *)
    pose proof (painted_writes _ _ _ _ _ Hp) as Hcell. clear Hdone.
    set (newConfig := SetupConfig.with_cells newCells (AppState.config (World.app w))).
    set (w1 := World.mk (AppState.setConfig newConfig (World.app w)) (World.log w)).
    assert (App.handleCellAction x y isDrag srv w
            = (if isDrag then (mret tt : M unit)
               else try_catch (_ ← await (ReqSetup newConfig); App.loadState)) srv w1)
      as -> by (unfold App.handleCellAction; step_M; rewrite Hst, Hrun, Hp; by step_M).
    assert (∀ w2 : World.t,
      AppState.config (World.app w2) = newConfig →
      AppState.isRunning (World.app w2) = false →
      AppState.drawMode (World.app w2) = AppState.drawMode (World.app w) →
      AppState.bonusValue (World.app w2) = AppState.bonusValue (World.app w) →
      is_Some (AppState.state (World.app w2)) →
      App.handleCellAction x y isDrag' srv' w2 = (Done tt, w2)) as Hagain.
    { intros w2 Hcfg Hrun2 Hdm Hbv [st2 Hst2].
      unfold App.handleCellAction. step_M. rewrite Hst2, Hrun2.
      rewrite painted_already; [done|].
      unfold editor_grid. rewrite Hcfg, Hdm, Hbv. exact Hcell. }
    destruct isDrag.
    + change ((mret tt : M unit) srv w1) with (Done tt, w1). cbn [snd].
      apply Hagain; by eauto.
    + destruct (sync_after_edit srv w1 newConfig)
        as (_ & Hcfg & Hrun2 & Hdm & Hbv & Hsome & _).
      apply Hagain; try done.
      * by rewrite Hrun2.
      * apply Hsome. cbn. by eauto.
  - (* the cell held the brush value already *)
    assert (App.handleCellAction x y isDrag srv w = (Done tt, w)) as ->
      by (unfold App.handleCellAction; step_M; by rewrite Hst, Hrun, Hp).
    cbn. unfold App.handleCellAction. step_M. by rewrite Hst, Hrun, Hp.
  - (* the edit threw *)
    exfalso. revert Hdone. unfold App.handleCellAction. step_M.
    by rewrite Hst, Hrun, Hp.
Qed.

Lemma edit_twice_is_once_witness :
  App.handleCellAction 1 0 true Examples.offline
    (App.handleCellAction 1 0 false Examples.offline (World.mk Examples.loaded3 [])).2
  = (Done tt,
     (App.handleCellAction 1 0 false Examples.offline (World.mk Examples.loaded3 [])).2).
Proof.
  apply (edit_twice_is_once Examples.offline Examples.offline
           (World.mk Examples.loaded3 []) 1 0 false true).
  reflexivity.
Defined.

(** X16. A drag edit never sends a request. A click edit that is applied
    never throws: it sends the setup request carrying the new
    configuration, and after it only polls (nothing at all when the setup
    was rejected). *)
Theorem edit_requests
    (srv : Server) (w : World.t) (x y : nat) :
  World.log (App.handleCellAction x y true srv w).2 = World.log w
  ∧ ∀ st newCells,
      AppState.state (World.app w) = Some st →
      AppState.isRunning (World.app w) = false →
      App.painted (World.app w) st x y = Some (Some newCells) →
      let newConfig := SetupConfig.with_cells newCells (AppState.config (World.app w)) in
      (App.handleCellAction x y false srv w).1 = Done tt
      ∧ ∃ (ok : bool) (rest : list Event),
          World.log (App.handleCellAction x y false srv w).2
          = World.log w ++ Requested (ReqSetup newConfig)
              :: Settled (ReqSetup newConfig) ok :: rest
          ∧ polls_only rest ∧ (ok = false → rest = []).
Proof.
  split.
  - unfold App.handleCellAction. step_M.
    destruct (AppState.state (World.app w)) as [st|]; [|done].
    destruct (AppState.isRunning (World.app w)); [done|].
    by destruct (App.painted (World.app w) st x y) as [[newCells|]|].
  - intros st newCells Hst Hrun Hp newConfig.
    unfold App.handleCellAction. step_M. rewrite Hst, Hrun, Hp. step_M.
    match goal with |- context [try_catch ?m srv ?w1] =>
      destruct (sync_after_edit srv w1 newConfig) as (Hd & _ & _ & _ & _ & _ & Hlog) end.
    split; [exact Hd|exact Hlog].
Qed.

Lemma edit_requests_witness :
  World.log (App.handleCellAction 1 0 false Examples.offline
               (World.mk Examples.loaded3 [])).2
  = [Requested (ReqSetup (SetupConfig.with_cells
       [ [Some "start"; Some "wall"; Some "empty"];
         [Some "empty"; Some "wall";  Some "empty"];
         [Some "empty"; Some "empty"; Some "target"] ] Examples.config3));
     Settled (ReqSetup (SetupConfig.with_cells
       [ [Some "start"; Some "wall"; Some "empty"];
         [Some "empty"; Some "wall";  Some "empty"];
         [Some "empty"; Some "empty"; Some "target"] ] Examples.config3)) false].
Proof.
  destruct (edit_requests Examples.offline (World.mk Examples.loaded3 []) 1 0)
    as [_ H].
  destruct (H Examples.sim3
              [ [Some "start"; Some "wall"; Some "empty"];
                [Some "empty"; Some "wall";  Some "empty"];
                [Some "empty"; Some "empty"; Some "target"] ]
              eq_refl eq_refl eq_refl) as (_ & ok & rest & Hlog & _ & _).
  reflexivity.
Defined.

Lemma foldl_option_None {A B} (f : A → B → option A) (l : list B) :
  foldl (λ acc b, a ← acc; f a b) None l = None.
Proof. by induction l. Qed.

Lemma clear_mode_short (mode : string) (W H : nat) (cells : Cells) :
  W ≠ 0 → length cells < H → App.clear_mode mode W H cells = None.
Proof.
  intros HW Hlen. unfold App.clear_mode.
  replace H with (length cells + S (H - length cells - 1)) by lia.
  rewrite seq_app, foldl_app, clear_mode_prefix by (done || lia).
  rewrite take_ge, drop_ge, app_nil_r by lia.
  cbn [seq foldl Nat.add mbind option_bind]. rewrite decide_False by done.
  rewrite (lookup_ge_None_2 _ (length cells)) by (by rewrite length_fmap).
  cbn [mbind option_bind].
  apply (foldl_option_None
           (λ cs ry, if decide (W = 0) then Some cs
                     else row ← cs !! ry; Some (<[ry := App.clear_row mode W row]> cs))).
Qed.

(** X17. When the configured height exceeds the number of rows of the
    grid being edited (the height field was changed without resizing), an
    edit with the start or target brush on a cell that does not hold the
    brush value throws, and the client state is left exactly as it was: no
    cell is changed and no request is sent. *)
Theorem edit_throws_on_short_grid
    (srv : Server) (w : World.t) (x y : nat) (isDrag : bool)
    (st : SimulationState.t) (c : Slot) :
  let s := World.app w in
  AppState.state s = Some st →
  AppState.isRunning s = false →
  AppState.drawMode s = start ∨ AppState.drawMode s = target →
  cell_at (editor_grid s st) x y = Some c →
  c ≠ Some (App.targetCellValue (AppState.drawMode s) (AppState.bonusValue s)) →
  editor_width s st ≠ 0 →
  length (editor_grid s st) < editor_height s st →
  App.handleCellAction x y isDrag srv w = (Thrown, w).
Proof.
  intros s Hst Hrun Hmode Hc Hne HW Hshort.
  assert (App.painted s st x y = None) as Hp.
  { unfold App.painted.
    fold (editor_grid s st) (editor_width s st) (editor_height s st).
    unfold cell_at in Hc. destruct (editor_grid s st !! y) as [row|]; [|done].
    cbn in Hc. cbn [mbind option_bind].
    assert (js_read row x = c) as -> by (unfold js_read; by rewrite Hc).
    rewrite decide_False by done.
    by destruct Hmode as [->| ->]; rewrite clear_mode_short. }
  unfold App.handleCellAction. step_M. fold s. by rewrite Hst, Hrun, Hp.
Qed.

Lemma edit_throws_on_short_grid_witness :
  App.handleCellAction 2 0 false Examples.offline
    (World.mk (AppState.mk (SetupConfig.with_env (GridState.mk 3 4 Examples.grid3)
                              Examples.config3)
                 (Some Examples.sim3) [] false 100 None start 20 [] ∅
                 Examples.open_socket) [])
  = (Thrown,
     World.mk (AppState.mk (SetupConfig.with_env (GridState.mk 3 4 Examples.grid3)
                              Examples.config3)
                 (Some Examples.sim3) [] false 100 None start 20 [] ∅
                 Examples.open_socket) []).
Proof.
  apply (edit_throws_on_short_grid Examples.offline _ 2 0 false Examples.sim3
           (Some "empty")).
  - reflexivity.
  - reflexivity.
  - left. reflexivity.
  - reflexivity.
  - discriminate.
  - discriminate.
  - vm_compute. lia.
Defined.

(* ===================================================================== *)
(** ** Update messages: what they change and what they leave              *)
(* ===================================================================== *)



(** X19. With a state loaded, the render that follows an [update]
    message fails exactly when the message's [grid_update] names a row the
    grid does not have. When the render goes through, the state holds the
    position, episode, step count, reward and epsilon of the message and
    the client's table, the width and height of the grid are kept, and the
    update version has moved to a value different from the one before, so
    that the canvas is redrawn. *)
Theorem update_installs_tick
    (srv : Server) (w : World.t) (data : UpdateMsg.t) (prev : SimulationState.t) :
  AppState.state (World.app w) = Some prev →
  let r := App.onMessage (MsgUpdate data) srv w in
  (r.1 = Done tt
   ↔ match UpdateMsg.grid_update data with
     | Some pos =>
         is_Some (GridState.cells (SimulationState.env prev) !! AgentPos.y pos)
     | None => True
     end)
  ∧ (r.1 = Done tt →
     ∃ st',
       AppState.state (World.app r.2) = Some st'
       ∧ SimulationState.agent_pos st' = UpdateMsg.agent_pos data
       ∧ SimulationState.episode st' = UpdateMsg.episode data
       ∧ SimulationState.steps st' = UpdateMsg.steps data
       ∧ SimulationState.total_reward st' = UpdateMsg.total_reward data
       ∧ SimulationState.epsilon st' = UpdateMsg.epsilon data
       ∧ SimulationState.q_table st'
         = App.merge_q data (AppState.qTableRef (World.app w))
       ∧ GridState.width (SimulationState.env st')
         = GridState.width (SimulationState.env prev)
       ∧ GridState.height (SimulationState.env st')
         = GridState.height (SimulationState.env prev)
       ∧ SimulationState.update_version st'
         = Some (App.next_version (SimulationState.update_version prev))
       ∧ SimulationState.update_version st' ≠ SimulationState.update_version prev).
Proof.
  intros Hst. cbn zeta. split.
  - rewrite onMessage_update_done. unfold grid_stage, tick_stage. cbn.
    rewrite Hst. cbn.
    destruct (UpdateMsg.grid_update data) as [pos|].
    + unfold App.revert_cell. cbn.
      destruct (GridState.cells (SimulationState.env prev) !! AgentPos.y pos)
        as [row|]; cbn.
      * split; intros _; [by exists row|by eexists].
      * split; intros [? ?]; done.
    + split; [done|]. intros _. by eexists.
  - intros Hdone.
    pose proof (onMessage_update_outcome srv w data) as H. cbn zeta in H.
    pose proof (next_version_differs (SimulationState.update_version prev)) as Hv.
    destruct (grid_stage data (tick_stage data (World.app w))) as [s2|] eqn:Hg.
    2:{ destruct H as (Hthrown & _). by rewrite Hthrown in Hdone. }
    destruct H as (_ & Hk & _).
    destruct Hk as (_ & -> & _).
    revert Hg. unfold update_result, override_stage, override_with, grid_stage,
      tick_stage. cbn. rewrite Hst. cbn.
    destruct (UpdateMsg.grid_update data) as [pos|]; cbn;
      [destruct (App.revert_cell _ _ _) as [newCells|]; cbn; [|done]|];
      intros [= <-];
      destruct (UpdateMsg.episode_done data), (UpdateMsg.full_grid data),
        (UpdateMsg.respawn_bonuses data),
        (SetupConfig.cells (AppState.config (World.app w)));
      cbn; eexists; (split; [reflexivity|]); cbn; repeat split; done.
Qed.

Lemma update_installs_tick_witness :
  ∃ st',
    AppState.state (World.app
      (App.onMessage (MsgUpdate Examples.tick_collect) Examples.offline
         (World.mk Examples.loadedB [])).2) = Some st'
    ∧ SimulationState.steps st' = 4%Z
    ∧ SimulationState.update_version st' = Some 1%Z.
Proof.
  destruct (update_installs_tick Examples.offline (World.mk Examples.loadedB [])
              Examples.tick_collect Examples.simB eq_refl) as [_ H].
  destruct (H eq_refl)
    as (st' & Hst & _ & _ & Hsteps & _ & _ & _ & _ & _ & Hver & _).
  exists st'. split; [exact Hst|]. split; [exact Hsteps|exact Hver].
Defined.

(** X20. No [update] message touches the controls of the client: the
    configuration, the running flag, the speed, the error, the brush and
    the socket are as before. It sends nothing on the socket, and its only
    possible request is the poll of the path after a closed episode. *)
Theorem update_keeps_controls (srv : Server) (w : World.t) (data : UpdateMsg.t) :
  let r := App.onMessage (MsgUpdate data) srv w in
  same_controls (World.app w) (World.app r.2)
  ∧ ∃ l, World.log r.2 = World.log w ++ l
         ∧ (l = []
            ∨ UpdateMsg.episode_done data = true
              ∧ ∃ ok, l = [Requested ReqGetPath; Settled ReqGetPath ok]).
Proof.
  cbn zeta.
  pose proof (onMessage_update_outcome srv w data) as H. cbn zeta in H.
  assert (∀ s, same_controls s (tick_stage data s)) as Htick by done.
  assert (∀ s s2, grid_stage data s = Some s2 → same_controls s s2) as Hgrid.
  { intros s s2. unfold grid_stage.
    destruct (UpdateMsg.grid_update data), (AppState.state s); cbn;
      try destruct (App.revert_cell _ _ _); cbn; by intros [= <-]. }
  assert (∀ cfg s, same_controls s (override_stage data cfg s)) as Hover.
  { intros cfg s. unfold override_stage, override_with.
    by destruct (UpdateMsg.full_grid data), (UpdateMsg.respawn_bonuses data),
      (SetupConfig.cells cfg). }
  destruct (grid_stage data (tick_stage data (World.app w))) as [s2|] eqn:Hg.
  - destruct H as (_ & Hk & Hlog). split.
    + destruct Hk as (Hc & _ & _ & Hr & Hs & He & Hd & Hb & _ & Hw).
      unfold same_controls. rewrite Hc, Hr, Hs, He, Hd, Hb, Hw.
      specialize (Hgrid _ _ Hg). specialize (Htick (World.app w)).
      specialize (Hover (AppState.config (World.app w)) s2).
      unfold update_result, same_controls in *.
      destruct (UpdateMsg.episode_done data); cbn;
        destruct Hover as (->&->&->&->&->&->&->);
        destruct Hgrid as (->&->&->&->&->&->&->); exact Htick.
    + destruct (UpdateMsg.episode_done data).
      * destruct Hlog as [ok Hlog]. eexists. split; [exact Hlog|]. right. eauto.
      * destruct Hlog as [Hlog _]. exists []. rewrite app_nil_r. auto.
  - destruct H as (_ & Happ & Hlog). rewrite Happ. split; [done|].
    destruct (UpdateMsg.episode_done data).
    + destruct Hlog as [ok Hlog]. eexists. split; [exact Hlog|]. right. eauto.
    + exists []. rewrite app_nil_r. auto.
Qed.

(** X21. Where the grid comes from after an [update] message that did not
    throw: the server's [full_grid] when the message carries one; otherwise
    the grid of the client's configuration when the bonuses respawn and the
    configuration has a grid; otherwise the grid the client had, with the
    cell of [grid_update] (if any) reverted. *)
Theorem update_grid_source
    (srv : Server) (w : World.t) (data : UpdateMsg.t) (prev : SimulationState.t) :
  AppState.state (World.app w) = Some prev →
  (App.onMessage (MsgUpdate data) srv w).1 = Done tt →
  ∃ st',
    AppState.state (World.app (App.onMessage (MsgUpdate data) srv w).2) = Some st'
    ∧ Some (GridState.cells (SimulationState.env st'))
      = match UpdateMsg.full_grid data,
              (if UpdateMsg.respawn_bonuses data
               then SetupConfig.cells (AppState.config (World.app w)) else None),
              UpdateMsg.grid_update data with
        | Some g, _, _ => Some g
        | None, Some c, _ => Some c
        | None, None, Some pos =>
            App.revert_cell (AgentPos.x pos) (AgentPos.y pos)
              (GridState.cells (SimulationState.env prev))
        | None, None, None => Some (GridState.cells (SimulationState.env prev))
        end.
Proof.
  intros Hst Hdone.
  pose proof (onMessage_update_outcome srv w data) as H. cbn zeta in H.
  destruct (grid_stage data (tick_stage data (World.app w))) as [s2|] eqn:Hg;
    [|by destruct H as (Hthrown & _); rewrite Hthrown in Hdone].
  destruct H as (_ & Hk & _). destruct Hk as (_ & -> & _).
  revert Hg. unfold update_result, override_stage, override_with, grid_stage,
    tick_stage. cbn. rewrite Hst. cbn.
  destruct (UpdateMsg.grid_update data) as [pos|]; cbn;
    [destruct (App.revert_cell _ _ _) as [newCells|]; cbn; [|done]|];
    intros [= <-];
    destruct (UpdateMsg.episode_done data), (UpdateMsg.full_grid data),
      (UpdateMsg.respawn_bonuses data),
      (SetupConfig.cells (AppState.config (World.app w)));
    cbn; eexists; (split; [reflexivity|]); done.
Qed.

Lemma update_grid_source_witness :
  ∃ st',
    AppState.state (World.app
      (App.onMessage (MsgUpdate Examples.tick_collect_respawn) Examples.offline
         (World.mk Examples.loadedB [])).2) = Some st'
    ∧ GridState.cells (SimulationState.env st') = Examples.gridB.
Proof.
  destruct (update_grid_source Examples.offline (World.mk Examples.loadedB [])
              Examples.tick_collect_respawn Examples.simB eq_refl eq_refl)
    as (st' & Hst & Hcells).
  exists st'. split; [exact Hst|]. by injection Hcells.
Defined.

(** X22. An [update] message in the middle of an episode leaves the curve
    and the displayed path alone. One that closes an episode polls the path
    once: the displayed path becomes the server's answer, and stays as it
    was when that request fails. *)
Theorem update_path (srv : Server) (w : World.t) (data : UpdateMsg.t) :
  (App.onMessage (MsgUpdate data) srv w).1 = Done tt →
  let r := App.onMessage (MsgUpdate data) srv w in
  AppState.optimalPath (World.app r.2)
  = (if UpdateMsg.episode_done data
     then default (AppState.optimalPath (World.app w))
            (answer srv (World.log w) ReqGetPath)
     else AppState.optimalPath (World.app w))
  ∧ (UpdateMsg.episode_done data = false →
     AppState.curve (World.app r.2) = AppState.curve (World.app w)).
Proof.
  intros Hdone. cbn zeta. revert Hdone. rewrite onMessage_update_stages.
  assert (∀ s2, grid_stage data (tick_stage data (World.app w)) = Some s2 →
            AppState.optimalPath (override_stage data (AppState.config (World.app w)) s2)
            = AppState.optimalPath (World.app w)
            ∧ AppState.curve (override_stage data (AppState.config (World.app w)) s2)
              = AppState.curve (World.app w)) as Hpure.
  { intros s2. unfold override_stage, override_with, grid_stage, tick_stage. cbn.
    destruct (UpdateMsg.grid_update data), (AppState.state (World.app w)); cbn;
      try destruct (App.revert_cell _ _ _); cbn; try done; intros [= <-];
      by destruct (UpdateMsg.full_grid data), (UpdateMsg.respawn_bonuses data),
        (SetupConfig.cells (AppState.config (World.app w))). }
  destruct (grid_stage data (tick_stage data (World.app w))) as [s2|]; [|done].
  destruct (Hpure s2 eq_refl) as [Hp Hc]. cbn zeta.
  destruct (UpdateMsg.episode_done data).
  - intros _. rewrite fetchPath_run. unfold answer. cbn.
    destruct (srv _ ReqGetPath); cbn; [done|]. split; [exact Hp|done].
  - intros _. cbn. split; [exact Hp|]. intros _. exact Hc.
Qed.

Lemma update_path_witness :
  AppState.optimalPath (World.app
    (App.onMessage (MsgUpdate Examples.tick_collect) Examples.offline
       (World.mk Examples.loadedB [])).2) = [].
Proof.
  apply (update_path Examples.offline (World.mk Examples.loadedB [])
           Examples.tick_collect eq_refl).
Defined.

(* ===================================================================== *)
(** ** Turbo: what it stops and what it keeps                             *)
(* ===================================================================== *)

(** X23. Whatever the server answers, a turbo run leaves the client
    paused, writes the pause frame exactly when the socket is open, and
    keeps configuration, speed, error and brush. Unless the run reports
    status done, the curve, the simulation state and the displayed path are
    those from before; the handler throws exactly when one of its two
    requests is rejected. *)
Theorem turbo_stops_and_keeps (srv : Server) (w : World.t) (count : Z) :
  let r := App.handleTurbo count srv w in
  let push := ReqUpdateConfig (AppState.config (World.app w)) in
  let pushed := answer srv (World.log w) push in
  let ran := answer srv (World.log w ++ [Requested push; Settled push true])
               (ReqTurbo count) in
  AppState.isRunning (World.app r.2) = false
  ∧ AppState.wsClient (World.app r.2) = WSClient.pause (AppState.wsClient (World.app w))
  ∧ AppState.config (World.app r.2) = AppState.config (World.app w)
  ∧ AppState.speed (World.app r.2) = AppState.speed (World.app w)
  ∧ AppState.error (World.app r.2) = AppState.error (World.app w)
  ∧ AppState.drawMode (World.app r.2) = AppState.drawMode (World.app w)
  ∧ AppState.bonusValue (World.app r.2) = AppState.bonusValue (World.app w)
  ∧ (r.1 = Thrown ↔ pushed = None ∨ ran = None)
  ∧ ((∀ res, ran = Some res → TurboResult.status res ≠ "done") ∨ pushed = None →
     AppState.curve (World.app r.2) = AppState.curve (World.app w)
     ∧ AppState.state (World.app r.2) = AppState.state (World.app w)
     ∧ AppState.optimalPath (World.app r.2) = AppState.optimalPath (World.app w)).
Proof.
  cbn zeta. unfold answer. rewrite handleTurbo_cases. cbn zeta.
  replace (World.log w ++ [Requested (ReqUpdateConfig (AppState.config (World.app w)));
                           Settled (ReqUpdateConfig (AppState.config (World.app w))) true])
    with ((World.log w ++ [Requested (ReqUpdateConfig (AppState.config (World.app w)))])
          ++ [Settled (ReqUpdateConfig (AppState.config (World.app w))) true])
    by by rewrite <- app_assoc.
  destruct (srv _ (ReqUpdateConfig _)) as [[]|]; cbn.
  - destruct (srv _ (ReqTurbo count)) as [res|]; cbn.
    + destruct (decide (TurboResult.status res = "done")) as [Hst|Hst]; cbn.
      * match goal with |- context [App.loadState srv ?w1] =>
          pose proof (loadState_keeps srv w1) as Hk;
          pose proof (loadState_done srv w1) as Hd end.
        destruct Hk as (-> & _ & -> & -> & -> & -> & -> & _ & ->). rewrite Hd. cbn.
        split_and!; try done.
        -- split; [done|by intros [|]].
        -- intros [Hn|Hn]; [|done]. by destruct (Hn res).
      * split_and!; try done. split; [done|by intros [|]].
    + split_and!; try done. split; [by right|done].
  - split_and!; try done. split; [by left|done].
Qed.

(* ===================================================================== *)
(** ** Keyboard shortcuts                                                 *)
(* ===================================================================== *)

Lemma handlePlay_run srv w :
  App.handlePlay srv w
  = (Done tt,
     World.mk (AppState.set_wsClient (WSClient.play (AppState.wsClient (World.app w)))
                 (AppState.setIsRunning true (World.app w)))
       (World.log w)).
Proof. done. Qed.

Lemma handlePause_run srv w :
  App.handlePause srv w
  = App.fetchPath srv
      (World.mk (AppState.set_wsClient (WSClient.pause (AppState.wsClient (World.app w)))
                   (AppState.setIsRunning false (World.app w)))
         (World.log w)).
Proof. done. Qed.

Lemma handleSpeedChange_run srv w v :
  App.handleSpeedChange v srv w
  = (Done tt,
     World.mk (AppState.set_wsClient (WSClient.setSpeed v (AppState.wsClient (World.app w)))
                 (AppState.setSpeed v (World.app w)))
       (World.log w)).
Proof. done. Qed.

(** Decide the comparisons of the pressed key with the shortcut keys. *)
Ltac decide_keys :=
  repeat match goal with
         | |- context [decide (?a = ?b)] => destruct (decide (a = b)); try done
         end.

(** The key handler, key by key. *)
Lemma handleKeyDown_space srv w e ls :
  KeyboardEvent.key e = " " → Keys.isInput e = false →
  Keys.handleKeyDown e ls srv w
  = (Done ls, ((if AppState.isRunning (World.app w)
                then App.handlePause else App.handlePlay) srv w).2).
Proof.
  intros Hkey Hin. unfold Keys.handleKeyDown. rewrite Hin, Hkey.
  decide_keys.
  rewrite bool_decide_eq_false_2 by done.
  unfold_M. cbn.
  destruct (AppState.isRunning (World.app w)).
  - rewrite (surjective_pairing (App.handlePause srv w)).
    rewrite handlePause_run at 1. by rewrite fetchPath_done.
  - by rewrite handlePlay_run.
Qed.

Lemma handleKeyDown_arrow srv w e ls :
  KeyboardEvent.key e = "ArrowRight" → Keys.isInput e = false →
  Keys.handleKeyDown e ls srv w
  = (Done ls, if AppState.isRunning (World.app w) then w
              else (App.handleStep srv w).2).
Proof.
  intros Hkey Hin. unfold Keys.handleKeyDown. rewrite Hin, Hkey.
  decide_keys.
  rewrite bool_decide_eq_false_2 by done.
  unfold spawn. unfold_M. cbn.
  destruct (AppState.isRunning (World.app w)); cbn; [by destruct w|].
  by destruct (App.handleStep srv w).
Qed.

Lemma handleKeyDown_shift srv w e ls :
  KeyboardEvent.key e = "Shift" → Keys.isInput e = false →
  Keys.handleKeyDown e ls srv w
  = if KeyboardEvent.repeat e then (Done ls, w)
    else (Done (AppState.speed (World.app w)), (App.handleSpeedChange 0 srv w).2).
Proof.
  intros Hkey Hin. unfold Keys.handleKeyDown. rewrite Hin, Hkey.
  decide_keys.
  rewrite bool_decide_eq_false_2 by done.
  unfold_M. cbn.
  destruct (KeyboardEvent.repeat e); cbn; by destruct w.
Qed.

Lemma handleKeyDown_enter srv w e ls :
  KeyboardEvent.key e = "Enter" → Keys.isInput e = false →
  Keys.handleKeyDown e ls srv w
  = (Done ls, if KeyboardEvent.ctrlKey e && KeyboardEvent.shiftKey e
              then (App.handleTurbo 1000 srv w).2 else w).
Proof.
  intros Hkey Hin. unfold Keys.handleKeyDown. rewrite Hin, Hkey.
  decide_keys.
  rewrite bool_decide_eq_true_2 by done.
  unfold spawn. unfold_M. cbn.
  destruct (KeyboardEvent.ctrlKey e), (KeyboardEvent.shiftKey e); cbn;
    try by destruct w.
  by destruct (App.handleTurbo 1000 srv w).
Qed.

Lemma handleKeyDown_other srv w e ls :
  KeyboardEvent.key e ∉ [" "; "ArrowRight"; "Shift"; "Enter"] →
  Keys.handleKeyDown e ls srv w = (Done ls, w).
Proof.
  intros Hkey. unfold Keys.handleKeyDown.
  destruct (Keys.isInput e); [done|].
  decide_keys; try set_solver.
  rewrite bool_decide_eq_false_2 by set_solver.
  unfold_M. cbn. by destruct w.
Qed.

(** X24. The space bar toggles the simulation: pressed outside a text
    field it pauses a running client and starts a paused one, and writes
    the matching frame exactly when the socket is open. Speed,
    configuration and the remembered speed are untouched. *)
Theorem space_toggles_running
    (srv : Server) (w : World.t) (e : KeyboardEvent.t) (lastSpeed : Z) :
  KeyboardEvent.key e = " " → Keys.isInput e = false →
  let r := Keys.handleKeyDown e lastSpeed srv w in
  let c := AppState.wsClient (World.app w) in
  r.1 = Done lastSpeed
  ∧ AppState.isRunning (World.app r.2) = negb (AppState.isRunning (World.app w))
  ∧ WSClient.frames (AppState.wsClient (World.app r.2))
    = WSClient.frames c
      ++ (if WSClient.is_open c
          then [if AppState.isRunning (World.app w) then CmdPause else CmdPlay]
          else [])
  ∧ AppState.speed (World.app r.2) = AppState.speed (World.app w)
  ∧ AppState.config (World.app r.2) = AppState.config (World.app w)
  ∧ AppState.state (World.app r.2) = AppState.state (World.app w).
Proof.
  intros Hkey Hin. cbn zeta. rewrite handleKeyDown_space by done.
  split; [done|]. cbn [snd].
  destruct (AppState.isRunning (World.app w)).
  - rewrite handlePause_run.
    match goal with |- context [App.fetchPath srv ?w1] =>
      destruct (fetchPath_keeps srv w1) as (-> & -> & _ & -> & -> & _ & _ & _ & _ & ->) end.
    cbn. by rewrite <- frames_send_if_open.
  - rewrite handlePlay_run. cbn. by rewrite <- frames_send_if_open.
Qed.

Lemma space_toggles_running_witness :
  AppState.isRunning (World.app
    (Keys.handleKeyDown (KeyboardEvent.mk " " false false false "BODY") 100
       Examples.offline (World.mk Examples.loadedB [])).2) = false.
Proof.
  apply (space_toggles_running Examples.offline (World.mk Examples.loadedB [])
           (KeyboardEvent.mk " " false false false "BODY") 100 eq_refl eq_refl).
Defined.

(** X25. The Shift boost is a round trip. Pressing Shift outside a text
    field remembers the current speed and sets the speed to 0; the
    auto-repeated key-down events that follow while the key is held change
    nothing, in particular not the remembered speed; releasing Shift sets
    the speed back to the remembered one. *)
Theorem shift_boost_round_trip
    (srv : Server) (w : World.t) (e : KeyboardEvent.t) (lastSpeed : Z) :
  KeyboardEvent.key e = "Shift" → Keys.isInput e = false →
  KeyboardEvent.repeat e = false →
  let v := AppState.speed (World.app w) in
  ∃ w1,
    Keys.handleKeyDown e lastSpeed srv w = (Done v, w1)
    ∧ AppState.speed (World.app w1) = 0%Z
    ∧ (∀ e', KeyboardEvent.key e' = "Shift" → Keys.isInput e' = false →
             KeyboardEvent.repeat e' = true →
             Keys.handleKeyDown e' v srv w1 = (Done v, w1))
    ∧ (∀ e', KeyboardEvent.key e' = "Shift" →
             let r := Keys.handleKeyUp e' v srv w1 in
             r.1 = Done tt
             ∧ AppState.speed (World.app r.2) = v
             ∧ AppState.isRunning (World.app r.2) = AppState.isRunning (World.app w)
             ∧ AppState.state (World.app r.2) = AppState.state (World.app w)
             ∧ World.log r.2 = World.log w).
Proof.
  intros Hkey Hin Hrep. cbn zeta.
  exists (App.handleSpeedChange 0 srv w).2.
  rewrite handleKeyDown_shift, Hrep by done. split; [done|].
  rewrite handleSpeedChange_run. cbn [snd]. split; [done|]. split.
  - intros e' Hkey' Hin' Hrep'. by rewrite handleKeyDown_shift, Hrep' by done.
  - intros e' Hkey'. cbn zeta. unfold Keys.handleKeyUp. rewrite Hkey'.
    by decide_keys.
Qed.

Lemma shift_boost_round_trip_witness :
  ∃ w1,
    Keys.handleKeyDown (KeyboardEvent.mk "Shift" false true false "BODY") 7
      Examples.offline (World.mk Examples.loadedB [])
    = (Done 100%Z, w1)
    ∧ AppState.speed (World.app w1) = 0%Z.
Proof.
  destruct (shift_boost_round_trip Examples.offline (World.mk Examples.loadedB [])
              (KeyboardEvent.mk "Shift" false true false "BODY") 7
              eq_refl eq_refl eq_refl) as (w1 & Hdown & Hspeed & _).
  exists w1. split; [exact Hdown|exact Hspeed].
Defined.

Lemma polls_no_step l : polls_only l → Requested ReqStep ∉ l.
Proof.
  intros Hl Hin. unfold polls_only in Hl. rewrite Forall_forall in Hl.
  by destruct (Hl _ Hin) as [E|E].
Qed.

Lemma handleTurbo_no_step srv w count :
  ∃ l, World.log (App.handleTurbo count srv w).2 = World.log w ++ l
       ∧ Requested ReqStep ∉ l.
Proof.
  rewrite handleTurbo_cases. cbn zeta.
  destruct (srv _ (ReqUpdateConfig _)); cbn.
  - destruct (srv _ (ReqTurbo count)) as [res|]; cbn.
    + destruct (decide (TurboResult.status res = "done")); cbn.
      * match goal with |- context [App.loadState srv ?w1] =>
          destruct (loadState_polls srv w1) as (l & -> & Hl) end.
        cbn. rewrite <- !app_assoc. eexists. split; [reflexivity|]. cbn.
        apply polls_no_step in Hl. set_solver.
      * rewrite <- !app_assoc. eexists. split; [reflexivity|]. cbn. set_solver.
    + rewrite <- !app_assoc. eexists. split; [reflexivity|]. cbn. set_solver.
  - rewrite <- !app_assoc. eexists. split; [reflexivity|]. cbn. set_solver.
Qed.

(** X26. What a key press never does. The key-down handler never throws,
    whatever becomes of the requests it starts. A key typed into an input,
    select or text area element is ignored altogether. And while the
    simulation runs no key press issues a step request. *)
Theorem key_down_guards
    (srv : Server) (w : World.t) (e : KeyboardEvent.t) (lastSpeed : Z) :
  let r := Keys.handleKeyDown e lastSpeed srv w in
  (∃ lastSpeed', r.1 = Done lastSpeed')
  ∧ (KeyboardEvent.tagName e ∈ ["INPUT"; "SELECT"; "TEXTAREA"] →
     r = (Done lastSpeed, w))
  ∧ (AppState.isRunning (World.app w) = true →
     ∃ l, World.log r.2 = World.log w ++ l ∧ Requested ReqStep ∉ l).
Proof.
  cbn zeta.
  destruct (Keys.isInput e) eqn:Hin.
  { unfold Keys.handleKeyDown. rewrite Hin. split; [by eexists|]. split; [done|].
    intros _. exists []. split; [by rewrite app_nil_r|apply not_elem_of_nil]. }
  assert (KeyboardEvent.tagName e ∉ ["INPUT"; "SELECT"; "TEXTAREA"]) as Htag.
  { unfold Keys.isInput in Hin. by apply bool_decide_eq_false in Hin. }
  destruct (decide (KeyboardEvent.key e = " ")) as [Hk|Hk1].
  { rewrite handleKeyDown_space by done. split; [by eexists|]. split; [done|].
    intros ->. cbn [snd]. rewrite handlePause_run.
    match goal with |- context [App.fetchPath srv ?w1] =>
      destruct (fetchPath_polls srv w1) as (l & -> & Hl) end.
    exists l. split; [done|]. by apply polls_no_step. }
  destruct (decide (KeyboardEvent.key e = "ArrowRight")) as [Hk|Hk2].
  { rewrite handleKeyDown_arrow by done. split; [by eexists|]. split; [done|].
    intros ->. exists []. split; [by rewrite app_nil_r|apply not_elem_of_nil]. }
  destruct (decide (KeyboardEvent.key e = "Shift")) as [Hk|Hk3].
  { rewrite handleKeyDown_shift by done. split; [|split; [done|]].
    - destruct (KeyboardEvent.repeat e); by eexists.
    - intros _. exists []. split; [|apply not_elem_of_nil].
      rewrite app_nil_r. by destruct (KeyboardEvent.repeat e). }
  destruct (decide (KeyboardEvent.key e = "Enter")) as [Hk|Hk4].
  { rewrite handleKeyDown_enter by done. split; [by eexists|]. split; [done|].
    intros _. cbn [snd].
    destruct (KeyboardEvent.ctrlKey e && KeyboardEvent.shiftKey e).
    - apply handleTurbo_no_step.
    - exists []. split; [by rewrite app_nil_r|apply not_elem_of_nil]. }
  rewrite handleKeyDown_other by set_solver. split; [by eexists|]. split; [done|].
  intros _. exists []. split; [by rewrite app_nil_r|apply not_elem_of_nil].
Qed.

(* ===================================================================== *)
(** ** From the pointer to an edit                                        *)
(* ===================================================================== *)

Section PointerEdit.
Import Canvas.

Lemma cell_index_in_range client origin extent n i :
  cell_index client origin extent n = Some i → i < n.
Proof.
  unfold cell_index. destruct (Double.floor _) as [z|]; [|done].
  case_decide; [|done]. intros [= <-]. lia.
Qed.

(** X27. What the pointer can do to the grid. Pressing the mouse button on
    the canvas and moving the pointer with the button held both run the
    cell edit for the cell the canvas computes from the position, a click
    edit in the first case and a drag edit in the second, or do nothing
    when there is no such cell; that cell always lies inside the displayed
    grid. Moving the pointer without the button never edits. None of the
    three throws, whatever the edit does. *)
Theorem pointer_edits_inside_the_grid
    (srv : Server) (w : World.t) (rect : Rect) (clientX clientY : Double.t) :
  ∃ target : option (nat * nat),
    (∀ x y, target = Some (x, y) →
       ∃ st, AppState.state (World.app w) = Some st
             ∧ x < GridState.width (SimulationState.env st)
             ∧ y < GridState.height (SimulationState.env st))
    ∧ Pointer.onMouseDown rect clientX clientY srv w
      = (Done true,
         match target with
         | Some (x, y) => (App.handleCellAction x y false srv w).2
         | None => w
         end)
    ∧ Pointer.onMouseMove rect true clientX clientY srv w
      = (Done true,
         match target with
         | Some (x, y) => (App.handleCellAction x y true srv w).2
         | None => w
         end)
    ∧ Pointer.onMouseMove rect false clientX clientY srv w = (Done false, w).
Proof.
  unfold Pointer.onMouseDown, Pointer.onMouseMove, Pointer.mouseEvent.
  unfold_M. cbn.
  destruct (AppState.state (World.app w)) as [st|] eqn:Hst.
  2:{ exists None. split; [done|]. by destruct w. }
  unfold handleMouseEvent.
  destruct (cell_index clientX _ _ _) as [x|] eqn:Hx.
  2:{ exists None. split; [done|]. by destruct w. }
  destruct (cell_index clientY _ _ _) as [y|] eqn:Hy.
  2:{ exists None. split; [done|]. by destruct w. }
  apply cell_index_in_range in Hx, Hy.
  exists (Some (x, y)). split.
  { intros ? ? [= <- <-]. by exists st. }
  unfold Pointer.dispatch, spawn. split; [|split].
  - by destruct (App.handleCellAction x y false srv w).
  - by destruct (App.handleCellAction x y true srv w).
  - by destruct w.
Qed.
End PointerEdit.

(** X28. Releasing the mouse button ends the drag and never throws. With
    no state loaded nothing else happens. With a state loaded it sends the
    current configuration to the server in a setup request, whether or not
    the simulation is running and whether or not anything was drawn, and
    polls the state afterwards only if that request was fulfilled; the
    configuration, the running flag and the brush stay as they are. *)
Theorem mouse_up_syncs (srv : Server) (w : World.t) :
  let r := Pointer.onMouseUp srv w in
  let push := ReqSetup (AppState.config (World.app w)) in
  r.1 = Done false
  ∧ AppState.config (World.app r.2) = AppState.config (World.app w)
  ∧ AppState.isRunning (World.app r.2) = AppState.isRunning (World.app w)
  ∧ AppState.drawMode (World.app r.2) = AppState.drawMode (World.app w)
  ∧ match AppState.state (World.app w) with
    | None => r.2 = w
    | Some _ =>
        ∃ (ok : bool) (rest : list Event),
          World.log r.2 = World.log w ++ Requested push :: Settled push ok :: rest
          ∧ polls_only rest ∧ (ok = false → rest = [])
    end.
Proof.
  cbn zeta. unfold Pointer.onMouseUp, spawn, App.handleSyncMap. unfold_M. cbn.
  destruct (AppState.state (World.app w)) as [st|]; cbn; [|by destruct w].
  destruct (srv _ (ReqSetup _)) as [[]|]; cbn.
  - match goal with |- context [App.loadState srv ?w1] =>
      destruct (loadState_polls srv w1) as (l & Hlog & Hpoll);
      destruct (loadState_keeps srv w1) as (Hc & _ & Hr & _ & _ & Hd & _);
      destruct (App.loadState srv w1) as [o w2] end.
    cbn in *. rewrite Hc, Hr, Hd, Hlog. split_and!; try done.
    exists true, l. by rewrite <- !app_assoc.
  - split_and!; try done. exists false, []. rewrite <- !app_assoc.
    split_and!; try done. solve_polls.
Qed.

(* ===================================================================== *)
(** ** The socket link: reconnecting and disconnecting                    *)
(* ===================================================================== *)

Lemma run_snoc es e l : Link.run (es ++ [e]) l = Link.step e (Link.run es l).
Proof. unfold Link.run. by rewrite foldl_app. Qed.

Lemma current_state_send f c :
  WebSocket.readyState <$> WSClient.ws (WSClient.send_if_open f c)
  = WebSocket.readyState <$> WSClient.ws c.
Proof.
  unfold WSClient.send_if_open.
  destruct (WSClient.ws c) as [s|] eqn:Hws; [|by rewrite Hws].
  case_bool_decide; cbn; [done|by rewrite Hws].
Qed.

Lemma alive_step e l : unattended e → alive l → alive (Link.step e l).
Proof.
  intros [Hc Hd] [Hon Hst]. unfold alive, Link.current_state in *.
  destruct l as [[ws cb] on tm]. cbn in *. subst on.
  destruct e; try done; cbn;
    unfold Link.current_state, Link.set_readyState,
      WSClient.play, WSClient.pause, WSClient.setSpeed; cbn;
    rewrite ?current_state_send; cbn;
    destruct ws as [[[] out]|]; cbn in *; try done; subst tm; done.
Qed.

Lemma alive_run es l : Forall unattended es → alive l → alive (Link.run es l).
Proof.
  induction es as [|e es IH] using rev_ind; [done|].
  intros [Hes He%Forall_inv]%Forall_app Hl. rewrite run_snoc.
  apply alive_step; [done|]. by apply IH.
Qed.

(** X29. Once connected, the link keeps itself alive for as long as the
    application neither connects again nor disconnects: whatever the
    socket, the timer and the commands do, the current socket is
    connecting, open or closing, or it is closed and exactly one reconnect
    timer is waiting;
    when that timer fires the client is connecting again, on a new socket
    on which nothing has been written. *)
Theorem link_reconnects (es : list Link.Ev) :
  Forall unattended es →
  let l := Link.run es (Link.connect Link.fresh) in
  alive l
  ∧ (Link.current_state l = Some CLOSED →
     let l' := Link.step Link.TimerFires l in
     alive l'
     ∧ Link.current_state l' = Some CONNECTING
     ∧ WSClient.frames (Link.client l') = []).
Proof.
  intros Hes. cbn zeta.
  assert (alive (Link.run es (Link.connect Link.fresh))) as Hl
    by (by apply alive_run).
  split; [done|]. intros Hclosed.
  destruct Hl as [Hon Hst]. rewrite Hclosed in Hst.
  unfold alive. cbn. by rewrite Hst.
Qed.

Lemma link_reconnects_witness :
  alive (Link.run [Link.SocketOpens; Link.CallPlay; Link.SocketClosing;
                   Link.SocketCloses; Link.CallPause; Link.TimerFires;
                   Link.SocketOpens]
           (Link.connect Link.fresh)).
Proof.
  refine (proj1 (link_reconnects [Link.SocketOpens; Link.CallPlay; Link.SocketClosing;
                                 Link.SocketCloses; Link.CallPause; Link.TimerFires;
                                 Link.SocketOpens] _)).
  repeat (constructor; [by split|]). constructor.
Defined.

Lemma shut_step e l :
  e ≠ Link.CallConnect → shut l →
  shut (Link.step e l)
  ∧ WSClient.frames (Link.client (Link.step e l)) = WSClient.frames (Link.client l).
Proof.
  intros Hc (Hon & Htm & Hnc & Hno). unfold shut, Link.current_state in *.
  destruct l as [[ws cb] on tm]. cbn in *. subst on tm.
  destruct e; try done; cbn;
    unfold Link.current_state, Link.set_readyState, Link.disconnect, Link.close,
      WSClient.play, WSClient.pause, WSClient.setSpeed, WSClient.send_if_open,
      WSClient.frames; cbn;
    destruct ws as [[[] out]|]; cbn in *; done.
Qed.

Lemma shut_run es l :
  Forall (λ e, e ≠ Link.CallConnect) es → shut l →
  shut (Link.run es l)
  ∧ WSClient.frames (Link.client (Link.run es l)) = WSClient.frames (Link.client l).
Proof.
  induction es as [|e es IH] using rev_ind; [done|].
  intros [Hes He%Forall_inv]%Forall_app Hl. rewrite run_snoc.
  destruct (IH Hes Hl) as [Hs Hf].
  destruct (shut_step e _ He Hs) as [Hs' Hf']. split; [done|]. by rewrite Hf'.
Qed.

(** X30. Disconnecting is final only when no reconnect is pending. After
    [disconnect] on a link with no timer waiting, nothing short of a new
    [connect] brings a socket back: it never opens again and no frame is
    ever written. But a reconnect timer that was already waiting when
    [disconnect] was called is not cancelled: when it fires the client
    connects again, with the reconnect handler installed. *)
Theorem disconnect_final_unless_timer_pending (l : Link.t) (es : list Link.Ev) :
  alive l →
  Forall (λ e, e ≠ Link.CallConnect) es →
  match Link.current_state l with
  | Some CLOSED =>
      let l' := Link.run [Link.CallDisconnect; Link.TimerFires] l in
      alive l' ∧ Link.current_state l' = Some CONNECTING
  | _ =>
      let l' := Link.run es (Link.disconnect l) in
      shut l'
      ∧ WSClient.frames (Link.client l') = WSClient.frames (Link.client l)
  end.
Proof.
  intros [Hon Hst] Hes.
  assert (Link.current_state l ≠ Some CLOSED →
          shut (Link.disconnect l)
          ∧ WSClient.frames (Link.client (Link.disconnect l))
            = WSClient.frames (Link.client l)) as Hfinal.
  { unfold shut, Link.disconnect, Link.close, Link.current_state, WSClient.frames in *.
    destruct l as [[ws cb] on tm]. cbn in *.
    destruct ws as [[[] out]|]; cbn in *; try done; subst tm; done. }
  destruct (Link.current_state l) as [[]|] eqn:Hcur; try done.
  1-3: destruct Hfinal as [Hs Hf]; [done|];
       destruct (shut_run es _ Hes Hs) as [Hs' Hf']; cbn zeta; split; [done|];
       by rewrite Hf'.
  cbn zeta. unfold alive, Link.run, Link.current_state in *. cbn.
  unfold Link.disconnect.
  destruct l as [[ws cb] on tm]. cbn in *. subst tm.
  destruct ws as [[[] out]|]; cbn in *; done.
Qed.

Lemma disconnect_final_unless_timer_pending_witness :
  let l := Link.run [Link.SocketOpens; Link.SocketCloses] (Link.connect Link.fresh) in
  let l' := Link.run [Link.CallDisconnect; Link.TimerFires] l in
  alive l' ∧ Link.current_state l' = Some CONNECTING.
Proof.
  apply (disconnect_final_unless_timer_pending
           (Link.run [Link.SocketOpens; Link.SocketCloses] (Link.connect Link.fresh))
           []).
  - by vm_compute.
  - constructor.
Defined.
